(** * Verification of [scripts/fetch_stocks.py]

    A shallow embedding of the stock data fetcher: configuration
    resolution, the quote and history fetchers, the synthetic data
    generator and the orchestrator [main], followed by the properties
    of the specification, each proved or refuted on that embedding.

    Conventions of the embedding.
    - A Python [str] is a Rocq [string], one character per code point:
      the texts of the embedding are the ones whose code points are
      below 256.  The table of [str.strip] is the one of Python on
      these code points, and so is the one of [str.upper] but for the
      two characters whose capital has a code point above 255
      ([PyStr.upper_closed] tells them apart).
    - A Python [dict] is an association list in insertion order
      without repeated keys: [Dict.set] overwrites in place and appends
      new keys, as the interpreter does.
    - Exceptions are values of [exn]; a computation is a function from
      the state of the world to a result and a new world.
    - Floating point numbers, the random generator and the parsing of
      numbers by [float] and [int] are the interpreter's: they are
      parameters of the development. *)

From Stdlib Require Import List String Ascii ZArith Lia Bool Arith.
From Stdlib Require Import Sorted Permutation.
Import ListNotations.

Local Open Scope string_scope.
Local Open Scope list_scope.

Set Implicit Arguments.
Local Set Warnings "-register-all".

(* ================================================================= *)
(** ** Python strings *)

Module PyStr.

(** [str.isspace] on code points below 256: tab, line feed, vertical
    tab, form feed, carriage return, the four separators 28 to 31, the
    space, the next line control (133) and the no-break space (160). *)
Definition is_space (c : ascii) : bool :=
  let n := nat_of_ascii c in
  (((9 <=? n) && (n <=? 13)) || ((28 <=? n) && (n <=? 32))
   || (n =? 133) || (n =? 160))%nat.

(** [str.upper] on one character of code point below 256.  The small
    letters a to z and the accented small letters 224 to 254, the
    division sign 247 apart, have their capital 32 places before; the
    capital of the sharp s (223) is the text SS.  The capitals of the
    micro sign (181) and of the y with diaeresis (255) have code points
    above 255, outside the texts of the embedding: the two are left as
    they are here, and what is stated of the result of [upper] is
    stated of texts without them. *)
Definition upper_char (c : ascii) : string :=
  let n := nat_of_ascii c in
  if (((97 <=? n) && (n <=? 122))
      || ((224 <=? n) && (n <=? 254) && negb (n =? 247)))%nat
  then String (ascii_of_nat (n - 32)) EmptyString
  else if (n =? 223)%nat then "SS"
  else String c EmptyString.

(** The characters whose capital is a text of the embedding. *)
Definition upper_closed (c : ascii) : bool :=
  let n := nat_of_ascii c in
  negb ((n =? 181) || (n =? 255))%nat.

Fixpoint upper (s : string) : string :=
  match s with
  | EmptyString => EmptyString
  | String c s' => upper_char c ++ upper s'
  end.

Fixpoint lstrip (s : string) : string :=
  match s with
  | EmptyString => EmptyString
  | String c s' => if is_space c then lstrip s' else s
  end.

Fixpoint rstrip (s : string) : string :=
  match s with
  | EmptyString => EmptyString
  | String c s' =>
      match rstrip s' with
      | EmptyString => if is_space c then EmptyString else String c EmptyString
      | t => String c t
      end
  end.

(** [s.strip()] *)
Definition strip (s : string) : string := rstrip (lstrip s).

(** [s.split(sep)] for a separator of one character: never empty. *)
Fixpoint split (sep : ascii) (s : string) : list string :=
  match s with
  | EmptyString => [EmptyString]
  | String c s' =>
      if Ascii.eqb c sep then EmptyString :: split sep s'
      else match split sep s' with
           | t :: ts => String c t :: ts
           | [] => [String c EmptyString]
           end
  end.

(** [s.replace(old, "")] for [old] of one character. *)
Fixpoint remove_char (old : ascii) (s : string) : string :=
  match s with
  | EmptyString => EmptyString
  | String c s' =>
      if Ascii.eqb c old then remove_char old s'
      else String c (remove_char old s')
  end.

(** [sub in s] on strings. *)
Fixpoint contains (sub s : string) : bool :=
  String.prefix sub s ||
  match s with
  | EmptyString => false
  | String _ s' => contains sub s'
  end.

(** [sep.join(l)] *)
Definition join (sep : string) (l : list string) : string :=
  String.concat sep l.

Fixpoint all_chars (p : ascii -> bool) (s : string) : bool :=
  match s with
  | EmptyString => true
  | String c s' => p c && all_chars p s'
  end.

Fixpoint count_char (c : ascii) (s : string) : nat :=
  match s with
  | EmptyString => 0
  | String c' s' => (if Ascii.eqb c' c then 1 else 0) + count_char c s'
  end.

(** The order of [str]: lexicographic on code points. *)
Definition lt (a b : string) : Prop := String.compare a b = Lt.
Definition ltb (a b : string) : bool := String.ltb a b.
Definition leb (a b : string) : bool := String.leb a b.

End PyStr.

(* ================================================================= *)
(** ** Exceptions and results *)

Inductive exn : Type :=
| RequestException
| ValueError
| KeyError
| TypeError
| AttributeError
| OverflowError
| SystemExit (code : Z).

Inductive result (A : Type) : Type :=
| Ok (a : A)
| Raise (e : exn).
Arguments Ok {A} a.
Arguments Raise {A} e.

Definition rbind {A B} (r : result A) (k : A -> result B) : result B :=
  match r with
  | Ok a => k a
  | Raise e => Raise e
  end.

Declare Scope result_scope.
Delimit Scope result_scope with result.
Notation "x <~ r ;; k" := (rbind r (fun x => k))
  (at level 100, r at next level, right associativity) : result_scope.

(* ================================================================= *)
(** ** Dictionaries in insertion order *)

Module Dict.
Section Dict.
Variable V : Type.

Definition t : Type := list (string * V).

Fixpoint get (k : string) (d : t) : option V :=
  match d with
  | [] => None
  | (k', v) :: d' => if String.eqb k k' then Some v else get k d'
  end.

Definition mem (k : string) (d : t) : bool :=
  match get k d with Some _ => true | None => false end.

(** [d[k] = v]: the value of an existing key is replaced where it
    stands, a new key goes to the end. *)
Fixpoint set (k : string) (v : V) (d : t) : t :=
  match d with
  | [] => [(k, v)]
  | (k', v') :: d' =>
      if String.eqb k k' then (k', v) :: d' else (k', v') :: set k v d'
  end.

(** [list(d.keys())] *)
Definition keys (d : t) : list string := map fst d.

(** [not d] *)
Definition is_empty (d : t) : bool :=
  match d with [] => true | _ => false end.

(** The dictionary built from pairs read in order, as the JSON
    decoder builds an object. *)
Definition of_list (l : list (string * V)) : t :=
  fold_left (fun d kv => set (fst kv) (snd kv) d) l [].

End Dict.
End Dict.

(* ================================================================= *)
(** ** Calendar dates

    [datetime.now()] is used for its date only: [strftime("%Y-%m-%d")],
    [weekday()] and the subtraction of a [timedelta] of whole days. *)

Module Date.

Record t : Type := mk { year : Z; month : Z; day : Z }.

Definition is_leap (y : Z) : bool :=
  ((y mod 4 =? 0) && (negb (y mod 100 =? 0) || (y mod 400 =? 0)))%Z.

Definition days_in_month (y m : Z) : Z :=
  (if m =? 2 then (if is_leap y then 29 else 28)
   else if (m =? 4) || (m =? 6) || (m =? 9) || (m =? 11) then 30
   else 31)%Z.

(** Days of the year before the first of month [m]. *)
Definition days_before_month (y m : Z) : Z :=
  ((if m =? 1 then 0 else if m =? 2 then 31 else if m =? 3 then 59
    else if m =? 4 then 90 else if m =? 5 then 120 else if m =? 6 then 151
    else if m =? 7 then 181 else if m =? 8 then 212 else if m =? 9 then 243
    else if m =? 10 then 273 else if m =? 11 then 304 else 334)
   + (if (2 <? m) && is_leap y then 1 else 0))%Z.

(** Days before the first of January of year [y]. *)
Definition days_before_year (y : Z) : Z :=
  ((y - 1) * 365 + (y - 1) / 4 - (y - 1) / 100 + (y - 1) / 400)%Z.

(** [d.toordinal()]: 0001-01-01 is day 1. *)
Definition toordinal (d : t) : Z :=
  (days_before_year (year d) + days_before_month (year d) (month d) + day d)%Z.

(** [d.weekday()]: Monday is 0, Sunday is 6. *)
Definition weekday (d : t) : Z := ((toordinal d + 6) mod 7)%Z.

Definition valid (d : t) : Prop :=
  (1 <= year d <= 9999 /\ 1 <= month d <= 12
   /\ 1 <= day d <= days_in_month (year d) (month d))%Z.

(** A month and a day of that month, in any year. *)
Definition wf (d : t) : Prop :=
  (1 <= month d <= 12 /\ 1 <= day d <= days_in_month (year d) (month d))%Z.

Definition validb (d : t) : bool :=
  ((1 <=? year d) && (year d <=? 9999) && (1 <=? month d) && (month d <=? 12)
   && (1 <=? day d) && (day d <=? days_in_month (year d) (month d)))%Z.

(** The day before [d]. *)
Definition pred (d : t) : t :=
  (if 1 <? day d then mk (year d) (month d) (day d - 1)
   else if 1 <? month d
        then mk (year d) (month d - 1) (days_in_month (year d) (month d - 1))
        else mk (year d - 1) 12 31)%Z.

(** [d - timedelta(days=n)] for [n >= 0]. *)
Definition sub_days (d : t) (n : nat) : t := Nat.iter n pred d.

(** The [width] low decimal digits of [n], most significant first. *)
Fixpoint digits (width : nat) (n : Z) : string :=
  match width with
  | O => EmptyString
  | S w =>
      String (ascii_of_nat (48 + Z.to_nat ((n / 10 ^ Z.of_nat w) mod 10)))
             (digits w n)
  end.

(** The number of decimal digits of a year of the calendar. *)
Definition year_width (y : Z) : nat :=
  if (y <? 10)%Z then 1
  else if (y <? 100)%Z then 2
  else if (y <? 1000)%Z then 3
  else 4.

(** [d.strftime("%Y-%m-%d")] as CPython 3.11 prints it through the C
    library of Linux: the year in decimal without padding (999 for
    the year 999), the month and the day on two digits. *)
Definition strftime (d : t) : string :=
  digits (year_width (year d)) (year d)
  ++ "-" ++ digits 2 (month d) ++ "-" ++ digits 2 (day d).

(** Chronological order. *)
Definition lt (a b : t) : Prop :=
  (year a < year b
   \/ (year a = year b
       /\ (month a < month b \/ (month a = month b /\ day a < day b))))%Z.

End Date.

(* ================================================================= *)
(** ** The interpreter's numbers and random generator *)

Inductive float_class : Type := Finite | Infinite | NotANumber.

(** What the program asks of Python's [float], [int], [round] and
    [random].  A model of the program is an instance of this class. *)
Class Runtime : Type := {
  float : Type;
  (** the float written [m / 10^k] in the source, or converted from
      an [int] when [k = 0] *)
  float_lit : Z -> nat -> float;
  (** [float(s)] on a string; [None] is [ValueError] *)
  float_of_str : string -> option float;
  (** [int(s)] on a string; [None] is [ValueError] *)
  int_of_str : string -> option Z;
  float_classify : float -> float_class;
  (** [int(x)] on a finite float *)
  float_trunc : float -> Z;
  (** [x == 0.0] *)
  float_is_zero : float -> bool;
  fadd : float -> float -> float;
  fsub : float -> float -> float;
  fmul : float -> float -> float;
  fdiv : float -> float -> float;
  fmax : float -> float -> float;
  fmin : float -> float -> float;
  (** [round(x, 2)] *)
  round2 : float -> float;
  rng : Type;
  (** [random.uniform(a, b)] *)
  uniform : float -> float -> rng -> float * rng;
  (** [random.randint(a, b)] *)
  randint : Z -> Z -> rng -> Z * rng;
  (** [float("0") == 0.0] *)
  float_of_str_zero : float_of_str "0" = Some (float_lit 0 0)
}.

(* ================================================================= *)
(** ** JSON values as [response.json()] returns them *)

Section Json.
Context {RT : Runtime}.

Inductive json : Type :=
  | JNull
  | JBool (b : bool)
  | JInt (z : Z)
  | JFloat (f : float)
  | JStr (s : string)
  | JArr (l : list json)
  | JObj (d : list (string * json)).

(** [bool(x)] *)
Definition py_truthy (x : json) : bool :=
  match x with
  | JNull => false
  | JBool b => b
  | JInt z => negb (z =? 0)%Z
  | JFloat f => negb (float_is_zero f)
  | JStr s => negb (String.eqb s "")
  | JArr l => match l with [] => false | _ => true end
  | JObj d => negb (Dict.is_empty d)
  end.

(** [x == k] for a string [k] *)
Definition py_eq_str (k : string) (x : json) : bool :=
  match x with
  | JStr s => String.eqb k s
  | _ => false
  end.

(** [k in x] for a string [k]: key of a dict, element of a list,
    substring of a string; other values are not iterable. *)
Definition py_in (k : string) (x : json) : result bool :=
  match x with
  | JObj d => Ok (Dict.mem k d)
  | JArr l => Ok (existsb (py_eq_str k) l)
  | JStr s => Ok (PyStr.contains k s)
  | _ => Raise TypeError
  end.

(** [x[k]] for a string [k] *)
Definition py_getitem (x : json) (k : string) : result json :=
  match x with
  | JObj d => match Dict.get k d with
              | Some v => Ok v
              | None => Raise KeyError
              end
  | _ => Raise TypeError
  end.

(** [x.get(k, default)]: only a dict has the method. *)
Definition py_get (x : json) (k : string) (default : json) : result json :=
  match x with
  | JObj d => match Dict.get k d with
              | Some v => Ok v
              | None => Ok default
              end
  | _ => Raise AttributeError
  end.

(** [x.replace(old, "")]: only a string has the method. *)
Definition py_replace (x : json) (old : ascii) : result json :=
  match x with
  | JStr s => Ok (JStr (PyStr.remove_char old s))
  | _ => Raise AttributeError
  end.

(** An [int] converts to a float unless it rounds beyond the
    largest one. *)
Definition float_of_int (z : Z) : result float :=
  if (Z.abs z <? 2 ^ 1024 - 2 ^ 970)%Z then Ok (float_lit z 0)
  else Raise OverflowError.

(** [float(x)] *)
Definition py_float (x : json) : result float :=
  match x with
  | JStr s => match float_of_str s with
              | Some f => Ok f
              | None => Raise ValueError
              end
  | JInt z => float_of_int z
  | JBool b => Ok (float_lit (if b then 1 else 0) 0)
  | JFloat f => Ok f
  | JNull | JArr _ | JObj _ => Raise TypeError
  end.

(** [int(x)] *)
Definition py_int (x : json) : result Z :=
  match x with
  | JStr s => match int_of_str s with
              | Some z => Ok z
              | None => Raise ValueError
              end
  | JInt z => Ok z
  | JBool b => Ok (if b then 1 else 0)%Z
  | JFloat f => match float_classify f with
                | Finite => Ok (float_trunc f)
                | Infinite => Raise OverflowError
                | NotANumber => Raise ValueError
                end
  | JNull | JArr _ | JObj _ => Raise TypeError
  end.

End Json.

(* ================================================================= *)
(** ** Records of the data model *)

Section Data.
Context {RT : Runtime}.

(** The quote of one symbol.  [symbol] and [latestTradingDay] are
    stored as the provider sent them. *)
Record Quote : Type := mkQuote {
  q_symbol : json;
  q_price : float;
  q_change : float;
  q_changePercent : float;
  q_open : float;
  q_high : float;
  q_low : float;
  q_volume : Z;
  q_prevClose : float;
  q_latestTradingDay : json
}.

Record HistoryPoint : Type := mkPoint {
  h_date : string;
  h_open : float;
  h_high : float;
  h_low : float;
  h_close : float;
  h_volume : Z
}.

Definition History : Type := list HistoryPoint.

Record StockRecord : Type := mkRecord {
  quote : Quote;
  history : History
}.

Definition Stocks : Type := Dict.t StockRecord.

(** The document written to [OUTPUT_FILE]. *)
Record Snapshot : Type := mkSnapshot {
  lastUpdated : string;
  symbols : list string;
  stocks : Stocks
}.

(** The two places of the file system the program touches:
    [DATA_DIR] and the content of [OUTPUT_FILE]. *)
Record FileSystem : Type := mkFS {
  data_dir : bool;
  output_file : option Snapshot
}.

(** The two requests of the program. *)
Inductive api_function : Type := GLOBAL_QUOTE | TIME_SERIES_DAILY.

Record Request : Type := mkRequest {
  rq_function : api_function;
  rq_symbol : string;
  rq_outputsize : option string;
  rq_apikey : string
}.

(** What [requests.get], [raise_for_status] and [response.json]
    leave: a request that failed (connection, timeout, status code
    or a body that is not JSON, all of them [RequestException] in
    requests 2.27 and later) or the decoded body. *)
Inductive Response : Type :=
  | Failed
  | Body (data : json).

(** What the program prints.  [MsgBanner] stands for its title and
    the rules around it; blank lines are left out. *)
Inductive Message : Type :=
  | MsgNoApiKey
  | MsgErrorFor (symbol : string) (detail : json)
  | MsgRateLimit
  | MsgNoData (symbol : string)
  | MsgRequestFailed (symbol : string)
  | MsgParseError (symbol : string) (e : exn)
  | MsgGeneratingDemo
  | MsgBanner
  | MsgSymbols (l : list string)
  | MsgApiKey (is_set : bool)
  | MsgFetching (symbol : string)
  | MsgFetched (symbol : string) (price change : float)
  | MsgSkipping (symbol : string)
  | MsgNoDataFetched
  | MsgSaved (count : nat) (timestamp : string).

(** One reading of the clock: the local date of [datetime.now()] and
    the text of [datetime.utcnow().isoformat()]. *)
Record Instant : Type := mkInstant {
  local_date : Date.t;
  utc_isoformat : string
}.

(** The world the program runs in.  [clock n] is the [n]-th reading
    of the clock and [network n r] the answer to request [r] when
    it is the [n]-th request sent. *)
Record World : Type := mkWorld {
  environ : string -> option string;
  clock : nat -> Instant;
  ticks : nat;
  network : nat -> Request -> Response;
  sent : nat;
  random : rng;
  stdout : list Message;
  files : FileSystem
}.

(** Computations: state of the world and exceptions. *)
Definition M (A : Type) : Type := World -> result A * World.

Definition ret {A} (a : A) : M A := fun w => (Ok a, w).

Definition bind {A B} (m : M A) (k : A -> M B) : M B :=
  fun w => match m w with
           | (Ok a, w') => k a w'
           | (Raise e, w') => (Raise e, w')
           end.

Definition raise {A} (e : exn) : M A := fun w => (Raise e, w).

Definition lift {A} (r : result A) : M A := fun w => (r, w).

(** [try: m except ...: h], where [h e] is [None] for an exception
    no clause names. *)
Definition try_except {A} (m : M A) (h : exn -> option (M A)) : M A :=
  fun w => match m w with
           | (Ok a, w') => (Ok a, w')
           | (Raise e, w') =>
               match h e with
               | Some k => k w'
               | None => (Raise e, w')
               end
           end.

(** Updates of one field of the world. *)
Definition set_ticks (n : nat) (w : World) : World :=
  mkWorld (environ w) (clock w) n (network w) (sent w) (random w)
          (stdout w) (files w).
Definition set_sent (n : nat) (w : World) : World :=
  mkWorld (environ w) (clock w) (ticks w) (network w) n (random w)
          (stdout w) (files w).
Definition set_random (g : rng) (w : World) : World :=
  mkWorld (environ w) (clock w) (ticks w) (network w) (sent w) g
          (stdout w) (files w).
Definition set_stdout (out : list Message) (w : World) : World :=
  mkWorld (environ w) (clock w) (ticks w) (network w) (sent w) (random w)
          out (files w).
Definition set_files (fs : FileSystem) (w : World) : World :=
  mkWorld (environ w) (clock w) (ticks w) (network w) (sent w) (random w)
          (stdout w) fs.

Definition print (msg : Message) : M unit :=
  fun w => (Ok tt, set_stdout (stdout w ++ [msg]) w).

(** [os.environ.get(name)] *)
Definition environ_get (name : string) : M (option string) :=
  fun w => (Ok (environ w name), w).

(** [datetime.now()] and [datetime.utcnow()] *)
Definition now : M Instant :=
  fun w => (Ok (clock w (ticks w)), set_ticks (S (ticks w)) w).

(** [requests.get(API_BASE, params, timeout=30)], then
    [raise_for_status()] and [json()]. *)
Definition http_get_json (r : Request) : M json :=
  fun w =>
    match network w (sent w) r with
    | Failed => (Raise RequestException, set_sent (S (sent w)) w)
    | Body data => (Ok data, set_sent (S (sent w)) w)
    end.

Definition random_uniform (a b : float) : M float :=
  fun w => let (x, g) := uniform a b (random w) in (Ok x, set_random g w).

Definition random_randint (a b : Z) : M Z :=
  fun w => let (x, g) := randint a b (random w) in (Ok x, set_random g w).

(** [DATA_DIR.mkdir(exist_ok=True)] *)
Definition mkdir_data_dir : M unit :=
  fun w => (Ok tt, set_files (mkFS true (output_file (files w))) w).

(** [open(OUTPUT_FILE, "w")] and [json.dump(output, f, indent=2)] *)
Definition write_output (doc : Snapshot) : M unit :=
  fun w => (Ok tt, set_files (mkFS (data_dir (files w)) (Some doc)) w).

End Data.

Declare Scope py_scope.
Delimit Scope py_scope with py.
Notation "x <- m ;; k" := (bind m (fun x => k))
  (at level 100, m at next level, right associativity) : py_scope.
Notation "m ;;; k" := (bind m (fun _ => k))
  (at level 100, right associativity) : py_scope.

Local Open Scope py_scope.

(* ================================================================= *)
(** ** The program *)

Section Program.
Context {RT : Runtime}.

(** *** Configuration *)

Definition get_api_key : M string :=
  api_key <- environ_get "ALPHA_VANTAGE_API_KEY" ;;
  match api_key with
  | Some (String c k) => ret (String c k)
  | Some EmptyString | None => print MsgNoApiKey ;;; ret "demo"
  end.

Definition get_symbols : M (list string) :=
  v <- environ_get "SYMBOLS" ;;
  let symbols_str :=
    match v with
    | Some s => s
    | None => "AAPL,MSFT,GOOGL,AMZN,TSLA,NVDA"
    end in
  ret (map (fun s => PyStr.upper (PyStr.strip s)) (PyStr.split "," symbols_str)).

(** *** Quote fetch *)

(** [float(obj.get(key, 0))] *)
Definition float_field (obj : json) (key : string) : result float :=
  (v <~ py_get obj key (JInt 0) ;; py_float v)%result.

(** [int(obj.get(key, 0))] *)
Definition int_field (obj : json) (key : string) : result Z :=
  (v <~ py_get obj key (JInt 0) ;; py_int v)%result.

(** The dictionary that [fetch_quote] returns, its ten entries
    evaluated in the order they are written. *)
Definition build_quote (symbol : string) (quote : json) : result Quote :=
  (f_symbol <~ py_get quote "01. symbol" (JStr symbol) ;;
   f_price <~ float_field quote "05. price" ;;
   f_change <~ float_field quote "09. change" ;;
   pct <~ py_get quote "10. change percent" (JStr "0%") ;;
   pct' <~ py_replace pct "%" ;;
   f_changePercent <~ py_float pct' ;;
   f_open <~ float_field quote "02. open" ;;
   f_high <~ float_field quote "03. high" ;;
   f_low <~ float_field quote "04. low" ;;
   f_volume <~ int_field quote "06. volume" ;;
   f_prevClose <~ float_field quote "08. previous close" ;;
   f_day <~ py_get quote "07. latest trading day" (JStr "") ;;
   Ok (mkQuote f_symbol f_price f_change f_changePercent f_open f_high
               f_low f_volume f_prevClose f_day))%result.

(** The body of the [try] of [fetch_quote]. *)
Definition fetch_quote_body (symbol api_key : string) : M (option Quote) :=
  data <- http_get_json (mkRequest GLOBAL_QUOTE symbol None api_key) ;;
  has_error <- lift (py_in "Error Message" data) ;;
  if has_error then
    detail <- lift (py_getitem data "Error Message") ;;
    print (MsgErrorFor symbol detail) ;;;
    ret None
  else
    has_note <- lift (py_in "Note" data) ;;
    if has_note then
      print MsgRateLimit ;;;
      ret None
    else
      quote <- lift (py_get data "Global Quote" (JObj [])) ;;
      if negb (py_truthy quote) then
        print (MsgNoData symbol) ;;;
        ret None
      else
        q <- lift (build_quote symbol quote) ;;
        ret (Some q).

(** Its two [except] clauses. *)
Definition fetch_quote_handler (symbol : string) (e : exn)
  : option (M (option Quote)) :=
  match e with
  | RequestException => Some (print (MsgRequestFailed symbol) ;;; ret None)
  | ValueError | KeyError => Some (print (MsgParseError symbol e) ;;; ret None)
  | _ => None
  end.

Definition fetch_quote (symbol api_key : string) : M (option Quote) :=
  try_except (fetch_quote_body symbol api_key) (fetch_quote_handler symbol).

(** *** History fetch *)

(** [x.items()]: only a dict has the method. *)
Definition py_items (x : json) : result (list (string * json)) :=
  match x with
  | JObj d => Ok d
  | _ => Raise AttributeError
  end.

(** [sorted] on the items of a dict.  The keys of a dict are
    distinct, so two items are always ordered by their keys. *)
Fixpoint insert_item (kv : string * json) (l : list (string * json))
  : list (string * json) :=
  match l with
  | [] => [kv]
  | kv' :: l' =>
      if PyStr.ltb (fst kv) (fst kv') then kv :: l
      else kv' :: insert_item kv l'
  end.

Definition sorted_items (l : list (string * json)) : list (string * json) :=
  fold_left (fun acc kv => insert_item kv acc) l [].

(** The dictionary appended for one item. *)
Definition history_point (date_str : string) (values : json)
  : result HistoryPoint :=
  (f_open <~ float_field values "1. open" ;;
   f_high <~ float_field values "2. high" ;;
   f_low <~ float_field values "3. low" ;;
   f_close <~ float_field values "4. close" ;;
   f_volume <~ int_field values "5. volume" ;;
   Ok (mkPoint date_str f_open f_high f_low f_close f_volume))%result.

(** The [for] loop over the sorted items, appending to [history]. *)
Fixpoint history_loop (items : list (string * json)) (history : History)
  : result History :=
  match items with
  | [] => Ok history
  | (date_str, values) :: rest =>
      (p <~ history_point date_str values ;;
       history_loop rest (history ++ [p]))%result
  end.

(** The body of the [try] of [fetch_daily_history]. *)
Definition fetch_daily_history_body (symbol api_key output_size : string)
  : M History :=
  data <- http_get_json
            (mkRequest TIME_SERIES_DAILY symbol (Some output_size) api_key) ;;
  has_error <- lift (py_in "Error Message" data) ;;
  if has_error then ret []
  else
    has_note <- lift (py_in "Note" data) ;;
    if has_note then ret []
    else
      time_series <- lift (py_get data "Time Series (Daily)" (JObj [])) ;;
      items <- lift (py_items time_series) ;;
      lift (history_loop (sorted_items items) []).

Definition fetch_daily_history_handler (e : exn) : option (M History) :=
  match e with
  | RequestException | ValueError | KeyError => Some (ret [])
  | _ => None
  end.

Definition fetch_daily_history (symbol api_key output_size : string)
  : M History :=
  try_except (fetch_daily_history_body symbol api_key output_size)
             fetch_daily_history_handler.

End Program.

Section Demo.
Context {RT : Runtime}.

(** *** Synthetic data *)

(** [range(n)] *)
Definition range (n : Z) : list Z := map Z.of_nat (seq 0 (Z.to_nat n)).

(** [d - timedelta(days=k)]: a date before year 1 is out of range. *)
Definition sub_timedelta (d : Date.t) (k : Z) : result Date.t :=
  let d' := Date.sub_days d (Z.to_nat k) in
  if (1 <=? Date.year d')%Z then Ok d' else Raise OverflowError.

(** One turn of the loop of [generate_demo_history]: the state of
    the loop is the running [price] and the [history] so far. *)
Definition demo_history_step (days i : Z) (st : float * History)
  : M (float * History) :=
  let (price, history) := st in
  _ <- now ;;
  t <- now ;;
  entry_date <- lift (sub_timedelta (local_date t) (days - i)) ;;
  if (5 <=? Date.weekday entry_date)%Z then ret (price, history)
  else
    u <- random_uniform (float_lit (-3) 2) (float_lit 35 3) ;;
    let change := fmul u price in
    let price := fmax (fmul price (float_lit 5 1))
                      (fmin (fmul price (float_lit 15 1)) (fadd price change)) in
    volatility <- random_uniform (float_lit 1 0) (float_lit 4 0) ;;
    let f_open := round2 (fsub price volatility) in
    u_high <- random_uniform (float_lit 0 0) (float_lit 2 0) ;;
    let f_high := round2 (fadd (fadd price volatility) u_high) in
    u_low <- random_uniform (float_lit 0 0) (float_lit 2 0) ;;
    let f_low := round2 (fsub (fsub price volatility) u_low) in
    let f_close := round2 price in
    f_volume <- random_randint 20000000 80000000 ;;
    ret (price,
         history ++ [mkPoint (Date.strftime entry_date)
                             f_open f_high f_low f_close f_volume]).

Fixpoint demo_history_loop (days : Z) (idx : list Z) (st : float * History)
  : M (float * History) :=
  match idx with
  | [] => ret st
  | i :: rest =>
      st' <- demo_history_step days i st ;;
      demo_history_loop days rest st'
  end.

Definition generate_demo_history (current_price : float) (days : Z)
  : M History :=
  let price := fmul current_price (float_lit 9 1) in
  st <- demo_history_loop days (range days) (price, []) ;;
  ret (snd st).

(** [base_prices.get(symbol, 100.0)] *)
Definition base_prices : Dict.t float :=
  [("AAPL", float_lit 1850 1); ("MSFT", float_lit 4200 1);
   ("GOOGL", float_lit 1750 1); ("AMZN", float_lit 2200 1);
   ("TSLA", float_lit 1750 1); ("NVDA", float_lit 1400 1)].

Definition base_price_of (symbol : string) : float :=
  match Dict.get symbol base_prices with
  | Some p => p
  | None => float_lit 1000 1
  end.

(** The record built for one symbol in [generate_demo_data]. *)
Definition demo_record (symbol : string) : M StockRecord :=
  let base_price := base_price_of symbol in
  u <- random_uniform (float_lit (-5) 0) (float_lit 5 0) ;;
  let price := fadd base_price u in
  change <- random_uniform (float_lit (-3) 0) (float_lit 3 0) ;;
  let f_price := round2 price in
  let f_change := round2 change in
  let f_changePercent := round2 (fmul (fdiv change price) (float_lit 100 0)) in
  u_open <- random_uniform (float_lit 0 0) (float_lit 2 0) ;;
  let f_open := round2 (fsub price u_open) in
  u_high <- random_uniform (float_lit 0 0) (float_lit 3 0) ;;
  let f_high := round2 (fadd price u_high) in
  u_low <- random_uniform (float_lit 0 0) (float_lit 3 0) ;;
  let f_low := round2 (fsub price u_low) in
  f_volume <- random_randint 20000000 80000000 ;;
  let f_prevClose := round2 (fsub price change) in
  t <- now ;;
  let f_day := JStr (Date.strftime (local_date t)) in
  h <- generate_demo_history price 100 ;;
  ret (mkRecord
         (mkQuote (JStr symbol) f_price f_change f_changePercent f_open
                  f_high f_low f_volume f_prevClose f_day)
         h).

(** The [for] loop of [generate_demo_data]. *)
Fixpoint demo_loop (symbols : list string) (stocks : Stocks) : M Stocks :=
  match symbols with
  | [] => ret stocks
  | symbol :: rest =>
      r <- demo_record symbol ;;
      demo_loop rest (Dict.set symbol r stocks)
  end.

Definition generate_demo_data (symbols : list string) : M Stocks :=
  print MsgGeneratingDemo ;;;
  demo_loop symbols [].

(** *** Orchestrator *)

(** One turn of the loop of [main] in live mode. *)
Definition live_step (api_key symbol : string) (stocks : Stocks) : M Stocks :=
  print (MsgFetching symbol) ;;;
  quote <- fetch_quote symbol api_key ;;
  match quote with
  | Some q =>
      history <- fetch_daily_history symbol api_key "compact" ;;
      let stocks := Dict.set symbol (mkRecord q history) stocks in
      print (MsgFetched symbol (q_price q) (q_change q)) ;;;
      ret stocks
  | None =>
      print (MsgSkipping symbol) ;;;
      ret stocks
  end.

Fixpoint live_loop (api_key : string) (symbols : list string) (stocks : Stocks)
  : M Stocks :=
  match symbols with
  | [] => ret stocks
  | symbol :: rest =>
      stocks' <- live_step api_key symbol stocks ;;
      live_loop api_key rest stocks'
  end.

(** The mapping [stocks] that [main] holds after its branch. *)
Definition collect_stocks (api_key : string) (symbols : list string)
  : M Stocks :=
  if String.eqb api_key "demo" then generate_demo_data symbols
  else live_loop api_key symbols [].

Definition main : M Z :=
  print MsgBanner ;;;
  api_key <- get_api_key ;;
  symbols <- get_symbols ;;
  print (MsgSymbols symbols) ;;;
  print (MsgApiKey (negb (String.eqb api_key "demo"))) ;;;
  mkdir_data_dir ;;;
  stocks <- collect_stocks api_key symbols ;;
  if Dict.is_empty stocks then
    print MsgNoDataFetched ;;;
    raise (SystemExit 1)
  else
    t <- now ;;
    let output := mkSnapshot (utc_isoformat t ++ "Z") (Dict.keys stocks) stocks in
    write_output output ;;;
    print (MsgSaved (List.length stocks) (lastUpdated output)) ;;;
    ret 0%Z.

(** [sys.exit(main())] and the status the process ends with: the
    code of [SystemExit], 1 for any other exception. *)
Definition script : M unit :=
  code <- main ;;
  raise (SystemExit code).

Definition exit_status (r : result unit) : Z :=
  match r with
  | Ok _ => 0%Z
  | Raise (SystemExit code) => code
  | Raise _ => 1%Z
  end.

Definition run (w : World) : Z * World :=
  let (r, w') := script w in (exit_status r, w').

End Demo.

(* ================================================================= *)
(** ** An executable runtime

    Decimal numbers held as a numerator over a power of ten, in
    place of the binary floats of the interpreter, and a linear
    congruential generator.  [float] and [int] read here the plain
    decimal notation (sign, digits, one point), which is the one the
    provider sends. *)

Module Decimal.

(** [num / 10^scale] *)
Record t : Type := mk { num : Z; scale : nat }.

Definition pow10 (k : nat) : Z := (10 ^ Z.of_nat k)%Z.

(** Both numerators on the larger of the two scales. *)
Definition align (a b : t) : Z * Z * nat :=
  let k := Nat.max (scale a) (scale b) in
  ((num a * pow10 (k - scale a))%Z, (num b * pow10 (k - scale b))%Z, k).

Definition add (a b : t) : t :=
  let '(x, y, k) := align a b in mk (x + y) k.
Definition sub (a b : t) : t :=
  let '(x, y, k) := align a b in mk (x - y) k.
(** Product, cut to six decimal places. *)
Definition mul (a b : t) : t :=
  let k := (scale a + scale b)%nat in
  if (k <=? 6)%nat then mk (num a * num b) k
  else mk (num a * num b / pow10 (k - 6)) 6.
(** Quotient to six decimal places. *)
Definition div (a b : t) : t :=
  let '(x, y, _) := align a b in
  if (y =? 0)%Z then mk 0 0 else mk (x * pow10 6 / y) 6.
Definition leb (a b : t) : bool :=
  let '(x, y, _) := align a b in (x <=? y)%Z.
Definition max (a b : t) : t := if leb a b then b else a.
Definition min (a b : t) : t := if leb a b then a else b.
Definition is_zero (a : t) : bool := (num a =? 0)%Z.
Definition trunc (a : t) : Z := Z.quot (num a) (pow10 (scale a)).
(** Rounding to two decimal places, halves away from zero. *)
Definition round2 (a : t) : t :=
  if (scale a <=? 2)%nat then a
  else
    let p := pow10 (scale a - 2) in
    mk (Z.sgn (num a) * ((2 * Z.abs (num a) + p) / (2 * p))) 2.

Definition digit_of (c : ascii) : option Z :=
  let n := nat_of_ascii c in
  if ((48 <=? n) && (n <=? 57))%nat then Some (Z.of_nat (n - 48)) else None.

(** A run of digits read from [acc]: the value and the number of
    digits read, with what follows. *)
Fixpoint read_digits (s : string) (acc : Z) (n : nat) : Z * nat * string :=
  match s with
  | EmptyString => (acc, n, s)
  | String c s' =>
      match digit_of c with
      | Some d => read_digits s' (10 * acc + d) (S n)
      | None => (acc, n, s)
      end
  end.

Definition read_sign (s : string) : Z * string :=
  match s with
  | String "-" s' => ((-1)%Z, s')
  | String "+" s' => (1%Z, s')
  | _ => (1%Z, s)
  end.

Definition of_string (s : string) : option t :=
  let (sg, s1) := read_sign (PyStr.strip s) in
  let '(ip, ni, s2) := read_digits s1 0 0 in
  match s2 with
  | EmptyString => if (ni =? 0)%nat then None else Some (mk (sg * ip) 0)
  | String "." s3 =>
      let '(v, nf, s4) := read_digits s3 ip 0 in
      match s4 with
      | EmptyString =>
          if (ni + nf =? 0)%nat then None else Some (mk (sg * v) nf)
      | _ => None
      end
  | _ => None
  end.

Definition int_of_string (s : string) : option Z :=
  let (sg, s1) := read_sign (PyStr.strip s) in
  let '(ip, ni, s2) := read_digits s1 0 0 in
  match s2 with
  | EmptyString => if (ni =? 0)%nat then None else Some (sg * ip)%Z
  | _ => None
  end.

(** The generator: a seed, stepped by a linear congruence. *)
Definition next (seed : Z) : Z := ((seed * 1103515245 + 12345) mod 2147483648)%Z.

Definition uniform (a b : t) (seed : Z) : t * Z :=
  (add a (mul (sub b a) (mk (seed mod 1000) 3)), next seed).

Definition randint (a b : Z) (seed : Z) : Z * Z :=
  ((a + seed mod (b - a + 1))%Z, next seed).

End Decimal.

Definition DecimalRuntime : Runtime := {|
  float := Decimal.t;
  float_lit := Decimal.mk;
  float_of_str := Decimal.of_string;
  int_of_str := Decimal.int_of_string;
  float_classify := fun _ => Finite;
  float_trunc := Decimal.trunc;
  float_is_zero := Decimal.is_zero;
  fadd := Decimal.add;
  fsub := Decimal.sub;
  fmul := Decimal.mul;
  fdiv := Decimal.div;
  fmax := Decimal.max;
  fmin := Decimal.min;
  round2 := Decimal.round2;
  rng := Z;
  uniform := Decimal.uniform;
  randint := Decimal.randint;
  float_of_str_zero := eq_refl
|}.


(* ================================================================= *)
(** ** Vocabulary of the statements *)

Module PyStrSpec.
Import PyStr.

Definition starts_with_space (s : string) : bool :=
  match s with
  | EmptyString => false
  | String c _ => is_space c
  end.

Fixpoint ends_with_space (s : string) : bool :=
  match s with
  | EmptyString => false
  | String c EmptyString => is_space c
  | String _ s' => ends_with_space s'
  end.

(** [tokens] are the pieces of [s] between its commas. *)
Definition comma_tokens (s : string) (tokens : list string) : Prop :=
  tokens <> []
  /\ join "," tokens = s
  /\ Forall (fun t => count_char "," t = 0) tokens.

(** [core] is [t] without the white space at its two ends. *)
Definition trimmed (t core : string) : Prop :=
  exists l r,
    t = (l ++ core ++ r)%string
    /\ all_chars is_space l = true
    /\ all_chars is_space r = true
    /\ starts_with_space core = false
    /\ ends_with_space core = false.

End PyStrSpec.

Section Vocabulary.
Context {RT : Runtime}.

(** The answer the network gives to the next request if it is [r]. *)
Definition next_response (w : World) (r : Request) : Response :=
  network w (sent w) r.

Definition quote_request (symbol api_key : string) : Request :=
  mkRequest GLOBAL_QUOTE symbol None api_key.

Definition history_request (symbol api_key output_size : string) : Request :=
  mkRequest TIME_SERIES_DAILY symbol (Some output_size) api_key.

(** What a computation printed between two worlds. *)
Definition printed (w w' : World) (msgs : list Message) : Prop :=
  stdout w' = stdout w ++ msgs.

Definition is_str (x : json) : bool :=
  match x with JStr _ => true | _ => false end.

(** Every value of the object is a string. *)
Definition string_valued (d : list (string * json)) : bool :=
  forallb (fun kv => is_str (snd kv)) d.

(** A body shaped as the provider documents it: an object whose
    quote, if there is one, is an object of strings. *)
Definition quote_shaped (data : json) : bool :=
  match data with
  | JObj d =>
      match Dict.get "Global Quote" d with
      | None => true
      | Some (JObj q) => string_valued q
      | Some _ => false
      end
  | _ => false
  end.

(** The change in percent of an object: the ["%"] are removed, then
    [float] reads what is left. *)
Definition percent_field (q : list (string * json)) : result float :=
  match Dict.get "10. change percent" q with
  | Some v => rbind (py_replace v "%") py_float
  | None => Ok (float_lit 0 0)
  end.

(** Keys in ascending order, equal keys allowed. *)
Definition key_le (a b : string * json) : Prop :=
  fst a = fst b \/ PyStr.lt (fst a) (fst b).

(** What one turn of the loop of [main] fetches for [symbol]: the
    record it stores, or nothing when the quote is absent. *)
Definition fetch_record (api_key symbol : string) : M (option StockRecord) :=
  print (MsgFetching symbol) ;;;
  quote <- fetch_quote symbol api_key ;;
  match quote with
  | Some q =>
      history <- fetch_daily_history symbol api_key "compact" ;;
      print (MsgFetched symbol (q_price q) (q_change q)) ;;;
      ret (Some (mkRecord q history))
  | None =>
      print (MsgSkipping symbol) ;;;
      ret None
  end.

(** The outcomes of the turns of a loop, symbol by symbol. *)
Definition Outcomes : Type := list (string * option StockRecord).

Fixpoint live_outcomes (api_key : string) (symbols : list string) : M Outcomes :=
  match symbols with
  | [] => ret []
  | symbol :: rest =>
      r <- fetch_record api_key symbol ;;
      outs <- live_outcomes api_key rest ;;
      ret ((symbol, r) :: outs)
  end.

Fixpoint demo_outcomes (symbols : list string) : M Outcomes :=
  match symbols with
  | [] => ret []
  | symbol :: rest =>
      r <- demo_record symbol ;;
      outs <- demo_outcomes rest ;;
      ret ((symbol, Some r) :: outs)
  end.

(** The outcomes of the branch of [main] for [api_key]. *)
Definition outcomes (api_key : string) (symbols : list string) : M Outcomes :=
  if String.eqb api_key "demo"
  then print MsgGeneratingDemo ;;; demo_outcomes symbols
  else live_outcomes api_key symbols.

(** The mapping after the outcomes [outs] are stored in turn. *)
Definition store (outs : Outcomes) (stocks : Stocks) : Stocks :=
  fold_left (fun d so => match snd so with
                         | Some r => Dict.set (fst so) r d
                         | None => d
                         end) outs stocks.

(** The record of the last turn of [symbol] that has one, [acc] if
    there is none. *)
Definition last_from (symbol : string) (outs : Outcomes)
  (acc : option StockRecord) : option StockRecord :=
  fold_left (fun acc so => if String.eqb symbol (fst so)
                           then match snd so with Some r => Some r | None => acc end
                           else acc) outs acc.

Definition last_record (symbol : string) (outs : Outcomes) : option StockRecord :=
  last_from symbol outs None.

(** The end of [main], from the test of the mapping on. *)
Definition finish (stocks : Stocks) : M Z :=
  if Dict.is_empty stocks then
    print MsgNoDataFetched ;;;
    raise (SystemExit 1)
  else
    t <- now ;;
    let output := mkSnapshot (utc_isoformat t ++ "Z") (Dict.keys stocks) stocks in
    write_output output ;;;
    print (MsgSaved (List.length stocks) (lastUpdated output)) ;;;
    ret 0%Z.

(** The document [main] writes for the mapping [stocks] in the world
    [w]. *)
Definition snapshot_of (stocks : Stocks) (w : World) : Snapshot :=
  mkSnapshot (utc_isoformat (clock w (ticks w)) ++ "Z") (Dict.keys stocks) stocks.

(** The start of [main], up to the branch on the key: the key and
    the symbols it resolves. *)
Definition configure : M (string * list string) :=
  print MsgBanner ;;;
  api_key <- get_api_key ;;
  symbols <- get_symbols ;;
  print (MsgSymbols symbols) ;;;
  print (MsgApiKey (negb (String.eqb api_key "demo"))) ;;;
  mkdir_data_dir ;;;
  ret (api_key, symbols).

(** A computation that leaves the files as they are. *)
Definition keeps_files {A} (m : M A) : Prop :=
  forall w, files (snd (m w)) = files w.

(** A date of the calendar whose year has four digits at most. *)
Definition printable (d : Date.t) : Prop :=
  Date.wf d /\ (1 <= Date.year d <= 9999)%Z.

(** A date of the calendar from the year 1000 on: its year has four
    digits. *)
Definition four_digits (d : Date.t) : Prop :=
  Date.wf d /\ (1000 <= Date.year d <= 9999)%Z.

(** Monday to Friday. *)
Definition is_weekday (d : Date.t) : bool := negb (5 <=? Date.weekday d)%Z.

(** The dates that [generate_demo_history] computes at the turns
    [idx] of its loop, the clock being read twice a turn from its
    reading number [tick] on: the date of a turn is taken from the
    second reading. *)
Fixpoint entry_dates (clk : nat -> Instant) (days : Z) (idx : list Z)
  (tick : nat) : list Date.t :=
  match idx with
  | [] => []
  | i :: rest =>
      Date.sub_days (local_date (clk (S tick))) (Z.to_nat (days - i))
      :: entry_dates clk days rest (S (S tick))
  end.

(** The [days] calendar days before [today], oldest first. *)
Definition days_before (today : Date.t) (days : Z) : list Date.t :=
  map (fun i => Date.sub_days today (Z.to_nat (days - i))) (range days).

(** The exceptions of the conversions of a JSON value. *)
Definition coercion_error (e : exn) : Prop :=
  e = ValueError \/ e = TypeError \/ e = OverflowError \/ e = AttributeError.

(** A field that is present converts: to a float, to an int, and
    for the change in percent to a float once the ["%"] is removed. *)
Definition converts_float (v : option json) : bool :=
  match v with
  | None => true
  | Some x => match py_float x with Ok _ => true | Raise _ => false end
  end.

Definition converts_int (v : option json) : bool :=
  match v with
  | None => true
  | Some x => match py_int x with Ok _ => true | Raise _ => false end
  end.

Definition converts_percent (v : option json) : bool :=
  match v with
  | None => true
  | Some x => match rbind (py_replace x "%") py_float with
              | Ok _ => true
              | Raise _ => false
              end
  end.

Definition present_fields_convert (q : list (string * json)) : bool :=
  converts_float (Dict.get "05. price" q)
  && converts_float (Dict.get "09. change" q)
  && converts_percent (Dict.get "10. change percent" q)
  && converts_float (Dict.get "02. open" q)
  && converts_float (Dict.get "03. high" q)
  && converts_float (Dict.get "04. low" q)
  && converts_int (Dict.get "06. volume" q)
  && converts_float (Dict.get "08. previous close" q).

End Vocabulary.

(* ================================================================= *)
(** ** Worlds to run the program in *)

Module Examples.
#[local] Existing Instance DecimalRuntime.

Definition environ_of (l : list (string * string)) : string -> option string :=
  fun name => Dict.get name l.

(** Wednesday the third of January 2024. *)
Definition a_wednesday : Instant :=
  mkInstant (Date.mk 2024 1 3) "2024-01-03T12:00:00".

(** Thursday the fourth of January 2024. *)
Definition a_thursday : Instant :=
  mkInstant (Date.mk 2024 1 4) "2024-01-04T12:00:00".

(** A world with the variables [vars] whose network answers by [net];
    the clock stands still and nothing was written yet. *)
Definition world_of (vars : list (string * string))
  (net : nat -> Request -> Response) : World :=
  mkWorld (environ_of vars) (fun _ => a_wednesday) 0 net 0 42%Z []
          (mkFS false None).

(** A world whose clock is set back by a day after its first two
    readings. *)
Definition set_back_world : World :=
  mkWorld (environ_of [])
          (fun n => if (n <=? 1)%nat then a_thursday else a_wednesday)
          0 (fun _ _ => Failed) 0 42%Z [] (mkFS false None).

(** The network that always answers with the body [data]. *)
Definition always (data : json) : nat -> Request -> Response :=
  fun _ _ => Body data.

Definition unreachable : nat -> Request -> Response := fun _ _ => Failed.

Definition error_body : json :=
  JObj [("Error Message", JStr "Invalid API call.")].

Definition note_body : json :=
  JObj [("Note", JStr "Thank you for using Alpha Vantage!")].

Definition empty_quote_body : json := JObj [("Global Quote", JObj [])].

Definition bad_price_body : json :=
  JObj [("Global Quote", JObj [("05. price", JStr "n/a")])].

Definition null_price_body : json :=
  JObj [("Global Quote", JObj [("05. price", JNull)])].

(** The body of the quote parse example. *)
Definition quote_body : json :=
  JObj [("Global Quote",
         JObj [("01. symbol", JStr "IBM"); ("05. price", JStr "123.45");
               ("09. change", JStr "-1.20");
               ("10. change percent", JStr "-0.95%")])].

(** The symbols stra{223}e and {233}, the sharp s and the e with
    acute accent written by their code points. *)
Definition accented_symbols : string :=
  " stra" ++ String "223" ("e, " ++ String "233" " ").

(** The value of a result, [dflt] for an exception. *)
Definition unwrap {A} (dflt : A) (r : result A) : A :=
  match r with
  | Ok a => a
  | Raise _ => dflt
  end.

Definition is_ok {A} (r : result A) : bool :=
  match r with
  | Ok _ => true
  | Raise _ => false
  end.

(** The content of an option, [dflt] for [None]. *)
Definition the {A} (dflt : A) (o : option A) : A :=
  match o with
  | Some a => a
  | None => dflt
  end.

Definition is_some {A} (o : option A) : bool :=
  match o with
  | Some _ => true
  | None => false
  end.

Definition no_snapshot : Snapshot := mkSnapshot "" [] [].

(** A provider that answers the first quote request, then the
    history request, and from then on reports its rate limit. *)
Definition rate_limited : nat -> Request -> Response :=
  fun n _ =>
    match n with
    | 0 => Body (JObj [("Global Quote",
                        JObj [("01. symbol", JStr "A");
                              ("05. price", JStr "10.00")])])
    | 1 => Body (JObj [("Time Series (Daily)", JObj [])])
    | _ => Body note_body
    end.

(** Live mode, the symbol A configured twice. *)
Definition twice_world : World :=
  world_of [("ALPHA_VANTAGE_API_KEY", "KEY"); ("SYMBOLS", "A,A")] rate_limited.

(** Live mode with no network. *)
Definition offline_world : World :=
  world_of [("ALPHA_VANTAGE_API_KEY", "KEY"); ("SYMBOLS", "A,B")] unreachable.

(** Demo mode, the symbol A configured twice. *)
Definition demo_world : World := world_of [("SYMBOLS", "A,b,A")] unreachable.

(** The body of the history ordering example. *)
Definition history_body : json :=
  JObj [("Time Series (Daily)",
         JObj [("2024-01-03", JObj [("4. close", JStr "187.15")]);
               ("2024-01-01", JObj [("4. close", JStr "185.50")]);
               ("2024-01-02", JObj [("4. close", JStr "186.20")])])].

End Examples.

(* ================================================================= *)
(** ** Vocabulary of the further properties *)

Section MoreVocabulary.
Context {RT : Runtime}.

(** A computation that leaves the part [part] of the world as it
    is, whatever it returns or raises. *)
Definition keeps {A B} (part : World -> B) (m : M A) : Prop :=
  forall w, part (snd (m w)) = part w.

(** A computation that neither reads nor writes the files: run with
    other files, it does the same and leaves those files in place. *)
Definition files_blind {A} (m : M A) : Prop :=
  forall w fs, m (set_files fs w) = (fst (m w), set_files fs (snd (m w))).

(** The exceptions that [fetch_quote] and [fetch_daily_history] let
    through. *)
Definition uncaught (e : exn) : Prop :=
  e = TypeError \/ e = AttributeError \/ e = OverflowError.

(** A computation that raises exceptions of the kind [P] only. *)
Definition raises_only {A} (P : exn -> Prop) (m : M A) : Prop :=
  forall w e, fst (m w) = Raise e -> P e.

(** The turn has a record. *)
Definition has_record (so : string * option StockRecord) : bool :=
  match snd so with
  | Some _ => true
  | None => false
  end.

(** The elements of [l] in the order of their first occurrence. *)
Fixpoint first_occurrences (l : list string) : list string :=
  match l with
  | [] => []
  | s :: rest =>
      s :: filter (fun s' => negb (String.eqb s' s)) (first_occurrences rest)
  end.

(** The key resolves to the demo sentinel: the variable is absent,
    empty, or holds the sentinel itself. *)
Definition demo_key (w : World) : Prop :=
  environ w "ALPHA_VANTAGE_API_KEY" = None
  \/ environ w "ALPHA_VANTAGE_API_KEY" = Some ""
  \/ environ w "ALPHA_VANTAGE_API_KEY" = Some "demo".

(** A record of demo mode for [symbol] on the day [today]. *)
Definition demo_shaped (today : Date.t) (symbol : string) (r : StockRecord)
  : Prop :=
  q_symbol (quote r) = JStr symbol
  /\ q_latestTradingDay (quote r) = JStr (Date.strftime today)
  /\ map h_date (history r)
     = map Date.strftime (filter is_weekday (days_before today 100)).

(** No lower-case letter of the alphabet. *)
Definition no_lower_case (s : string) : Prop := PyStr.upper s = s.

(** A symbol in normal form: no comma, no white space at its ends, no
    lower-case letter. *)
Definition normalized (s : string) : Prop :=
  PyStr.count_char "," s = 0
  /\ PyStrSpec.starts_with_space s = false
  /\ PyStrSpec.ends_with_space s = false
  /\ no_lower_case s.

(** A computation that only adds to what is printed. *)
Definition appends {A} (m : M A) : Prop :=
  forall w, exists msgs, printed w (snd (m w)) msgs.

(** The warning of [get_api_key], printed when the variable of the
    key is absent or empty. *)
Definition key_warning (w : World) : list Message :=
  match environ w "ALPHA_VANTAGE_API_KEY" with
  | Some (String _ _) => []
  | Some EmptyString | None => [MsgNoApiKey]
  end.

End MoreVocabulary.

(** *** Further worlds *)

Module Scenarios.
Import Examples.
#[local] Existing Instance DecimalRuntime.

(** A provider that answers the first request with a quote and
    fails from then on. *)
Definition history_down : nat -> Request -> Response :=
  fun n _ =>
    match n with
    | 0 => Body quote_body
    | _ => Failed
    end.

(** Live mode, one symbol, the history out of reach. *)
Definition history_down_world : World :=
  world_of [("ALPHA_VANTAGE_API_KEY", "KEY"); ("SYMBOLS", "IBM")] history_down.

(** Live mode, a provider whose quote has [null] for its price. *)
Definition null_price_world : World :=
  world_of [("ALPHA_VANTAGE_API_KEY", "KEY"); ("SYMBOLS", "A")]
           (always null_price_body).

(** A history whose only bar has a close that is no number. *)
Definition bad_close_body : json :=
  JObj [("Time Series (Daily)",
         JObj [("2024-01-02", JObj [("4. close", JStr "n/a")])])].

(** A history whose only bar is no object. *)
Definition bar_not_object_body : json :=
  JObj [("Time Series (Daily)", JObj [("2024-01-02", JStr "186.20")])].

(** A world whose clock stands on the fifth day of the calendar. *)
Definition early_world : World :=
  mkWorld (environ_of []) (fun _ => mkInstant (Date.mk 1 1 5) "0001-01-05T12:00:00")
          0 unreachable 0 42%Z [] (mkFS false None).

Definition no_quote : Quote :=
  mkQuote JNull (float_lit 0 0) (float_lit 0 0) (float_lit 0 0)
          (float_lit 0 0) (float_lit 0 0) (float_lit 0 0) 0%Z (float_lit 0 0)
          JNull.

Definition no_point : HistoryPoint :=
  mkPoint "" (float_lit 0 0) (float_lit 0 0) (float_lit 0 0) (float_lit 0 0) 0%Z.

Definition is_failed (r : Response) : bool :=
  match r with
  | Failed => true
  | Body _ => false
  end.

Definition is_type_error {A} (r : result A) : bool :=
  match r with
  | Raise TypeError => true
  | _ => false
  end.

End Scenarios.
(* ================================================================= *)
(** * Properties *)

(** ** Strings *)

Module PyStrFacts.
Import PyStr PyStrSpec.

Lemma append_nil_r (s : string) : (s ++ "")%string = s.
Proof. induction s; simpl; congruence. Qed.

Lemma append_assoc (a b c : string) : ((a ++ b) ++ c = a ++ (b ++ c))%string.
Proof. induction a; simpl; congruence. Qed.

Lemma split_not_nil (sep : ascii) (s : string) : split sep s <> [].
Proof.
  destruct s as [|c s]; simpl; [discriminate|].
  destruct (Ascii.eqb c sep); [discriminate|].
  destruct (split sep s); discriminate.
Qed.

Lemma join_cons (sep t : string) (ts : list string) :
  ts <> [] -> join sep (t :: ts) = (t ++ sep ++ join sep ts)%string.
Proof. destruct ts; [congruence|reflexivity]. Qed.

Lemma join_split (sep : ascii) (s : string) :
  join (String sep "") (split sep s) = s.
Proof.
  induction s as [|c s IH]; simpl; [reflexivity|].
  destruct (Ascii.eqb_spec c sep) as [->|Hne].
  - rewrite join_cons by apply split_not_nil. simpl. now rewrite IH.
  - pose proof (split_not_nil sep s) as Hnil.
    destruct (split sep s) as [|t ts]; [congruence|].
    destruct ts as [|t' ts].
    + simpl in *. now rewrite IH.
    + rewrite join_cons by discriminate.
      rewrite join_cons in IH by discriminate.
      simpl. now rewrite <- IH.
Qed.

Lemma split_no_sep (sep : ascii) (s : string) :
  Forall (fun t => count_char sep t = 0) (split sep s).
Proof.
  induction s as [|c s IH]; simpl.
  - constructor; [reflexivity|constructor].
  - destruct (Ascii.eqb c sep) eqn:E.
    + constructor; [reflexivity|assumption].
    + destruct (split sep s) as [|t ts]; inversion IH; subst.
      * constructor; [simpl; now rewrite E|constructor].
      * constructor; [simpl; rewrite E; assumption|assumption].
Qed.

Lemma split_length (sep : ascii) (s : string) :
  List.length (split sep s) = S (count_char sep s).
Proof.
  induction s as [|c s IH]; simpl; [reflexivity|].
  destruct (Ascii.eqb c sep); simpl.
  - now rewrite IH.
  - pose proof (split_not_nil sep s) as Hnil.
    destruct (split sep s); [congruence|]. simpl in *. assumption.
Qed.

(** A string without the separator is its own single piece. *)
Lemma split_no_occurrence (sep : ascii) (s : string) :
  count_char sep s = 0 -> split sep s = [s].
Proof.
  induction s as [|c s IH]; simpl; [reflexivity|].
  destruct (Ascii.eqb c sep); [discriminate|].
  intros H. now rewrite IH.
Qed.

Lemma split_app_sep (sep : ascii) (t rest : string) :
  count_char sep t = 0 ->
  split sep (t ++ String sep rest)%string = t :: split sep rest.
Proof.
  induction t as [|c t IH]; simpl; intros H.
  - now rewrite Ascii.eqb_refl.
  - destruct (Ascii.eqb c sep); [discriminate|].
    now rewrite IH.
Qed.

(** The pieces between the commas are the ones [split] returns. *)
Lemma comma_tokens_unique (s : string) (tokens : list string) :
  comma_tokens s tokens -> tokens = split "," s.
Proof.
  intros (Hne & Hjoin & Hall). subst s.
  induction tokens as [|t ts IH]; [congruence|].
  inversion Hall as [|? ? Ht Hts]; subst.
  destruct ts as [|t' ts].
  - simpl. symmetry. now apply split_no_occurrence.
  - rewrite join_cons by discriminate. simpl.
    rewrite split_app_sep by assumption.
    f_equal. apply IH; [discriminate|assumption].
Qed.

Lemma comma_tokens_split (s : string) : comma_tokens s (split "," s).
Proof.
  split; [apply split_not_nil|]. split; [apply join_split|apply split_no_sep].
Qed.

Lemma lstrip_spec (s : string) :
  exists l, s = (l ++ lstrip s)%string
            /\ all_chars is_space l = true
            /\ starts_with_space (lstrip s) = false.
Proof.
  induction s as [|c s (l & Hs & Hl & Hst)]; simpl.
  - exists "". now repeat split.
  - destruct (is_space c) eqn:E.
    + exists (String c l). simpl. rewrite E, Hl. repeat split; try assumption.
      now rewrite <- Hs.
    + exists "". simpl. now repeat split.
Qed.

Lemma all_space_last (s : string) :
  s <> "" -> all_chars is_space s = true -> ends_with_space s = true.
Proof.
  induction s as [|c s IH]; [congruence|].
  intros _ H. simpl in H. apply andb_prop in H as [Hc Hs].
  destruct s as [|c' s']; [exact Hc|].
  change (ends_with_space (String c' s') = true).
  apply IH; [discriminate|assumption].
Qed.

Lemma all_space_app (a b : string) :
  all_chars is_space (a ++ b)%string
  = all_chars is_space a && all_chars is_space b.
Proof.
  induction a as [|c a IH]; simpl; [reflexivity|].
  now rewrite IH, andb_assoc.
Qed.

Lemma rstrip_spec (s : string) :
  exists r, s = (rstrip s ++ r)%string
            /\ all_chars is_space r = true
            /\ ends_with_space (rstrip s) = false
            /\ (starts_with_space s = false ->
                starts_with_space (rstrip s) = false).
Proof.
  induction s as [|c s (r & Hs & Hr & Hend & Hst)].
  - exists "". now repeat split.
  - simpl rstrip. destruct (rstrip s) as [|c' t] eqn:E.
    + destruct (is_space c) eqn:Ec.
      * exists (String c r). simpl in Hs. subst s.
        repeat split. simpl. now rewrite Ec.
      * exists r. simpl in Hs. subst s.
        repeat split; simpl; auto.
    + exists r. repeat split; try assumption.
      * simpl. simpl in Hs. now rewrite <- Hs.
      * simpl. intros H. exact H.
Qed.

Lemma strip_trimmed (t : string) : trimmed t (strip t).
Proof.
  unfold strip.
  destruct (lstrip_spec t) as (l & Ht & Hl & Hst).
  destruct (rstrip_spec (lstrip t)) as (r & Hr & Hrs & Hend & Hst').
  exists l, r. repeat split; try assumption.
  - now rewrite <- Hr.
  - now apply Hst'.
Qed.

Lemma all_space_no_comma (s : string) :
  all_chars is_space s = true -> count_char "," s = 0.
Proof.
  induction s as [|c s IH]; simpl; [reflexivity|].
  intros H. apply andb_prop in H as [Hc Hs].
  destruct (Ascii.eqb_spec c ","); [subst; discriminate|]. now apply IH.
Qed.

Lemma lstrip_all_space (s : string) :
  all_chars is_space s = true -> lstrip s = "".
Proof.
  induction s as [|c s IH]; simpl; [reflexivity|].
  intros H. apply andb_prop in H as [-> Hs]. now apply IH.
Qed.

Lemma strip_all_space (s : string) :
all_chars is_space s = true -> strip s = "".
Proof. intros H. unfold strip. now rewrite lstrip_all_space. Qed.

End PyStrFacts.

(* ================================================================= *)
(** ** Configuration *)

Section Configuration.
Context {RT : Runtime}.
Import PyStr PyStrSpec PyStrFacts.

Lemma get_symbols_eq (w : World) :
  get_symbols w
  = (Ok (map (fun t => upper (strip t))
             (split "," match environ w "SYMBOLS" with
                        | Some s => s
                        | None => "AAPL,MSFT,GOOGL,AMZN,TSLA,NVDA"
                        end)), w).
Proof. reflexivity. Qed.

(** C7.  The symbols of a configured string are the pieces between
    its commas, each one trimmed of white space and upper-cased, in
    the order of the string and with its repetitions; the string
    [" aapl, Msft ,googl"] gives AAPL, MSFT, GOOGL, and an empty or
    blank string gives the single symbol [""].  The string is one
    whose characters have their capitals among the code points below
    256, the range in which [upper] is the [str.upper] of Python. *)
Theorem get_symbols_normalizes (w : World) (s : string)
  (Hconf : environ w "SYMBOLS" = Some s)
  (Hchars : all_chars upper_closed s = true) :
  (exists tokens result,
      comma_tokens s tokens
      /\ (forall tokens', comma_tokens s tokens' -> tokens' = tokens)
      /\ get_symbols w = (Ok result, w)
      /\ Forall2 (fun t r => exists core, trimmed t core /\ r = upper core)
                 tokens result)
  /\ (s = " aapl, Msft ,googl" ->
      get_symbols w = (Ok ["AAPL"; "MSFT"; "GOOGL"], w))
  /\ (all_chars is_space s = true -> get_symbols w = (Ok [""], w)).
Proof.
  rewrite get_symbols_eq, Hconf. repeat split.
  - exists (split "," s), (map (fun t => upper (strip t)) (split "," s)).
    split; [apply comma_tokens_split|].
    split.
    { intros tokens' H. rewrite (comma_tokens_unique H). reflexivity. }
    split; [reflexivity|].
    induction (split "," s) as [|t ts IH]; simpl; constructor; [|exact IH].
    exists (strip t). split; [apply strip_trimmed|reflexivity].
  - intros ->. reflexivity.
  - intros Hs.
    rewrite (split_no_occurrence _ _ (all_space_no_comma _ Hs)). simpl.
    now rewrite (strip_all_space _ Hs).
Qed.

(** C8.  Without the two variables in the environment the symbols
    are the six default ones and the key is ["demo"]; the key is
    ["demo"] as well when its variable is empty; and both functions
    return a value in every world. *)
Theorem config_defaults (w : World) :
  (environ w "SYMBOLS" = None ->
   get_symbols w
   = (Ok ["AAPL"; "MSFT"; "GOOGL"; "AMZN"; "TSLA"; "NVDA"], w))
  /\ (environ w "ALPHA_VANTAGE_API_KEY" = None
      \/ environ w "ALPHA_VANTAGE_API_KEY" = Some "" ->
      fst (get_api_key w) = Ok "demo"
      /\ stdout (snd (get_api_key w)) = stdout w ++ [MsgNoApiKey])
  /\ (exists l, fst (get_symbols w) = Ok l /\ l <> [])
  /\ (exists k, fst (get_api_key w) = Ok k /\ k <> "").
Proof.
  repeat split.
  - intros H. rewrite get_symbols_eq, H. reflexivity.
  - unfold get_api_key, bind, environ_get. destruct H as [-> | ->]; reflexivity.
  - unfold get_api_key, bind, environ_get. destruct H as [-> | ->]; reflexivity.
  - rewrite get_symbols_eq. eexists. split; [reflexivity|].
    intros H. apply map_eq_nil in H. now apply split_not_nil in H.
  - unfold get_api_key, bind, environ_get.
    destruct (environ w "ALPHA_VANTAGE_API_KEY") as [[|c k]|]; simpl;
      eexists; (split; [reflexivity|discriminate]).
Qed.

End Configuration.

(* ================================================================= *)
(** ** Quote fetch *)

Section QuoteFetch.
Context {RT : Runtime}.

Lemma mem_of_get V (k : string) (d : Dict.t V) (v : V) :
  Dict.get k d = Some v -> Dict.mem k d = true.
Proof. unfold Dict.mem. now intros ->. Qed.

Lemma mem_of_get_none V (k : string) (d : Dict.t V) :
  Dict.get k d = None -> Dict.mem k d = false.
Proof. unfold Dict.mem. now intros ->. Qed.

(** What [fetch_quote] does once the body of the answer is an
    object without error and without note. *)
Lemma fetch_quote_on_quote (symbol api_key : string) (w : World)
  (d : list (string * json)) :
  next_response w (quote_request symbol api_key) = Body (JObj d) ->
  Dict.get "Error Message" d = None ->
  Dict.get "Note" d = None ->
  let quote := match Dict.get "Global Quote" d with
               | Some q => q
               | None => JObj []
               end in
  let w1 := set_sent (S (sent w)) w in
  fetch_quote_body symbol api_key w
  = if negb (py_truthy quote)
    then (print (MsgNoData symbol) ;;; ret None) w1
    else (q <- lift (build_quote symbol quote) ;; ret (Some q)) w1.
Proof.
  intros Hr He Hn. unfold next_response, quote_request in Hr.
  unfold fetch_quote_body, bind at 1, http_get_json. rewrite Hr.
  unfold bind at 1. unfold lift at 1. simpl py_in.
  rewrite (mem_of_get_none _ _ He).
  unfold bind at 1. unfold lift at 1. simpl py_in.
  rewrite (mem_of_get_none _ _ Hn).
  unfold bind at 1. unfold lift at 1. simpl py_get.
  destruct (Dict.get "Global Quote" d) as [q|]; cbv zeta;
    match goal with |- context [negb ?b] => destruct b end; reflexivity.
Qed.


Lemma rbind_ok A B (r : result A) (k : A -> result B) (b : B) :
  rbind r k = Ok b -> exists a, r = Ok a /\ k a = Ok b.
Proof. destruct r as [a|e]; simpl; [eauto|discriminate]. Qed.

Lemma float_of_int_zero : float_of_int 0 = Ok (float_lit 0 0).
Proof. reflexivity. Qed.

Lemma float_field_obj (q : list (string * json)) (k : string) :
  float_field (JObj q) k
  = match Dict.get k q with
    | Some v => py_float v
    | None => Ok (float_lit 0 0)
    end.
Proof.
  unfold float_field. simpl. destruct (Dict.get k q); [reflexivity|].
  simpl. apply float_of_int_zero.
Qed.

Lemma int_field_obj (q : list (string * json)) (k : string) :
  int_field (JObj q) k
  = match Dict.get k q with
    | Some v => py_int v
    | None => Ok 0%Z
    end.
Proof. unfold int_field. simpl. now destruct (Dict.get k q). Qed.

Lemma build_quote_obj (symbol : string) (q : list (string * json)) :
  build_quote symbol (JObj q)
  = (f_price <~ float_field (JObj q) "05. price" ;;
     f_change <~ float_field (JObj q) "09. change" ;;
     f_changePercent <~ percent_field q ;;
     f_open <~ float_field (JObj q) "02. open" ;;
     f_high <~ float_field (JObj q) "03. high" ;;
     f_low <~ float_field (JObj q) "04. low" ;;
     f_volume <~ int_field (JObj q) "06. volume" ;;
     f_prevClose <~ float_field (JObj q) "08. previous close" ;;
     Ok (mkQuote
           match Dict.get "01. symbol" q with Some v => v | None => JStr symbol end
           f_price f_change f_changePercent f_open f_high f_low f_volume
           f_prevClose
           match Dict.get "07. latest trading day" q with
           | Some v => v
           | None => JStr ""
           end))%result.
Proof.
  unfold build_quote, percent_field. simpl py_get.
  destruct (Dict.get "01. symbol" q); cbn [rbind];
    (destruct (float_field (JObj q) "05. price"); cbn [rbind]; [|reflexivity]);
    (destruct (float_field (JObj q) "09. change"); cbn [rbind]; [|reflexivity]);
    (destruct (Dict.get "10. change percent" q) as [v|]; cbn [rbind];
     [destruct (py_replace v "%") as [v'|]; cbn [rbind]; [|reflexivity];
      destruct (py_float v'); cbn [rbind]; [|reflexivity]
     |simpl py_replace; cbn [rbind]; simpl py_float;
      rewrite float_of_str_zero; cbn [rbind]]);
    (destruct (float_field (JObj q) "02. open"); cbn [rbind]; [|reflexivity]);
    (destruct (float_field (JObj q) "03. high"); cbn [rbind]; [|reflexivity]);
    (destruct (float_field (JObj q) "04. low"); cbn [rbind]; [|reflexivity]);
    (destruct (int_field (JObj q) "06. volume"); cbn [rbind]; [|reflexivity]);
    (destruct (float_field (JObj q) "08. previous close"); cbn [rbind]; [|reflexivity]);
    destruct (Dict.get "07. latest trading day" q); reflexivity.
Qed.

End QuoteFetch.

Section QuoteFetchCases.
Context {RT : Runtime}.

Lemma fetch_quote_body_failed (symbol api_key : string) (w : World) :
  next_response w (quote_request symbol api_key) = Failed ->
  fetch_quote_body symbol api_key w
  = (Raise RequestException, set_sent (S (sent w)) w).
Proof.
  unfold next_response, quote_request. intros Hr.
  unfold fetch_quote_body, bind at 1, http_get_json. now rewrite Hr.
Qed.

Lemma fetch_quote_body_error (symbol api_key : string) (w : World)
  (d : list (string * json)) (v : json) :
  next_response w (quote_request symbol api_key) = Body (JObj d) ->
  Dict.get "Error Message" d = Some v ->
  fetch_quote_body symbol api_key w
  = (Ok None,
     set_stdout (stdout w ++ [MsgErrorFor symbol v]) (set_sent (S (sent w)) w)).
Proof.
  unfold next_response, quote_request. intros Hr He.
  unfold fetch_quote_body, bind at 1, http_get_json. rewrite Hr.
  unfold bind at 1. unfold lift at 1. simpl py_in.
  rewrite (mem_of_get _ _ He).
  unfold bind at 1. unfold lift at 1. simpl py_getitem. rewrite He.
  reflexivity.
Qed.

Lemma fetch_quote_body_note (symbol api_key : string) (w : World)
  (d : list (string * json)) :
  next_response w (quote_request symbol api_key) = Body (JObj d) ->
  Dict.get "Error Message" d = None ->
  Dict.mem "Note" d = true ->
  fetch_quote_body symbol api_key w
  = (Ok None,
     set_stdout (stdout w ++ [MsgRateLimit]) (set_sent (S (sent w)) w)).
Proof.
  unfold next_response, quote_request. intros Hr He Hn.
  unfold fetch_quote_body, bind at 1, http_get_json. rewrite Hr.
  unfold bind at 1. unfold lift at 1. simpl py_in.
  rewrite (mem_of_get_none _ _ He).
  unfold bind at 1. unfold lift at 1. simpl py_in. rewrite Hn.
  reflexivity.
Qed.

(** The value of [fetch_quote] from the one of its body. *)
Lemma fetch_quote_of_body (symbol api_key : string) (w w' : World)
  (r : result (option Quote)) :
  fetch_quote_body symbol api_key w = (r, w') ->
  fetch_quote symbol api_key w
  = match r with
    | Ok o => (Ok o, w')
    | Raise RequestException =>
        (Ok None, set_stdout (stdout w' ++ [MsgRequestFailed symbol]) w')
    | Raise ValueError =>
        (Ok None, set_stdout (stdout w' ++ [MsgParseError symbol ValueError]) w')
    | Raise KeyError =>
        (Ok None, set_stdout (stdout w' ++ [MsgParseError symbol KeyError]) w')
    | Raise e => (Raise e, w')
    end.
Proof.
  intros H. unfold fetch_quote, try_except. rewrite H.
  destruct r as [o|[]]; reflexivity.
Qed.

Lemma py_float_not_exit (x : json) (e : exn) :
  py_float x = Raise e -> e = ValueError \/ e = TypeError \/ e = OverflowError.
Proof.
  destruct x; simpl; try (intros [= <-]; tauto); try discriminate.
  - unfold float_of_int. destruct (_ <? _)%Z; [discriminate|intros [= <-]; tauto].
  - destruct (float_of_str s); [discriminate|intros [= <-]; tauto].
Qed.

Lemma py_int_not_exit (x : json) (e : exn) :
  py_int x = Raise e -> e = ValueError \/ e = TypeError \/ e = OverflowError.
Proof.
  destruct x; simpl; try (intros [= <-]; tauto); try discriminate.
  - destruct (float_classify f); [discriminate|intros [= <-]; tauto..].
  - destruct (int_of_str s); [discriminate|intros [= <-]; tauto].
Qed.

Lemma py_get_raises (x : json) (k : string) (dflt : json) (e : exn) :
  py_get x k dflt = Raise e -> e = AttributeError.
Proof.
  destruct x; simpl; try (now intros [= <-]).
  destruct (Dict.get k d); discriminate.
Qed.

Lemma float_field_raises (x : json) (k : string) (e : exn) :
  float_field x k = Raise e -> coercion_error e.
Proof.
  unfold float_field, coercion_error.
  destruct (py_get x k (JInt 0)) eqn:E; simpl.
  - intros H. apply py_float_not_exit in H. tauto.
  - intros [= <-]. apply py_get_raises in E. tauto.
Qed.

Lemma int_field_raises (x : json) (k : string) (e : exn) :
  int_field x k = Raise e -> coercion_error e.
Proof.
  unfold int_field, coercion_error.
  destruct (py_get x k (JInt 0)) eqn:E; simpl.
  - intros H. apply py_int_not_exit in H. tauto.
  - intros [= <-]. apply py_get_raises in E. tauto.
Qed.

Lemma py_replace_raises (x : json) (c : ascii) (e : exn) :
  py_replace x c = Raise e -> e = AttributeError.
Proof. destruct x; simpl; try (now intros [= <-]); discriminate. Qed.

Lemma build_quote_raises (symbol : string) (quote : json) (e : exn) :
  build_quote symbol quote = Raise e -> coercion_error e.
Proof.
  unfold build_quote.
  repeat match goal with
  | |- rbind ?r _ = Raise _ -> _ =>
      let E := fresh "E" in
      destruct r eqn:E; cbn [rbind];
      [|intros [= <-];
        first [ apply py_get_raises in E; unfold coercion_error; tauto
              | apply float_field_raises in E; exact E
              | apply int_field_raises in E; exact E
              | apply py_replace_raises in E; unfold coercion_error; tauto
              | apply py_float_not_exit in E; unfold coercion_error; tauto ]]
  end.
  discriminate.
Qed.


Lemma string_valued_get (q : list (string * json)) (k : string) (v : json) :
  string_valued q = true -> Dict.get k q = Some v -> is_str v = true.
Proof.
  induction q as [|[k' v'] q IH]; simpl; [discriminate|].
  intros H. apply andb_prop in H as [Hv Hq].
  destruct (String.eqb k k'); [now intros [= <-]|now apply IH].
Qed.

(** On an object of strings the construction of the quote fails with
    [ValueError] or not at all. *)
Lemma build_quote_string_valued (symbol : string) (q : list (string * json))
  (e : exn) :
  string_valued q = true ->
  build_quote symbol (JObj q) = Raise e -> e = ValueError.
Proof.
  intros Hq. rewrite build_quote_obj.
  assert (Hf : forall k e', float_field (JObj q) k = Raise e' -> e' = ValueError).
  { intros k e'. rewrite float_field_obj.
    destruct (Dict.get k q) as [v|] eqn:E; [|discriminate].
    apply (string_valued_get _ _ Hq) in E. destruct v; try discriminate.
    simpl. destruct (float_of_str s); [discriminate|now intros [= <-]]. }
  assert (Hi : forall k e', int_field (JObj q) k = Raise e' -> e' = ValueError).
  { intros k e'. rewrite int_field_obj.
    destruct (Dict.get k q) as [v|] eqn:E; [|discriminate].
    apply (string_valued_get _ _ Hq) in E. destruct v; try discriminate.
    simpl. destruct (int_of_str s); [discriminate|now intros [= <-]]. }
  assert (Hp : forall q' e', percent_field q' = Raise e' -> q' = q ->
                            e' = ValueError).
  { intros q' e' H ->. revert H. unfold percent_field.
    destruct (Dict.get "10. change percent" q) as [v|] eqn:E; [|discriminate].
    apply (string_valued_get _ _ Hq) in E. destruct v; try discriminate.
    simpl. destruct (float_of_str _); [discriminate|now intros [= <-]]. }
  repeat match goal with
  | |- rbind ?r _ = Raise _ -> _ =>
      let E := fresh "E" in
      destruct r eqn:E; cbn [rbind];
      [|intros [= <-]; first [ now apply Hf in E | now apply Hi in E
                             | now apply Hp in E ]]
  end.
  discriminate.
Qed.

(** X15.  [fetch_quote] returns the absent marker,
    each time with a message of its own, when the request fails, when
    the body has an error message, when it has a rate limit note, when
    its quote is missing or empty and when a conversion to a number
    fails with [ValueError]; it raises nothing on a body shaped as
    the provider documents it; and what it can raise at all is
    [TypeError], [AttributeError] or [OverflowError], from a body
    whose values have other types. *)
Theorem fetch_quote_absent_cases (symbol api_key : string) (w : World) :
  let r := fetch_quote symbol api_key w in
  let resp := next_response w (quote_request symbol api_key) in
  (resp = Failed ->
   fst r = Ok None /\ printed w (snd r) [MsgRequestFailed symbol])
  /\ (forall d v, resp = Body (JObj d) ->
        Dict.get "Error Message" d = Some v ->
        fst r = Ok None /\ printed w (snd r) [MsgErrorFor symbol v])
  /\ (forall d, resp = Body (JObj d) ->
        Dict.get "Error Message" d = None ->
        Dict.mem "Note" d = true ->
        fst r = Ok None /\ printed w (snd r) [MsgRateLimit])
  /\ (forall d, resp = Body (JObj d) ->
        Dict.get "Error Message" d = None ->
        Dict.get "Note" d = None ->
        Dict.get "Global Quote" d = None
        \/ Dict.get "Global Quote" d = Some (JObj []) ->
        fst r = Ok None /\ printed w (snd r) [MsgNoData symbol])
  /\ (forall d q, resp = Body (JObj d) ->
        Dict.get "Error Message" d = None ->
        Dict.get "Note" d = None ->
        Dict.get "Global Quote" d = Some q ->
        py_truthy q = true ->
        build_quote symbol q = Raise ValueError ->
        fst r = Ok None /\ printed w (snd r) [MsgParseError symbol ValueError])
  /\ (forall q s, Dict.get "05. price" q = Some (JStr s) ->
        float_of_str s = None ->
        build_quote symbol (JObj q) = Raise ValueError)
  /\ (forall data, resp = Body data -> quote_shaped data = true ->
        exists o, fst r = Ok o)
  /\ (forall e, fst r = Raise e ->
        e = TypeError \/ e = AttributeError \/ e = OverflowError).
Proof.
  cbv zeta. repeat apply conj.
  - intros Hr. apply fetch_quote_body_failed in Hr.
    rewrite (fetch_quote_of_body _ _ _ Hr). split; reflexivity.
  - intros d v Hr He. rewrite (fetch_quote_of_body _ _ _ (fetch_quote_body_error _ _ _ Hr He)).
    split; reflexivity.
  - intros d Hr He Hn. rewrite (fetch_quote_of_body _ _ _ (fetch_quote_body_note _ _ _ Hr He Hn)).
    split; reflexivity.
  - intros d Hr He Hn Hq. pose proof (fetch_quote_on_quote _ _ _ Hr He Hn) as Hb.
    cbv zeta in Hb.
    assert (Hf : py_truthy match Dict.get "Global Quote" d with
                           | Some q => q | None => JObj [] end = false)
      by (destruct Hq as [-> | ->]; reflexivity).
    rewrite Hf in Hb. rewrite (fetch_quote_of_body _ _ _ Hb). split; reflexivity.
  - intros d q Hr He Hn Hq Ht Hb. pose proof (fetch_quote_on_quote _ _ _ Hr He Hn) as Hbody.
    cbv zeta in Hbody. rewrite Hq, Ht in Hbody. simpl negb in Hbody. cbv iota in Hbody.
    unfold bind, lift in Hbody. rewrite Hb in Hbody.
    rewrite (fetch_quote_of_body _ _ _ Hbody). split; reflexivity.
  - intros q s Hp Hs. rewrite build_quote_obj, float_field_obj, Hp. simpl.
    now rewrite Hs.
  - intros data Hr Hshape. destruct data as [| | | | | |d]; try discriminate.
    simpl in Hshape.
    destruct (Dict.get "Error Message" d) as [v|] eqn:He.
    { rewrite (fetch_quote_of_body _ _ _ (fetch_quote_body_error _ _ _ Hr He)).
      simpl. eauto. }
    destruct (Dict.get "Note" d) as [v|] eqn:Hn.
    { rewrite (fetch_quote_of_body _ _ _ (fetch_quote_body_note _ _ _ Hr He (mem_of_get _ _ Hn))).
      simpl. eauto. }
    pose proof (fetch_quote_on_quote _ _ _ Hr He Hn) as Hb. cbv zeta in Hb.
    destruct (Dict.get "Global Quote" d) as [q|].
    + destruct q as [| | | | | |q]; try discriminate.
      destruct (negb (py_truthy (JObj q))).
      * rewrite (fetch_quote_of_body _ _ _ Hb). simpl. eauto.
      * unfold bind, lift in Hb.
        destruct (build_quote symbol (JObj q)) as [Q|e] eqn:EQ.
        -- rewrite (fetch_quote_of_body _ _ _ Hb). simpl. eauto.
        -- apply (build_quote_string_valued _ _ Hshape) in EQ. subst e.
           rewrite (fetch_quote_of_body _ _ _ Hb). simpl. eauto.
    + simpl in Hb. rewrite (fetch_quote_of_body _ _ _ Hb). simpl. eauto.
  - intros e.
    destruct (fetch_quote_body symbol api_key w) as [rb wb] eqn:Hb.
    rewrite (fetch_quote_of_body _ _ _ Hb).
    assert (Hraise : forall e', rb = Raise e' ->
                     e' = RequestException \/ e' = KeyError \/ coercion_error e').
    { intros e' ->. revert Hb. unfold fetch_quote_body, bind at 1, http_get_json.
      destruct (network w (sent w) _) as [|data]; [intros [= <- _]; tauto|].
      unfold bind at 1. unfold lift at 1.
      destruct (py_in "Error Message" data) as [[|]|e0] eqn:E1.
      - unfold bind at 1. unfold lift at 1.
        destruct (py_getitem data "Error Message") as [v|e1] eqn:E2;
          [discriminate|].
        intros [= <- _]. destruct data; simpl in E2; try (injection E2 as <-);
          unfold coercion_error; try tauto.
        destruct (Dict.get _ d); [discriminate|injection E2 as <-; tauto].
      - unfold bind at 1. unfold lift at 1.
        destruct (py_in "Note" data) as [[|]|e1] eqn:E2.
        + discriminate.
        + unfold bind at 1. unfold lift at 1.
          destruct (py_get data "Global Quote" (JObj [])) as [q|e2] eqn:E3.
          * destruct (negb (py_truthy q)); [discriminate|].
            unfold bind, lift. destruct (build_quote symbol q) eqn:E4; [discriminate|].
            intros [= <- _]. apply build_quote_raises in E4. tauto.
          * intros [= <- _]. apply py_get_raises in E3. unfold coercion_error. tauto.
        + intros [= <- _]. destruct data; simpl in E2; try discriminate;
            injection E2 as <-; unfold coercion_error; tauto.
      - intros [= <- _]. destruct data; simpl in E1; try discriminate;
          injection E1 as <-; unfold coercion_error; tauto. }
    destruct rb as [o|e']; [discriminate|].
    destruct (Hraise e' eq_refl) as [-> | [-> | Hc]]; [discriminate..|].
    unfold coercion_error in Hc.
    destruct Hc as [-> | [-> | [-> | ->]]]; simpl; intros [= <-]; tauto.
Qed.

(** C4.  The failing input: a body whose quote has [null] for its
    price.  The conversion of the price raises [TypeError], which no
    [except] clause of [fetch_quote] names: the exception reaches the
    caller, after the request was sent and with nothing printed, where
    a price that is a text but no number is caught as the parse error
    it is. *)
Theorem fetch_quote_null_price (symbol api_key : string) (w : World)
  (d q : list (string * json))
  (Hresp : next_response w (quote_request symbol api_key) = Body (JObj d))
  (Herr : Dict.get "Error Message" d = None)
  (Hnote : Dict.get "Note" d = None)
  (Hquote : Dict.get "Global Quote" d = Some (JObj q))
  (Hprice : Dict.get "05. price" q = Some JNull) :
  fst (fetch_quote symbol api_key w) = Raise TypeError
  /\ stdout (snd (fetch_quote symbol api_key w)) = stdout w
  /\ sent (snd (fetch_quote symbol api_key w)) = S (sent w).
Proof.
  pose proof (fetch_quote_on_quote _ _ _ Hresp Herr Hnote) as Hb.
  cbv zeta in Hb. rewrite Hquote in Hb.
  assert (Ht : py_truthy (JObj q) = true)
    by (destruct q; [discriminate|reflexivity]).
  rewrite Ht in Hb. cbn [negb] in Hb.
  assert (Hbq : build_quote symbol (JObj q) = Raise TypeError)
    by (rewrite build_quote_obj, float_field_obj, Hprice; reflexivity).
  unfold bind, lift in Hb. rewrite Hbq in Hb.
  rewrite (fetch_quote_of_body _ _ _ Hb). repeat split.
Qed.

End QuoteFetchCases.

Section QuoteFields.
Context {RT : Runtime}.

Lemma remove_char_trailing (c : ascii) (t : string) :
  PyStr.count_char c t = 0 ->
  PyStr.remove_char c (t ++ String c "")%string = t.
Proof.
  induction t as [|c' t IH]; simpl.
  - now rewrite Ascii.eqb_refl.
  - destruct (Ascii.eqb c' c); [discriminate|]. intros H. now rewrite IH.
Qed.

Lemma converts_float_ok (q : list (string * json)) (k : string) :
  converts_float (Dict.get k q) = true ->
  exists f, float_field (JObj q) k = Ok f.
Proof.
  rewrite float_field_obj. unfold converts_float.
  destruct (Dict.get k q) as [v|]; [|eauto].
  destruct (py_float v); [eauto|discriminate].
Qed.

Lemma converts_int_ok (q : list (string * json)) (k : string) :
  converts_int (Dict.get k q) = true ->
  exists z, int_field (JObj q) k = Ok z.
Proof.
  rewrite int_field_obj. unfold converts_int.
  destruct (Dict.get k q) as [v|]; [|eauto].
  destruct (py_int v); [eauto|discriminate].
Qed.

Lemma converts_percent_ok (q : list (string * json)) :
  converts_percent (Dict.get "10. change percent" q) = true ->
  exists f, percent_field q = Ok f.
Proof.
  unfold percent_field, converts_percent.
  destruct (Dict.get "10. change percent" q) as [v|]; [|eauto].
  destruct (rbind (py_replace v "%") py_float); [eauto|discriminate].
Qed.

(** C6.  From a quote object that is not empty, the quote built has
    its change in percent read by [float] after the ["%"] is removed
    (for a field ending in its only ["%"], from what stands before
    it); a price, open, high, low or previous close that is omitted is
    0.0 and an omitted volume is 0; the fields that are present being
    convertible, the quote is built, and a quote that is built is what
    [fetch_quote] returns. *)
Theorem quote_fields (symbol api_key : string) (w : World)
  (d q : list (string * json))
  (Hresp : next_response w (quote_request symbol api_key) = Body (JObj d))
  (Herr : Dict.get "Error Message" d = None)
  (Hnote : Dict.get "Note" d = None)
  (Hquote : Dict.get "Global Quote" d = Some (JObj q))
  (Hne : q <> []) :
  (present_fields_convert q = true ->
   exists Q, build_quote symbol (JObj q) = Ok Q)
  /\ (forall Q, build_quote symbol (JObj q) = Ok Q ->
      fst (fetch_quote symbol api_key w) = Ok (Some Q)
      /\ (forall s, Dict.get "10. change percent" q = Some (JStr s) ->
          float_of_str (PyStr.remove_char "%" s) = Some (q_changePercent Q))
      /\ (forall t, Dict.get "10. change percent" q = Some (JStr (t ++ "%")) ->
          PyStr.count_char "%" t = 0 ->
          float_of_str t = Some (q_changePercent Q))
      /\ (forall s, Dict.get "05. price" q = Some (JStr s) ->
          float_of_str s = Some (q_price Q))
      /\ (Dict.get "05. price" q = None -> q_price Q = float_lit 0 0)
      /\ (Dict.get "02. open" q = None -> q_open Q = float_lit 0 0)
      /\ (Dict.get "03. high" q = None -> q_high Q = float_lit 0 0)
      /\ (Dict.get "04. low" q = None -> q_low Q = float_lit 0 0)
      /\ (Dict.get "08. previous close" q = None ->
          q_prevClose Q = float_lit 0 0)
      /\ (Dict.get "06. volume" q = None -> q_volume Q = 0%Z)).
Proof.
  split.
  - unfold present_fields_convert. intros H.
    repeat (apply andb_prop in H as [H ?]).
    rewrite build_quote_obj.
    repeat match goal with
    | Hc : converts_float (Dict.get ?k q) = true |- _ =>
        let f := fresh "f" in let E := fresh "E" in
        destruct (converts_float_ok _ _ Hc) as [f E]; rewrite E; clear Hc
    | Hc : converts_int (Dict.get ?k q) = true |- _ =>
        let f := fresh "f" in let E := fresh "E" in
        destruct (converts_int_ok _ _ Hc) as [f E]; rewrite E; clear Hc
    | Hc : converts_percent _ = true |- _ =>
        let f := fresh "f" in let E := fresh "E" in
        destruct (converts_percent_ok _ Hc) as [f E]; rewrite E; clear Hc
    end.
    cbn [rbind]. eauto.
  - intros Q HQ. split.
    + pose proof (fetch_quote_on_quote _ _ _ Hresp Herr Hnote) as Hb.
      cbv zeta in Hb. rewrite Hquote in Hb.
      assert (Ht : py_truthy (JObj q) = true) by (destruct q; [congruence|reflexivity]).
      rewrite Ht in Hb. simpl negb in Hb. cbv iota in Hb.
      unfold bind, lift in Hb. rewrite HQ in Hb.
      now rewrite (fetch_quote_of_body _ _ _ Hb).
    + rewrite build_quote_obj in HQ.
      repeat match type of HQ with
      | rbind _ _ = Ok _ =>
          let a := fresh "a" in let E := fresh "E" in
          apply rbind_ok in HQ as (a & E & HQ)
      end.
      injection HQ as <-. simpl.
      rewrite !float_field_obj in *. rewrite int_field_obj in *.
      unfold percent_field in *.
      repeat split.
      * intros s Hs. rewrite Hs in E1. simpl in E1.
        destruct (float_of_str _); congruence.
      * intros t Ht Hc. rewrite Ht in E1. simpl in E1.
        change (t ++ "%")%string with (t ++ String "%" "")%string in E1.
        rewrite (remove_char_trailing _ _ Hc) in E1.
        destruct (float_of_str _); congruence.
      * intros s Hs. rewrite Hs in E. simpl in E.
        destruct (float_of_str _); congruence.
      * intros H. rewrite H in E. congruence.
      * intros H. rewrite H in E2. congruence.
      * intros H. rewrite H in E3. congruence.
      * intros H. rewrite H in E4. congruence.
      * intros H. rewrite H in E6. congruence.
      * intros H. rewrite H in E5. congruence.
Qed.

End QuoteFields.

(* ================================================================= *)
(** ** The order of strings and [sorted] *)

Module PyStrOrder.
Import PyStr.

Lemma ascii_compare_refl (a : ascii) : Ascii.compare a a = Eq.
Proof. apply N.compare_refl. Qed.

Lemma ascii_lt_trans (a b c : ascii) :
  Ascii.compare a b = Lt -> Ascii.compare b c = Lt -> Ascii.compare a c = Lt.
Proof.
  unfold Ascii.compare. rewrite !N.compare_lt_iff. apply N.lt_trans.
Qed.

Lemma compare_refl (s : string) : String.compare s s = Eq.
Proof. induction s; simpl; [reflexivity|]. now rewrite ascii_compare_refl. Qed.

Lemma lt_irrefl (s : string) : ~ lt s s.
Proof. unfold lt. now rewrite compare_refl. Qed.

Lemma lt_trans (a b c : string) : lt a b -> lt b c -> lt a c.
Proof.
  unfold lt. revert b c.
  induction a as [|x a IH]; intros [|y b] [|z c]; simpl; try congruence.
  destruct (Ascii.compare x y) eqn:Exy; try discriminate.
  - apply Ascii.compare_eq_iff in Exy. subst y.
    destruct (Ascii.compare x z); try congruence. apply IH.
  - destruct (Ascii.compare y z) eqn:Eyz; try discriminate.
    + apply Ascii.compare_eq_iff in Eyz. subst z. now rewrite Exy.
    + now rewrite (ascii_lt_trans _ _ _ Exy Eyz).
Qed.

Lemma ltb_lt (a b : string) : ltb a b = true <-> lt a b.
Proof.
  unfold ltb, String.ltb, lt. destruct (String.compare a b); split; congruence.
Qed.

(** Two strings are equal or one is below the other. *)
Lemma lt_total (a b : string) : lt a b \/ a = b \/ lt b a.
Proof.
  unfold lt. rewrite (String.compare_antisym b a).
  destruct (String.compare a b) eqn:E; simpl; auto.
  apply String.compare_eq_iff in E. auto.
Qed.

Lemma not_ltb_le (a b : string) : ltb a b = false -> b = a \/ lt b a.
Proof.
  intros H. destruct (lt_total a b) as [Hlt|[->|Hgt]]; auto.
  apply ltb_lt in Hlt. congruence.
Qed.

End PyStrOrder.

Section Sorted.
Context {RT : Runtime}.
Import PyStr PyStrOrder.

Lemma key_le_trans (a b c : string * json) :
  key_le a b -> key_le b c -> key_le a c.
Proof.
  unfold key_le. intros [->|H1] [<-|H2]; auto.
  right. eapply lt_trans; eauto.
Qed.

Lemma insert_item_perm (kv : string * json) (l : list (string * json)) :
  Permutation (kv :: l) (insert_item kv l).
Proof.
  induction l as [|kv' l IH]; simpl; [reflexivity|].
  destruct (ltb (fst kv) (fst kv')); [reflexivity|].
  rewrite perm_swap. now constructor.
Qed.

Lemma insert_item_sorted (kv : string * json) (l : list (string * json)) :
  StronglySorted key_le l -> StronglySorted key_le (insert_item kv l).
Proof.
  induction 1 as [|kv' l Hs IH Hall]; simpl.
  - repeat constructor.
  - destruct (ltb (fst kv) (fst kv')) eqn:E.
    + apply ltb_lt in E. constructor; [now constructor|].
      constructor; [now right|].
      eapply Forall_impl; [|exact Hall].
      intros c Hc. eapply key_le_trans; [right; exact E|exact Hc].
    + apply not_ltb_le in E. constructor; [exact IH|].
      eapply Permutation_Forall; [apply insert_item_perm|].
      constructor; [exact E|exact Hall].
Qed.

Lemma sorted_items_acc (l acc : list (string * json)) :
  StronglySorted key_le acc ->
  let r := fold_left (fun acc kv => insert_item kv acc) l acc in
  StronglySorted key_le r /\ Permutation (acc ++ l) r.
Proof.
  revert acc. induction l as [|kv l IH]; intros acc Hacc; simpl.
  - split; [exact Hacc|now rewrite app_nil_r].
  - destruct (IH (insert_item kv acc) (insert_item_sorted kv Hacc)) as [Hs Hp].
    split; [exact Hs|].
    rewrite <- Hp, <- insert_item_perm. symmetry. apply Permutation_middle.
Qed.

Lemma sorted_items_perm (l : list (string * json)) :
  Permutation l (sorted_items l).
Proof. apply (sorted_items_acc l (acc := [])). constructor. Qed.

Lemma sorted_items_sorted (l : list (string * json)) :
  StronglySorted key_le (sorted_items l).
Proof. apply (sorted_items_acc l (acc := [])). constructor. Qed.

(** Distinct keys in ascending order are in strictly ascending
    order. *)
Lemma sorted_nodup_strict (l : list (string * json)) :
  StronglySorted key_le l -> NoDup (map fst l) ->
  StronglySorted lt (map fst l).
Proof.
  induction 1 as [|kv l Hs IH Hall]; simpl; intros Hnd; [constructor|].
  inversion Hnd as [|? ? Hnin Hnd']; subst.
  constructor; [now apply IH|].
  apply Forall_forall. intros k Hk.
  apply in_map_iff in Hk as (kv' & <- & Hin).
  rewrite Forall_forall in Hall. destruct (Hall _ Hin) as [Heq|Hlt]; [|exact Hlt].
  exfalso. apply Hnin. rewrite Heq. now apply in_map.
Qed.

Lemma sorted_items_strict (l : list (string * json)) :
  NoDup (map fst l) -> StronglySorted lt (map fst (sorted_items l)).
Proof.
  intros Hnd. apply sorted_nodup_strict; [apply sorted_items_sorted|].
  eapply Permutation_NoDup; [|exact Hnd].
  apply Permutation_map, sorted_items_perm.
Qed.

End Sorted.

(* ================================================================= *)
(** ** History fetch *)

Section HistoryFetch.
Context {RT : Runtime}.
Import PyStr PyStrOrder.

Lemma history_point_date (date_str : string) (values : json) (p : HistoryPoint) :
  history_point date_str values = Ok p -> h_date p = date_str.
Proof.
  unfold history_point. intros H.
  repeat match type of H with
  | rbind _ _ = Ok _ =>
      let a := fresh "a" in let E := fresh "E" in
      apply rbind_ok in H as (a & E & H)
  end.
  now injection H as <-.
Qed.

Lemma history_loop_ok (items : list (string * json)) (acc : History) :
  (forall kv, In kv items -> exists p, history_point (fst kv) (snd kv) = Ok p) ->
  exists pts,
    history_loop items acc = Ok (acc ++ pts)
    /\ Forall2 (fun kv p => history_point (fst kv) (snd kv) = Ok p) items pts.
Proof.
  revert acc. induction items as [|[k v] items IH]; intros acc Hall; simpl.
  - exists []. rewrite app_nil_r. split; [reflexivity|constructor].
  - destruct (Hall (k, v) (or_introl eq_refl)) as [p Hp]. simpl in Hp.
    rewrite Hp. cbn [rbind].
    destruct (IH (acc ++ [p]) (fun kv H => Hall kv (or_intror H))) as (pts & Hl & Hf).
    exists (p :: pts). rewrite Hl, <- app_assoc. split; [reflexivity|].
    constructor; assumption.
Qed.

Lemma forall2_dates (items : list (string * json)) (pts : History) :
  Forall2 (fun kv p => history_point (fst kv) (snd kv) = Ok p) items pts ->
  map h_date pts = map fst items.
Proof.
  induction 1 as [|kv p items pts H _ IH]; simpl; [reflexivity|].
  now rewrite (history_point_date _ _ H), IH.
Qed.

Lemma fetch_daily_history_on_series (symbol api_key size : string) (w : World)
  (d ts : list (string * json)) :
  next_response w (history_request symbol api_key size) = Body (JObj d) ->
  Dict.get "Error Message" d = None ->
  Dict.get "Note" d = None ->
  Dict.get "Time Series (Daily)" d = Some (JObj ts) ->
  fetch_daily_history_body symbol api_key size w
  = (history_loop (sorted_items ts) [], set_sent (S (sent w)) w).
Proof.
  unfold next_response, history_request. intros Hr He Hn Hts.
  unfold fetch_daily_history_body, bind at 1, http_get_json. rewrite Hr.
  unfold bind at 1. unfold lift at 1. simpl py_in.
  rewrite (mem_of_get_none _ _ He).
  unfold bind at 1. unfold lift at 1. simpl py_in.
  rewrite (mem_of_get_none _ _ Hn).
  unfold bind at 1. unfold lift at 1. simpl py_get. rewrite Hts.
  reflexivity.
Qed.

(** C3.  From a map of dates to bars, [fetch_daily_history] returns
    one point per entry, each one built from its entry, in strictly
    ascending order of the date strings; the dates 2024-01-03,
    2024-01-01, 2024-01-02 come out as 2024-01-01, 2024-01-02,
    2024-01-03. *)
Theorem fetch_daily_history_sorted (symbol api_key size : string) (w : World)
  (d ts : list (string * json))
  (Hresp : next_response w (history_request symbol api_key size) = Body (JObj d))
  (Herr : Dict.get "Error Message" d = None)
  (Hnote : Dict.get "Note" d = None)
  (Hseries : Dict.get "Time Series (Daily)" d = Some (JObj ts))
  (Hkeys : NoDup (Dict.keys ts))
  (Hbars : forall kv, In kv ts ->
           exists p, history_point (fst kv) (snd kv) = Ok p) :
  exists history,
    fst (fetch_daily_history symbol api_key size w) = Ok history
    /\ List.length history = List.length ts
    /\ Permutation (map h_date history) (Dict.keys ts)
    /\ StronglySorted lt (map h_date history)
    /\ Forall (fun p => exists bar,
                 In (h_date p, bar) ts
                 /\ history_point (h_date p) bar = Ok p) history
    /\ (Dict.keys ts = ["2024-01-03"; "2024-01-01"; "2024-01-02"] ->
        map h_date history = ["2024-01-01"; "2024-01-02"; "2024-01-03"]).
Proof.
  pose proof (sorted_items_perm ts) as Hperm.
  destruct (history_loop_ok (sorted_items ts) []) as (pts & Hloop & Hf2).
  { intros kv Hin. apply Hbars. eapply Permutation_in; [symmetry; exact Hperm|exact Hin]. }
  exists pts. simpl in Hloop.
  pose proof (forall2_dates Hf2) as Hdates.
  repeat split.
  - unfold fetch_daily_history, try_except.
    rewrite (fetch_daily_history_on_series _ _ _ _ Hresp Herr Hnote Hseries).
    now rewrite Hloop.
  - rewrite <- (Forall2_length Hf2). symmetry. now apply Permutation_length.
  - rewrite Hdates. symmetry. now apply Permutation_map.
  - rewrite Hdates. now apply sorted_items_strict.
  - assert (Hin : forall kv, In kv (sorted_items ts) -> In kv ts)
      by (intros kv; apply Permutation_in; now symmetry).
    clear Hdates Hloop Hperm. revert Hin.
    induction Hf2 as [|kv p items pts' H _ IH]; intros Hin; constructor.
    + exists (snd kv). rewrite (history_point_date _ _ H). split; [|exact H].
      rewrite <- surjective_pairing. apply Hin. now left.
    + apply IH. intros kv' H'. apply Hin. now right.
  - intros Hk. rewrite Hdates. clear - Hk.
    destruct ts as [|[k1 v1] [|[k2 v2] [|[k3 v3] [|? ?]]]]; try discriminate.
    injection Hk as -> -> ->. reflexivity.
Qed.

End HistoryFetch.

(* ================================================================= *)
(** ** Calendar *)

Module DateFacts.
Import Date.
Local Open Scope Z_scope.

Lemma is_leap_spec (y : Z) :
  is_leap y = true <-> (y mod 4 = 0 /\ (y mod 100 <> 0 \/ y mod 400 = 0)).
Proof.
  unfold is_leap.
  rewrite andb_true_iff, orb_true_iff, negb_true_iff, !Z.eqb_eq, Z.eqb_neq.
  tauto.
Qed.

Lemma year_length (y : Z) :
  days_before_year (y + 1)
  = days_before_year y + 365 + (if is_leap y then 1 else 0).
Proof.
  unfold days_before_year. replace (y + 1 - 1) with y by lia.
  destruct (is_leap y) eqn:E.
  - apply is_leap_spec in E. Z.to_euclidean_division_equations. lia.
  - assert (H : ~ (y mod 4 = 0 /\ (y mod 100 <> 0 \/ y mod 400 = 0)))
      by (rewrite <- is_leap_spec; congruence).
    Z.to_euclidean_division_equations. lia.
Qed.

Lemma days_in_month_bounds (y m : Z) : 28 <= days_in_month y m <= 31.
Proof.
  unfold days_in_month.
  repeat match goal with |- context [if ?b then _ else _] => destruct b end; lia.
Qed.

Lemma month_length (y m : Z) :
  1 <= m <= 11 ->
  days_before_month y (m + 1) = days_before_month y m + days_in_month y m.
Proof.
  intros H.
  assert (Hm : m = 1 \/ m = 2 \/ m = 3 \/ m = 4 \/ m = 5 \/ m = 6 \/ m = 7
               \/ m = 8 \/ m = 9 \/ m = 10 \/ m = 11) by lia.
  unfold days_before_month, days_in_month.
  destruct (is_leap y);
    repeat (destruct Hm as [->|Hm]; [reflexivity|]); subst; reflexivity.
Qed.

Lemma days_before_december (y : Z) :
  days_before_month y 12 + 31 = 365 + (if is_leap y then 1 else 0).
Proof. unfold days_before_month. simpl. destruct (is_leap y); reflexivity. Qed.

Lemma pred_wf (d : t) : wf d -> wf (pred d).
Proof.
  unfold wf, pred. intros [Hm Hd].
  destruct (1 <? day d) eqn:E1; simpl.
  - apply Z.ltb_lt in E1. lia.
  - destruct (1 <? month d) eqn:E2; simpl.
    + apply Z.ltb_lt in E2. pose proof (days_in_month_bounds (year d) (month d - 1)). lia.
    + unfold days_in_month. simpl. lia.
Qed.

Lemma toordinal_pred (d : t) : wf d -> toordinal (pred d) = toordinal d - 1.
Proof.
  unfold wf, pred, toordinal. intros [Hm Hd].
  destruct (1 <? day d) eqn:E1; simpl.
  - lia.
  - apply Z.ltb_ge in E1. destruct (1 <? month d) eqn:E2; simpl.
    + apply Z.ltb_lt in E2.
      pose proof (@month_length (year d) (month d - 1) ltac:(lia)) as H.
      replace (month d - 1 + 1) with (month d) in H by lia. lia.
    + apply Z.ltb_ge in E2.
      pose proof (year_length (year d - 1)) as Hy.
      replace (year d - 1 + 1) with (year d) in Hy by lia.
      pose proof (days_before_december (year d - 1)).
      replace (month d) with 1 by lia.
      unfold days_before_month at 2. simpl. lia.
Qed.

Lemma sub_days_wf (d : t) (n : nat) : wf d -> wf (sub_days d n).
Proof.
  intros H. unfold sub_days. induction n; [exact H|].
  rewrite Nat.iter_succ. now apply pred_wf.
Qed.

Lemma toordinal_sub_days (d : t) (n : nat) :
  wf d -> toordinal (sub_days d n) = toordinal d - Z.of_nat n.
Proof.
  intros H. unfold sub_days. induction n as [|n IH].
  - simpl. lia.
  - rewrite Nat2Z.inj_succ, Nat.iter_succ.
    rewrite toordinal_pred by (apply (sub_days_wf n H)). lia.
Qed.

Lemma valid_wf (d : t) : valid d -> wf d.
Proof. unfold valid, wf. tauto. Qed.


Lemma days_before_year_mono (y1 y2 : Z) :
  y1 <= y2 -> days_before_year y1 <= days_before_year y2.
Proof.
  unfold days_before_year. intros H. Z.to_euclidean_division_equations. lia.
Qed.

Lemma month_cases (m : Z) :
  1 <= m <= 12 ->
  m = 1 \/ m = 2 \/ m = 3 \/ m = 4 \/ m = 5 \/ m = 6 \/ m = 7
  \/ m = 8 \/ m = 9 \/ m = 10 \/ m = 11 \/ m = 12.
Proof. lia. Qed.

Lemma days_before_month_mono (y m1 m2 : Z) :
  1 <= m1 -> m1 < m2 -> m2 <= 12 ->
  days_before_month y m1 + days_in_month y m1 <= days_before_month y m2.
Proof.
  intros H1 H12 H2.
  destruct (month_cases (m := m1) ltac:(lia)) as
    [->|[->|[->|[->|[->|[->|[->|[->|[->|[->|[->| ->]]]]]]]]]]];
  destruct (month_cases (m := m2) ltac:(lia)) as
    [->|[->|[->|[->|[->|[->|[->|[->|[->|[->|[->| ->]]]]]]]]]]];
  try lia;
  unfold days_before_month, days_in_month; destruct (is_leap y); simpl; lia.
Qed.

Lemma day_of_year_bounds (d : t) :
  wf d ->
  1 <= days_before_month (year d) (month d) + day d
    <= 365 + (if is_leap (year d) then 1 else 0).
Proof.
  intros [Hm Hd].
  destruct (month_cases Hm) as
    [E|[E|[E|[E|[E|[E|[E|[E|[E|[E|[E|E]]]]]]]]]]];
  rewrite E in *; revert Hd;
  unfold days_before_month, days_in_month; destruct (is_leap (year d));
  cbn [Z.eqb Z.ltb Z.compare Pos.eqb Pos.compare Pos.compare_cont andb orb];
  lia.
Qed.

Lemma lt_toordinal (a b : t) :
  wf a -> wf b -> lt a b -> toordinal a < toordinal b.
Proof.
  intros Ha Hb Hlt. unfold toordinal.
  pose proof (day_of_year_bounds Ha) as Ba.
  pose proof (day_of_year_bounds Hb) as Bb.
  destruct Hlt as [Hy|[Hy [Hm|[Hm Hd]]]].
  - pose proof (year_length (year a)) as Hlen.
    pose proof (@days_before_year_mono (year a + 1) (year b) ltac:(lia)). lia.
  - rewrite Hy in *.
    pose proof (@days_before_month_mono (year b) (month a) (month b)
                  ltac:(destruct Ha; lia) Hm ltac:(destruct Hb; lia)).
    destruct Ha as [_ Ha]. rewrite Hy in Ha. destruct Hb. lia.
  - rewrite Hy, Hm. lia.
Qed.

Lemma lt_trichotomy (a b : t) : lt a b \/ a = b \/ lt b a.
Proof.
  destruct a as [ya ma da], b as [yb mb db]. unfold lt. simpl.
  destruct (Z.lt_total ya yb) as [H|[H|H]]; auto.
  destruct (Z.lt_total ma mb) as [H'|[H'|H']]; auto 6.
  destruct (Z.lt_total da db) as [H''|[H''|H'']]; subst; auto 8.
Qed.

(** The order of the ordinals is the one of the dates. *)
Lemma toordinal_lt (a b : t) :
  wf a -> wf b -> toordinal a < toordinal b -> lt a b.
Proof.
  intros Ha Hb H. destruct (lt_trichotomy a b) as [Hlt|[->|Hgt]]; [exact Hlt|lia|].
  pose proof (lt_toordinal Hb Ha Hgt). lia.
Qed.

(** Day 1 is the first day of year 1. *)
Lemma year_of_ordinal (d : t) : wf d -> (1 <= year d <-> 1 <= toordinal d).
Proof.
  intros Hd. pose proof (day_of_year_bounds Hd) as B. unfold toordinal. split.
  - intros H. pose proof (@days_before_year_mono 1 (year d) H) as Hm.
    change (days_before_year 1) with 0 in Hm. lia.
  - intros H. destruct (Z.le_gt_cases 1 (year d)) as [|Hlt]; [assumption|].
    exfalso.
    pose proof (year_length (year d)) as Hlen.
    pose proof (@days_before_year_mono (year d + 1) 1 ltac:(lia)) as Hm.
    change (days_before_year 1) with 0 in Hm. lia.
Qed.

Lemma pred_year_le (d : t) : year (pred d) <= year d.
Proof.
  unfold pred. destruct (1 <? day d); simpl; [lia|].
  destruct (1 <? month d); simpl; lia.
Qed.

Lemma sub_days_year_le (d : t) (n : nat) : year (sub_days d n) <= year d.
Proof.
  unfold sub_days. induction n; [simpl; lia|].
  rewrite Nat.iter_succ. pose proof (pred_year_le (Nat.iter n pred d)). lia.
Qed.

(** The days before the year [y] are over on the days of the years
    from [y] on, and on no other. *)
Lemma year_from_ordinal (d : t) (y : Z) :
  wf d -> (y <= year d <-> days_before_year y < toordinal d).
Proof.
  intros Hd. pose proof (day_of_year_bounds Hd) as B.
  pose proof (year_length (year d)) as Hlen. unfold toordinal. split.
  - intros H. pose proof (@days_before_year_mono y (year d) H). lia.
  - intros H. destruct (Z.le_gt_cases y (year d)) as [|Hlt]; [assumption|].
    exfalso.
    pose proof (@days_before_year_mono (year d + 1) y ltac:(lia)). lia.
Qed.

Lemma toordinal_inj (a b : t) :
  wf a -> wf b -> toordinal a = toordinal b -> a = b.
Proof.
  intros Ha Hb H. destruct (lt_trichotomy a b) as [Hlt|[E|Hgt]]; [|exact E|].
  - pose proof (lt_toordinal Ha Hb Hlt). lia.
  - pose proof (lt_toordinal Hb Ha Hgt). lia.
Qed.

(** The date [k] days before [d] is the date of the ordinal [k]
    below. *)
Lemma sub_days_to (d d' : t) (k : Z) :
  wf d -> wf d' -> (0 <= k)%Z -> toordinal d' = toordinal d - k ->
  sub_days d (Z.to_nat k) = d'.
Proof.
  intros Hd Hd' Hk H. apply toordinal_inj; [now apply sub_days_wf|exact Hd'|].
  rewrite toordinal_sub_days by exact Hd. lia.
Qed.

End DateFacts.

Module StrftimeFacts.
Import Date.

Lemma digit_char_compare (a b : Z) :
  (0 <= a < 10)%Z -> (0 <= b < 10)%Z ->
  Ascii.compare (ascii_of_nat (48 + Z.to_nat a)) (ascii_of_nat (48 + Z.to_nat b))
  = Z.compare a b.
Proof.
  intros Ha Hb.
  assert (Ea : (a = 0 \/ a = 1 \/ a = 2 \/ a = 3 \/ a = 4 \/ a = 5 \/ a = 6
               \/ a = 7 \/ a = 8 \/ a = 9)%Z) by lia.
  assert (Eb : (b = 0 \/ b = 1 \/ b = 2 \/ b = 3 \/ b = 4 \/ b = 5 \/ b = 6
               \/ b = 7 \/ b = 8 \/ b = 9)%Z) by lia.
  destruct Ea as [->|[->|[->|[->|[->|[->|[->|[->|[->| ->]]]]]]]]];
  destruct Eb as [->|[->|[->|[->|[->|[->|[->|[->|[->| ->]]]]]]]]];
  reflexivity.
Qed.

Lemma digits_length (w : nat) (n : Z) : String.length (digits w n) = w.
Proof. induction w; simpl; congruence. Qed.

Lemma mod_split (a : Z) (w : nat) :
  (0 <= a)%Z ->
  (a mod 10 ^ Z.of_nat (S w)
   = ((a / 10 ^ Z.of_nat w) mod 10) * 10 ^ Z.of_nat w + a mod 10 ^ Z.of_nat w)%Z.
Proof.
  intros Ha. rewrite Nat2Z.inj_succ, Z.pow_succ_r by lia.
  assert (Hp : (0 < 10 ^ Z.of_nat w)%Z) by (apply Z.pow_pos_nonneg; lia).
  rewrite (Z.mul_comm 10). rewrite Z.rem_mul_r by lia. lia.
Qed.

(** Among numbers of at most [w] digits the order of the numerals
    is the one of the numbers. *)
Lemma digits_lt (w : nat) (a b : Z) :
  (0 <= a)%Z -> (0 <= b)%Z ->
  (a mod 10 ^ Z.of_nat w < b mod 10 ^ Z.of_nat w)%Z ->
  PyStr.lt (digits w a) (digits w b).
Proof.
  intros Ha Hb. unfold PyStr.lt. induction w as [|w IH].
  - simpl. rewrite !Z.mod_1_r. lia.
  - rewrite !mod_split by assumption. intros H.
    assert (Hp : (0 < 10 ^ Z.of_nat w)%Z) by (apply Z.pow_pos_nonneg; lia).
    pose proof (Z.mod_pos_bound (a / 10 ^ Z.of_nat w) 10 ltac:(lia)) as Da.
    pose proof (Z.mod_pos_bound (b / 10 ^ Z.of_nat w) 10 ltac:(lia)) as Db.
    pose proof (Z.mod_pos_bound a (10 ^ Z.of_nat w) Hp) as Ra.
    pose proof (Z.mod_pos_bound b (10 ^ Z.of_nat w) Hp) as Rb.
    cbn [digits String.compare]. rewrite digit_char_compare by assumption.
    destruct (Z.compare_spec ((a / 10 ^ Z.of_nat w) mod 10)
                             ((b / 10 ^ Z.of_nat w) mod 10)) as [E|E|E].
    + apply IH. rewrite E in H. lia.
    + reflexivity.
    + exfalso. nia.
Qed.

Lemma compare_app_lt (x y s t : string) :
  String.length x = String.length y ->
  String.compare x y = Lt ->
  String.compare (x ++ s) (y ++ t) = Lt.
Proof.
  revert y. induction x as [|c x IH]; intros [|c' y]; simpl; try discriminate.
  intros [= Hlen]. destruct (Ascii.compare c c'); try congruence. now apply IH.
Qed.

Lemma compare_app_same (x s t : string) :
  String.compare (x ++ s) (x ++ t) = String.compare s t.
Proof.
  induction x as [|c x IH]; simpl; [reflexivity|].
  now rewrite PyStrOrder.ascii_compare_refl.
Qed.

Lemma year_width_four (y : Z) : (1000 <= y)%Z -> year_width y = 4.
Proof.
  intros H. unfold year_width.
  destruct (Z.ltb_spec y 10); [lia|].
  destruct (Z.ltb_spec y 100); [lia|].
  destruct (Z.ltb_spec y 1000); [lia|reflexivity].
Qed.

(** The texts of two dates whose years have four digits are ordered
    as the dates are. *)
Lemma strftime_lt (a b : t) :
  (1000 <= year a < 10000)%Z -> (1000 <= year b < 10000)%Z ->
  (0 <= month a < 100)%Z -> (0 <= month b < 100)%Z ->
  (0 <= day a < 100)%Z -> (0 <= day b < 100)%Z ->
  lt a b -> PyStr.lt (strftime a) (strftime b).
Proof.
  intros Hya Hyb Hma Hmb Hda Hdb Hlt. unfold PyStr.lt, strftime.
  rewrite !year_width_four by lia.
  destruct Hlt as [Hy|[Hy [Hm|[Hm Hd]]]].
  - apply compare_app_lt; [now rewrite !digits_length|].
    apply digits_lt; try lia. change (10 ^ Z.of_nat 4)%Z with 10000%Z.
    rewrite !Z.mod_small; lia.
  - rewrite Hy, compare_app_same. cbn [append String.compare]. rewrite PyStrOrder.ascii_compare_refl.
    apply compare_app_lt; [now rewrite !digits_length|].
    apply digits_lt; try lia. change (10 ^ Z.of_nat 2)%Z with 100%Z.
    rewrite !Z.mod_small; lia.
  - rewrite Hy, Hm, compare_app_same. cbn [append String.compare]. rewrite PyStrOrder.ascii_compare_refl.
    rewrite compare_app_same.
    cbn [append String.compare]. rewrite PyStrOrder.ascii_compare_refl.
    apply digits_lt; try lia. change (10 ^ Z.of_nat 2)%Z with 100%Z.
    rewrite !Z.mod_small; lia.
Qed.

End StrftimeFacts.

(* ================================================================= *)
(** ** Synthetic history *)

Section DemoHistory.
Context {RT : Runtime}.
Import PyStr.

Lemma sub_timedelta_ok (d : Date.t) (k : Z) :
  (1 <= Date.year (Date.sub_days d (Z.to_nat k)))%Z ->
  sub_timedelta d k = Ok (Date.sub_days d (Z.to_nat k)).
Proof.
  intros H. unfold sub_timedelta. apply Z.leb_le in H. now rewrite H.
Qed.

(** One turn of the loop: the clock is read twice, and a point dated
    from the second reading is appended unless that date falls on a
    weekend. *)
Lemma demo_history_step_spec (days i : Z) (price : float) (history : History)
  (w : World) :
  let d := Date.sub_days (local_date (clock w (S (ticks w)))) (Z.to_nat (days - i)) in
  (1 <= Date.year d)%Z ->
  exists price' pts w',
    demo_history_step days i (price, history) w = (Ok (price', history ++ pts), w')
    /\ map h_date pts = map Date.strftime (filter is_weekday [d])
    /\ clock w' = clock w
    /\ ticks w' = S (S (ticks w)).
Proof.
  intros d Hd. unfold demo_history_step.
  unfold bind at 1. unfold now at 1.
  unfold bind at 1. unfold now at 1.
  cbn [ticks set_ticks clock local_date].
  unfold bind at 1. unfold lift at 1.
  rewrite (sub_timedelta_ok _ _ Hd). fold d.
  unfold is_weekday. cbn [filter].
  destruct (5 <=? Date.weekday d)%Z; cbn [negb].
  - exists price, [], (set_ticks (S (S (ticks w))) (set_ticks (S (ticks w)) w)).
    rewrite app_nil_r. repeat split.
  - unfold bind, random_uniform, random_randint.
    cbn [random set_random set_ticks].
    repeat match goal with
    | |- context [uniform ?a ?b ?g] => destruct (uniform a b g)
    | |- context [randint ?a ?b ?g] => destruct (randint a b g)
    end.
    do 3 eexists. split; [reflexivity|]. repeat split.
Qed.


Lemma demo_history_loop_spec (days : Z) (idx : list Z) (price : float)
  (history : History) (w : World) :
  Forall (fun d => (1 <= Date.year d)%Z)
         (entry_dates (clock w) days idx (ticks w)) ->
  exists price' pts w',
    demo_history_loop days idx (price, history) w
    = (Ok (price', history ++ pts), w')
    /\ map h_date pts
       = map Date.strftime
             (filter is_weekday (entry_dates (clock w) days idx (ticks w)))
    /\ clock w' = clock w
    /\ ticks w' = ticks w + 2 * List.length idx.
Proof.
  revert price history w.
  induction idx as [|i idx IH]; intros price history w Hall.
  - exists price, [], w. rewrite app_nil_r. simpl. repeat split. lia.
  - cbn [entry_dates] in Hall. inversion Hall as [|d ds Hd Hds]; subst.
    destruct (demo_history_step_spec days i price history w Hd)
      as (price1 & pts1 & w1 & Hstep & Hdates1 & Hclock1 & Hticks1).
    cbn [demo_history_loop]. unfold bind at 1. rewrite Hstep. cbv beta iota.
    rewrite <- Hclock1, <- Hticks1 in Hds.
    destruct (IH price1 (history ++ pts1) w1 Hds)
      as (price2 & pts2 & w2 & Hloop & Hdates2 & Hclock2 & Hticks2).
    exists price2, (pts1 ++ pts2), w2.
    split; [rewrite app_assoc; exact Hloop|].
    split; [|split; [congruence|simpl; lia]].
    rewrite map_app, Hdates1, Hdates2, Hclock1, Hticks1.
    cbn [entry_dates filter].
    destruct (is_weekday _); reflexivity.
Qed.

(** The dates of the points that [generate_demo_history] returns. *)
Lemma generate_demo_history_dates (price : float) (days : Z) (w : World) :
  Forall (fun d => (1 <= Date.year d)%Z)
         (entry_dates (clock w) days (range days) (ticks w)) ->
  exists h w',
    generate_demo_history price days w = (Ok h, w')
    /\ map h_date h
       = map Date.strftime
             (filter is_weekday
                     (entry_dates (clock w) days (range days) (ticks w))).
Proof.
  intros Hall. unfold generate_demo_history.
  destruct (demo_history_loop_spec days (range days)
              (fmul price (float_lit 9 1)) [] w Hall)
    as (price' & pts & w' & Hloop & Hdates & _ & _).
  exists pts, w'. unfold bind.
  lazymatch goal with
  | |- context [match ?x with _ => _ end] =>
      assert (E : x = (Ok (price', pts), w')) by exact Hloop; rewrite E
  end.
  split; [reflexivity|exact Hdates].
Qed.


Lemma entry_dates_seq (clk : nat -> Instant) (days : Z) (s len tick : nat) :
  entry_dates clk days (map Z.of_nat (seq s len)) tick
  = map (fun j => Date.sub_days (local_date (clk (S (tick + 2 * j))))
                                (Z.to_nat (days - Z.of_nat (s + j))))
        (seq 0 len).
Proof.
  revert s tick. induction len as [|len IH]; intros s tick; [reflexivity|].
  cbn [seq map entry_dates]. rewrite IH, <- seq_shift, map_map.
  f_equal.
  - now rewrite Nat.mul_0_r, !Nat.add_0_r.
  - apply map_ext. intros j. f_equal; [do 3 f_equal; lia|do 3 f_equal; lia].
Qed.

Lemma entry_dates_constant (clk : nat -> Instant) (today : Date.t) (days : Z)
  (tick : nat) :
  (forall n, local_date (clk n) = today) ->
  entry_dates clk days (range days) tick = days_before today days.
Proof.
  intros Hc. unfold days_before, range.
  rewrite entry_dates_seq, map_map. apply map_ext. intros j.
  now rewrite Hc.
Qed.

Lemma sorted_map_seq A (R : A -> A -> Prop) (f : nat -> A) (s len : nat) :
  (forall i j, s <= i -> i < j -> j < s + len -> R (f i) (f j)) ->
  StronglySorted R (map f (seq s len)).
Proof.
  revert s. induction len as [|len IH]; intros s H; simpl; constructor.
  - apply IH. intros i j Hi Hij Hj. apply H; lia.
  - apply Forall_forall. intros x Hx.
    apply in_map_iff in Hx as (j & <- & Hj). apply in_seq in Hj.
    apply H; lia.
Qed.

Lemma sorted_filter A (R : A -> A -> Prop) (f : A -> bool) (l : list A) :
  StronglySorted R l -> StronglySorted R (filter f l).
Proof.
  induction 1 as [|a l Hs IH Hall]; simpl; [constructor|].
  destruct (f a); [|exact IH].
  constructor; [exact IH|].
  apply Forall_forall. intros x Hx. apply filter_In in Hx as [Hx _].
  rewrite Forall_forall in Hall. now apply Hall.
Qed.

Lemma sorted_map A B (P : A -> Prop) (R : A -> A -> Prop) (R' : B -> B -> Prop)
  (g : A -> B) (l : list A) :
  (forall a b, P a -> P b -> R a b -> R' (g a) (g b)) ->
  Forall P l -> StronglySorted R l -> StronglySorted R' (map g l).
Proof.
  intros Hg HP Hs. induction Hs as [|a l Hs IH Hall]; simpl; [constructor|].
  inversion HP as [|? ? Pa Pl]; subst.
  constructor; [now apply IH|].
  apply Forall_forall. intros y Hy. apply in_map_iff in Hy as (b & <- & Hb).
  rewrite Forall_forall in Hall, Pl. apply Hg; auto.
Qed.

Lemma sorted_lt_nodup (l : list string) : StronglySorted lt l -> NoDup l.
Proof.
  induction 1 as [|a l Hs IH Hall]; constructor; [|exact IH].
  intros Hin. rewrite Forall_forall in Hall.
  exact (PyStrOrder.lt_irrefl (Hall _ Hin)).
Qed.

Lemma strftime_lt_four_digits (a b : Date.t) :
  four_digits a -> four_digits b ->
  (Date.toordinal a < Date.toordinal b)%Z ->
  lt (Date.strftime a) (Date.strftime b).
Proof.
  intros [Wa Ya] [Wb Yb] H.
  pose proof (DateFacts.days_in_month_bounds (Date.year a) (Date.month a)).
  pose proof (DateFacts.days_in_month_bounds (Date.year b) (Date.month b)).
  destruct Wa as [? ?], Wb as [? ?].
  apply StrftimeFacts.strftime_lt; try lia.
  apply DateFacts.toordinal_lt; [split; assumption..|exact H].
Qed.

(** The date a turn computes from a valid reading of the clock that
    is more than [k] days after the first day of the calendar. *)
Lemma entry_date_printable (today : Date.t) (k : nat) :
  Date.valid today ->
  (Z.of_nat k < Date.toordinal today)%Z ->
  printable (Date.sub_days today k)
  /\ Date.toordinal (Date.sub_days today k)
     = (Date.toordinal today - Z.of_nat k)%Z.
Proof.
  intros Hv Hk. pose proof (DateFacts.valid_wf Hv) as Hw.
  pose proof (DateFacts.toordinal_sub_days k Hw) as Ho.
  pose proof (DateFacts.sub_days_wf k Hw) as Hw'.
  pose proof (DateFacts.sub_days_year_le today k).
  split; [|exact Ho]. split; [exact Hw'|].
  split; [apply (DateFacts.year_of_ordinal Hw'); lia|].
  destruct Hv as [? _]. lia.
Qed.

(** The same from a reading that is at least [k] days after the
    first day of the year 1000: the year of the date has four
    digits. *)
Lemma entry_date_four_digits (today : Date.t) (k : nat) :
  Date.valid today ->
  (Date.toordinal (Date.mk 1000 1 1) + Z.of_nat k <= Date.toordinal today)%Z ->
  four_digits (Date.sub_days today k)
  /\ Date.toordinal (Date.sub_days today k)
     = (Date.toordinal today - Z.of_nat k)%Z.
Proof.
  intros Hv Hk. pose proof (DateFacts.valid_wf Hv) as Hw.
  pose proof (DateFacts.toordinal_sub_days k Hw) as Ho.
  pose proof (DateFacts.sub_days_wf k Hw) as Hw'.
  pose proof (DateFacts.sub_days_year_le today k).
  change (Date.toordinal (Date.mk 1000 1 1)) with 364878%Z in Hk.
  split; [|exact Ho]. split; [exact Hw'|].
  split.
  - apply (DateFacts.year_from_ordinal 1000 Hw').
    change (Date.days_before_year 1000) with 364877%Z. lia.
  - destruct Hv as [? _]. lia.
Qed.


Lemma filter_length_lt A (f : A -> bool) (l : list A) (x : A) :
  In x l -> f x = false -> List.length (filter f l) < List.length l.
Proof.
  induction l as [|a l IH]; simpl; [tauto|].
  intros [->|Hin] Hx.
  - rewrite Hx. pose proof (filter_length_le f l). lia.
  - specialize (IH Hin Hx). destruct (f a); simpl; lia.
Qed.

Lemma in_days_before (today : Date.t) (days : Z) (k : nat) :
  (1 <= Z.of_nat k <= days)%Z ->
  In (Date.sub_days today k) (days_before today days).
Proof.
  intros Hk. unfold days_before, range. rewrite map_map.
  apply in_map_iff. exists (Z.to_nat days - k). split.
  - f_equal. lia.
  - apply in_seq. lia.
Qed.

(** Six days in a row hold a Saturday or a Sunday. *)
Lemma weekend_in_six_days (today : Date.t) :
  Date.wf today ->
  exists k, 1 <= k <= 6 /\ is_weekday (Date.sub_days today k) = false.
Proof.
  intros Hw.
  assert (H : forall k, is_weekday (Date.sub_days today k)
                        = negb (5 <=? (Date.toordinal today - Z.of_nat k + 6) mod 7)%Z).
  { intros k. unfold is_weekday, Date.weekday.
    now rewrite (DateFacts.toordinal_sub_days k Hw). }
  pose proof (Z.mod_pos_bound (Date.toordinal today) 7 ltac:(lia)) as Hr.
  assert (Hk : exists k, 1 <= k <= 6
                 /\ (5 <= (Date.toordinal today - Z.of_nat k + 6) mod 7)%Z).
  { assert (Hc : (Date.toordinal today mod 7 = 0 \/ Date.toordinal today mod 7 = 1
                  \/ Date.toordinal today mod 7 = 2 \/ Date.toordinal today mod 7 = 3
                  \/ Date.toordinal today mod 7 = 4 \/ Date.toordinal today mod 7 = 5
                  \/ Date.toordinal today mod 7 = 6)%Z) by lia.
    destruct Hc as [E|[E|[E|[E|[E|[E|E]]]]]];
      [exists 1|exists 1|exists 2|exists 3|exists 4|exists 5|exists 6];
      (split; [lia|]); Z.to_euclidean_division_equations; lia. }
  destruct Hk as (k & Hk & Hwe). exists k. split; [exact Hk|].
  rewrite H. apply Z.leb_le in Hwe. now rewrite Hwe.
Qed.

(** The history generated while the date of the clock is [today],
    more than [days] days after the first of the calendar: the texts
    of the weekdays among the [days] days before [today]. *)
Lemma demo_history_dates_constant (price : float) (days : Z)
  (today : Date.t) (w : World) :
  Date.valid today ->
  (forall n, local_date (clock w n) = today) ->
  (days < Date.toordinal today)%Z ->
  exists h,
    fst (generate_demo_history price days w) = Ok h
    /\ map h_date h
       = map Date.strftime (filter is_weekday (days_before today days)).
Proof.
  intros Hvalid Hclock Hrange.
  destruct (generate_demo_history_dates price days w) as (h & w' & Hgen & Hdates).
  - rewrite (entry_dates_constant _ _ _ Hclock).
    unfold days_before, range. rewrite map_map.
    apply Forall_forall. intros d Hd.
    apply in_map_iff in Hd as (j & <- & Hj). apply in_seq in Hj.
    destruct (@entry_date_printable today (Z.to_nat (days - Z.of_nat j)) Hvalid)
      as [[_ Hy] _]; lia.
  - exists h. rewrite Hgen. split; [reflexivity|].
    rewrite Hdates. now rewrite (entry_dates_constant _ _ _ Hclock).
Qed.

Lemma strongly_sorted_app_r A (R : A -> A -> Prop) (l1 l2 : list A) :
  StronglySorted R (l1 ++ l2) -> StronglySorted R l2.
Proof.
  induction l1 as [|a l1 IH]; simpl; [tauto|].
  intros H. inversion H; subst. now apply IH.
Qed.

(** The [days] days before [today], cut at the turns [a] and
    [a + 1]. *)
Lemma days_before_split (today : Date.t) (days a : Z) :
  (0 <= a)%Z -> (a + 2 <= days)%Z ->
  exists l1 l2,
    days_before today days
    = l1 ++ Date.sub_days today (Z.to_nat (days - a))
         :: Date.sub_days today (Z.to_nat (days - (a + 1))) :: l2.
Proof.
  intros Ha Hd. unfold days_before, range.
  replace (Z.to_nat days)
    with (Z.to_nat a + S (S (Z.to_nat (days - a - 2)))) by lia.
  rewrite seq_app, !map_app. cbn [seq map Nat.add].
  do 2 eexists. f_equal. f_equal; [|f_equal].
  - now rewrite Z2Nat.id.
  - now rewrite Nat2Z.inj_succ, Z2Nat.id.
Qed.

(** Two weekdays that follow each other among the [days] days before
    [today] date two points that follow each other in the history. *)
Lemma demo_history_neighbours (price : float) (days a : Z)
  (today d1 d2 : Date.t) (w : World) :
  Date.valid today ->
  (forall n, local_date (clock w n) = today) ->
  (days < Date.toordinal today)%Z ->
  (0 <= a)%Z -> (a + 2 <= days)%Z ->
  Date.wf d1 -> Date.wf d2 ->
  Date.toordinal d1 = (Date.toordinal today - (days - a))%Z ->
  Date.toordinal d2 = (Date.toordinal today - (days - (a + 1)))%Z ->
  is_weekday d1 = true -> is_weekday d2 = true ->
  exists h l1 l2,
    fst (generate_demo_history price days w) = Ok h
    /\ map h_date h
       = l1 ++ Date.strftime d1 :: Date.strftime d2 :: l2.
Proof.
  intros Hvalid Hclock Hrange Ha Hd W1 W2 O1 O2 D1 D2.
  destruct (@demo_history_dates_constant price days today w Hvalid Hclock Hrange)
    as (h & Hgen & Hdates).
  destruct (@days_before_split today days a Ha Hd) as (l1 & l2 & Hsplit).
  pose proof (DateFacts.valid_wf Hvalid) as Hw.
  rewrite (@DateFacts.sub_days_to today d1 (days - a) Hw W1 ltac:(lia) O1)
    in Hsplit.
  rewrite (@DateFacts.sub_days_to today d2 (days - (a + 1)) Hw W2 ltac:(lia) O2)
    in Hsplit.
  exists h, (map Date.strftime (filter is_weekday l1)),
    (map Date.strftime (filter is_weekday l2)).
  split; [exact Hgen|].
  rewrite Hdates, Hsplit, filter_app, map_app. cbn [filter].
  rewrite D1, D2. reflexivity.
Qed.

(** C10, as the code has it.  When the dates read from the clock never
    step back and the oldest date of the history is not before the
    year 1000, [generate_demo_history] returns points whose date
    texts are strictly increasing, hence all different. *)
Theorem demo_history_dates_increasing (price : float) (days : Z) (w : World)
  (Hvalid : forall n, Date.valid (local_date (clock w n)))
  (Hmono : forall m n, m <= n ->
           (Date.toordinal (local_date (clock w m))
            <= Date.toordinal (local_date (clock w n)))%Z)
  (Hrange : forall n,
      (Date.toordinal (Date.mk 1000 1 1) + days
       <= Date.toordinal (local_date (clock w n)))%Z) :
  exists h,
    fst (generate_demo_history price days w) = Ok h
    /\ StronglySorted lt (map h_date h)
    /\ NoDup (map h_date h).
Proof.
  set (f := fun j => Date.sub_days (local_date (clock w (S (ticks w + 2 * j))))
                                   (Z.to_nat (days - Z.of_nat (0 + j)))).
  assert (Hseq : entry_dates (clock w) days (range days) (ticks w)
                 = map f (seq 0 (Z.to_nat days)))
    by apply entry_dates_seq.
  assert (Hf : forall j, j < Z.to_nat days ->
               four_digits (f j)
               /\ Date.toordinal (f j)
                  = (Date.toordinal (local_date (clock w (S (ticks w + 2 * j))))
                     - (days - Z.of_nat j))%Z).
  { intros j Hj. unfold f.
    destruct (@entry_date_four_digits
                (local_date (clock w (S (ticks w + 2 * j))))
                (Z.to_nat (days - Z.of_nat (0 + j))) (Hvalid _))
      as [Hp Ho].
    - specialize (Hrange (S (ticks w + 2 * j))). lia.
    - split; [exact Hp|]. rewrite Ho. lia. }
  assert (Hall : Forall four_digits (map f (seq 0 (Z.to_nat days)))).
  { apply Forall_forall. intros d Hd.
    apply in_map_iff in Hd as (j & <- & Hj). apply in_seq in Hj.
    apply Hf. lia. }
  destruct (generate_demo_history_dates price days w) as (h & w' & Hgen & Hdates).
  { rewrite Hseq. eapply Forall_impl; [|exact Hall].
    intros d [_ Hy]. lia. }
  exists h. rewrite Hgen. split; [reflexivity|].
  assert (Hs : StronglySorted lt (map h_date h)).
  { rewrite Hdates, Hseq.
    apply sorted_map with (P := four_digits)
                          (R := fun a b => (Date.toordinal a < Date.toordinal b)%Z).
    - intros a b. apply strftime_lt_four_digits.
    - apply Forall_forall. intros d Hd. apply filter_In in Hd as [Hd _].
      rewrite Forall_forall in Hall. now apply Hall.
    - apply sorted_filter, sorted_map_seq.
      intros i j _ Hij Hj. simpl in Hj.
      destruct (Hf i ltac:(lia)) as [_ ->].
      destruct (Hf j Hj) as [_ ->].
      specialize (Hmono (S (ticks w + 2 * i)) (S (ticks w + 2 * j)) ltac:(lia)).
      lia. }
  split; [exact Hs|now apply sorted_lt_nodup].
Qed.

(** C5, as the code has it.  While the date of the clock is [today],
    more than [days] days after the first of the calendar,
    [generate_demo_history] returns one point per weekday among the
    [days] days before [today], [today - (days - i)] at turn [i], in
    that order: every date is a weekday, there are at most [days]
    points, and fewer than [days] once [days] is at least 6. *)
Theorem demo_history_weekdays (price : float) (days : Z) (w : World)
  (today : Date.t)
  (Hvalid : Date.valid today)
  (Hclock : forall n, local_date (clock w n) = today)
  (Hrange : (days < Date.toordinal today)%Z) :
  exists h,
    fst (generate_demo_history price days w) = Ok h
    /\ map h_date h
       = map Date.strftime (filter is_weekday (days_before today days))
    /\ Forall (fun p => exists d,
                 In d (days_before today days)
                 /\ (Date.weekday d < 5)%Z
                 /\ h_date p = Date.strftime d) h
    /\ List.length h = List.length (filter is_weekday (days_before today days))
    /\ (Z.of_nat (List.length h) <= Z.max 0 days)%Z
    /\ (6 <= days -> Z.of_nat (List.length h) < days)%Z.
Proof.
  pose proof (entry_dates_constant (clock w) days (ticks w) Hclock) as Hseq.
  destruct (generate_demo_history_dates price days w) as (h & w' & Hgen & Hdates).
  { rewrite Hseq. unfold days_before, range. rewrite map_map.
    apply Forall_forall. intros d Hd.
    apply in_map_iff in Hd as (j & <- & Hj). apply in_seq in Hj.
    destruct (@entry_date_printable today (Z.to_nat (days - Z.of_nat j)) Hvalid)
      as [[_ Hy] _]; lia. }
  rewrite Hseq in Hdates.
  assert (Hlen : List.length h
                 = List.length (filter is_weekday (days_before today days))).
  { rewrite <- (length_map h_date h), Hdates. apply length_map. }
  assert (Hall : List.length (days_before today days) = Z.to_nat days).
  { unfold days_before, range. now rewrite !length_map, length_seq. }
  exists h. rewrite Hgen. split; [reflexivity|]. split; [exact Hdates|].
  split; [|split; [exact Hlen|split]].
  - clear Hlen Hgen Hall Hseq. revert Hdates.
    generalize (days_before today days) as l.
    intros l. revert h. induction l as [|d l IH]; intros h Hh.
    + destruct h; [constructor|discriminate].
    + simpl in Hh. destruct (is_weekday d) eqn:Ed.
      * destruct h as [|p h]; [discriminate|]. simpl in Hh.
        injection Hh as Hp Hh. constructor.
        -- exists d. split; [now left|]. split; [|exact Hp].
           unfold is_weekday in Ed. apply negb_true_iff, Z.leb_gt in Ed. exact Ed.
        -- eapply Forall_impl; [|exact (IH h Hh)].
           intros p' (d' & Hin & Hwd & Hp'). exists d'. split; [now right|]. now split.
      * eapply Forall_impl; [|exact (IH h Hh)].
        intros p' (d' & Hin & Hwd & Hp'). exists d'. split; [now right|]. now split.
  - rewrite Hlen. pose proof (filter_length_le is_weekday (days_before today days)).
    lia.
  - intros H6. rewrite Hlen.
    destruct (weekend_in_six_days (DateFacts.valid_wf Hvalid)) as (k & Hk & Hwe).
    pose proof (@filter_length_lt _ is_weekday (days_before today days)
                  (Date.sub_days today k)
                  (@in_days_before today days k ltac:(lia)) Hwe).
    lia.
Qed.

End DemoHistory.

(* ================================================================= *)
(** ** Dictionaries *)

Module DictFacts.
Section DictFacts.
Variable V : Type.
Implicit Types (d : Dict.t V) (k : string) (v : V).

Lemma get_set_same k v d : Dict.get k (Dict.set k v d) = Some v.
Proof.
  induction d as [|[k' v'] d IH]; simpl.
  - now rewrite String.eqb_refl.
  - destruct (String.eqb k k') eqn:E; simpl; rewrite E; [reflexivity|exact IH].
Qed.

Lemma get_set_other k k' v d :
  k' <> k -> Dict.get k' (Dict.set k v d) = Dict.get k' d.
Proof.
  intros Hne. induction d as [|[k0 v0] d IH]; simpl.
  - apply String.eqb_neq in Hne. now rewrite Hne.
  - destruct (String.eqb k k0) eqn:E; simpl.
    + apply String.eqb_eq in E. subst k0. apply String.eqb_neq in Hne.
      now rewrite Hne.
    + now rewrite IH.
Qed.

Lemma mem_in_keys k d : Dict.mem k d = true <-> In k (Dict.keys d).
Proof.
  unfold Dict.mem. induction d as [|[k' v'] d IH]; simpl.
  - split; [discriminate|tauto].
  - destruct (String.eqb_spec k k') as [->|Hne].
    + split; auto.
    + rewrite IH. split; [auto|]. intros [E|H]; [congruence|exact H].
Qed.

Lemma mem_existsb k d : existsb (String.eqb k) (Dict.keys d) = Dict.mem k d.
Proof.
  unfold Dict.mem. induction d as [|[k' v'] d IH]; simpl; [reflexivity|].
  destruct (String.eqb k k'); [reflexivity|exact IH].
Qed.

(** Storing under a key keeps the keys in place and adds a new key
    at the end. *)
Lemma keys_set k v d :
  Dict.keys (Dict.set k v d)
  = if Dict.mem k d then Dict.keys d else Dict.keys d ++ [k].
Proof.
  unfold Dict.mem. induction d as [|[k' v'] d IH]; simpl; [reflexivity|].
  destruct (String.eqb k k') eqn:E; simpl; [reflexivity|].
  rewrite IH. now destruct (Dict.get k d).
Qed.

Lemma keys_set_nodup k v d :
  NoDup (Dict.keys d) -> NoDup (Dict.keys (Dict.set k v d)).
Proof.
  intros H. rewrite keys_set. destruct (Dict.mem k d) eqn:E; [exact H|].
  apply NoDup_app; [exact H|repeat constructor; tauto|].
  intros x Hx [<-|[]]. apply mem_in_keys in Hx. congruence.
Qed.

Lemma in_keys_set k k' v d :
  In k' (Dict.keys (Dict.set k v d)) <-> k' = k \/ In k' (Dict.keys d).
Proof.
  rewrite keys_set. destruct (Dict.mem k d) eqn:E.
  - apply mem_in_keys in E. split; [auto|]. intros [->|H]; assumption.
  - rewrite in_app_iff. simpl. intuition.
Qed.

Lemma is_empty_keys d : Dict.is_empty d = true <-> Dict.keys d = [].
Proof. destruct d; simpl; split; congruence. Qed.

End DictFacts.
End DictFacts.

(* ================================================================= *)
(** ** The loops of the orchestrator *)

Section Loops.
Context {RT : Runtime}.
Import DictFacts.

Lemma store_get (symbol : string) (outs : Outcomes) (d : Stocks) :
  Dict.get symbol (store outs d) = last_from symbol outs (Dict.get symbol d).
Proof.
  revert d. induction outs as [|[s [r|]] outs IH]; intros d; simpl;
    [reflexivity| |].
  - unfold store, last_from in *. simpl. rewrite IH. f_equal.
    destruct (String.eqb_spec symbol s) as [->|Hne].
    + apply get_set_same.
    + now apply get_set_other.
  - unfold store, last_from in *. simpl. rewrite IH.
    now destruct (String.eqb symbol s).
Qed.

Lemma store_keys_nodup (outs : Outcomes) (d : Stocks) :
  NoDup (Dict.keys d) -> NoDup (Dict.keys (store outs d)).
Proof.
  revert d. induction outs as [|[s [r|]] outs IH]; intros d H; simpl;
    [exact H| |]; unfold store in *; simpl; apply IH; [|exact H].
  now apply keys_set_nodup.
Qed.

Lemma store_in_keys (symbol : string) (outs : Outcomes) (d : Stocks) :
  In symbol (Dict.keys (store outs d))
  <-> In symbol (Dict.keys d) \/ exists r, In (symbol, Some r) outs.
Proof.
  revert d. induction outs as [|[s [r|]] outs IH]; intros d.
  - simpl. split; [auto|]. intros [H|[r []]]. exact H.
  - unfold store in *. simpl. rewrite IH, in_keys_set. split.
    + intros [[->|H]|[r' H]]; eauto.
    + intros [H|[r' [[= -> ->]|H]]]; eauto.
  - unfold store in *. simpl. rewrite IH. split.
    + intros [H|[r' H]]; eauto.
    + intros [H|[r' [[=]|H]]]; eauto.
Qed.

Lemma store_keys (outs : Outcomes) (d : Stocks) :
  Dict.keys (store outs d)
  = fold_left (fun acc so => match snd so with
                             | Some _ => if existsb (String.eqb (fst so)) acc
                                         then acc else acc ++ [fst so]
                             | None => acc
                             end) outs (Dict.keys d).
Proof.
  revert d. induction outs as [|[s [r|]] outs IH]; intros d;
    [reflexivity| |]; unfold store in *; simpl; rewrite IH; [|reflexivity].
  now rewrite keys_set, mem_existsb.
Qed.

Lemma live_step_eq (api_key symbol : string) (stocks : Stocks) (w : World) :
  live_step api_key symbol stocks w
  = match fetch_record api_key symbol w with
    | (Ok (Some r), w') => (Ok (Dict.set symbol r stocks), w')
    | (Ok None, w') => (Ok stocks, w')
    | (Raise e, w') => (Raise e, w')
    end.
Proof.
  unfold live_step, fetch_record, bind, print, ret.
  destruct (fetch_quote symbol api_key _) as [[[q|]|e] w1]; try reflexivity.
  destruct (fetch_daily_history symbol api_key "compact" w1) as [[h|e] w2];
    reflexivity.
Qed.

Lemma live_loop_outcomes (api_key : string) (symbols : list string)
  (stocks : Stocks) (w : World) :
  live_loop api_key symbols stocks w
  = match live_outcomes api_key symbols w with
    | (Ok outs, w') => (Ok (store outs stocks), w')
    | (Raise e, w') => (Raise e, w')
    end.
Proof.
  revert stocks w. induction symbols as [|s rest IH]; intros stocks w;
    [reflexivity|].
  cbn [live_loop live_outcomes]. unfold bind, ret. rewrite live_step_eq.
  destruct (fetch_record api_key s w) as [[[r|]|e] w1]; [| |reflexivity].
  - rewrite IH.
    destruct (live_outcomes api_key rest w1) as [[outs|e] w2]; reflexivity.
  - rewrite IH.
    destruct (live_outcomes api_key rest w1) as [[outs|e] w2]; reflexivity.
Qed.

Lemma demo_loop_outcomes (symbols : list string) (stocks : Stocks) (w : World) :
  demo_loop symbols stocks w
  = match demo_outcomes symbols w with
    | (Ok outs, w') => (Ok (store outs stocks), w')
    | (Raise e, w') => (Raise e, w')
    end.
Proof.
  revert stocks w. induction symbols as [|s rest IH]; intros stocks w;
    [reflexivity|].
  cbn [demo_loop demo_outcomes]. unfold bind, ret.
  destruct (demo_record s w) as [[r|e] w1]; [|reflexivity].
  rewrite IH.
  destruct (demo_outcomes rest w1) as [[outs|e] w2]; reflexivity.
Qed.

(** The mapping of [main] is the store of the outcomes of its turns. *)
Lemma collect_stocks_outcomes (api_key : string) (symbols : list string)
  (w : World) :
  collect_stocks api_key symbols w
  = match outcomes api_key symbols w with
    | (Ok outs, w') => (Ok (store outs []), w')
    | (Raise e, w') => (Raise e, w')
    end.
Proof.
  unfold collect_stocks, outcomes, generate_demo_data.
  destruct (String.eqb api_key "demo").
  - unfold bind, print. apply demo_loop_outcomes.
  - apply live_loop_outcomes.
Qed.

Lemma live_outcomes_symbols (api_key : string) (symbols : list string)
  (w w' : World) (outs : Outcomes) :
  live_outcomes api_key symbols w = (Ok outs, w') -> map fst outs = symbols.
Proof.
  revert w w' outs. induction symbols as [|s rest IH]; intros w w' outs.
  - now intros [= <- _].
  - cbn [live_outcomes]. unfold bind, ret.
    destruct (fetch_record api_key s w) as [[r|e] w1]; [|discriminate].
    destruct (live_outcomes api_key rest w1) as [[outs'|e] w2] eqn:E;
      [|discriminate].
    intros [= <- _]. simpl. f_equal. eapply IH; eauto.
Qed.

Lemma demo_outcomes_symbols (symbols : list string) (w w' : World)
  (outs : Outcomes) :
  demo_outcomes symbols w = (Ok outs, w') ->
  map fst outs = symbols /\ Forall (fun so => snd so <> None) outs.
Proof.
  revert w w' outs. induction symbols as [|s rest IH]; intros w w' outs.
  - intros [= <- _]. split; [reflexivity|constructor].
  - cbn [demo_outcomes]. unfold bind, ret.
    destruct (demo_record s w) as [[r|e] w1]; [|discriminate].
    destruct (demo_outcomes rest w1) as [[outs'|e] w2] eqn:E;
      [|discriminate].
    intros [= <- _]. destruct (IH _ _ _ E) as [Hm Hf]. simpl. split.
    + now rewrite Hm.
    + constructor; [discriminate|exact Hf].
Qed.

End Loops.

(* ================================================================= *)
(** ** The files *)

Section Files.
Context {RT : Runtime}.

Lemma keeps_ret A (a : A) : keeps_files (ret a).
Proof. intros w. reflexivity. Qed.

Lemma keeps_raise A (e : exn) : keeps_files (@raise _ A e).
Proof. intros w. reflexivity. Qed.

Lemma keeps_lift A (r : result A) : keeps_files (lift r).
Proof. intros w. reflexivity. Qed.

Lemma keeps_print (msg : Message) : keeps_files (print msg).
Proof. intros w. reflexivity. Qed.

Lemma keeps_now : keeps_files now.
Proof. intros w. reflexivity. Qed.

Lemma keeps_environ_get (name : string) : keeps_files (environ_get name).
Proof. intros w. reflexivity. Qed.

Lemma keeps_http (r : Request) : keeps_files (http_get_json r).
Proof. intros w. unfold http_get_json. now destruct (network w (sent w) r). Qed.

Lemma keeps_uniform (a b : float) : keeps_files (random_uniform a b).
Proof. intros w. unfold random_uniform. now destruct (uniform a b (random w)). Qed.

Lemma keeps_randint (a b : Z) : keeps_files (random_randint a b).
Proof. intros w. unfold random_randint. now destruct (randint a b (random w)). Qed.

Lemma keeps_bind A B (m : M A) (k : A -> M B) :
  keeps_files m -> (forall a, keeps_files (k a)) -> keeps_files (bind m k).
Proof.
  intros Hm Hk w. unfold bind. specialize (Hm w).
  destruct (m w) as [[a|e] w1]; simpl in *; [|exact Hm].
  now rewrite Hk.
Qed.

Lemma keeps_try A (m : M A) (h : exn -> option (M A)) :
  keeps_files m -> (forall e k, h e = Some k -> keeps_files k) ->
  keeps_files (try_except m h).
Proof.
  intros Hm Hh w. unfold try_except. specialize (Hm w).
  destruct (m w) as [[a|e] w1]; simpl in *; [exact Hm|].
  destruct (h e) as [k|] eqn:E; [|exact Hm].
  now rewrite (Hh _ _ E).
Qed.

End Files.

Create HintDb keeps.

#[local] Hint Resolve keeps_ret keeps_raise keeps_lift keeps_print keeps_now
  keeps_environ_get keeps_http keeps_uniform keeps_randint : keeps.

Ltac keeps :=
  repeat first
    [ progress auto with keeps
    | apply keeps_bind; [|intros]
    | match goal with
      | |- keeps_files (if ?b then _ else _) => destruct b
      | |- keeps_files (match ?x with _ => _ end) => destruct x
      | |- keeps_files (let (_, _) := ?x in _) => destruct x
      end ].

Section FilesOfProgram.
Context {RT : Runtime}.

Lemma keeps_fetch_quote (symbol api_key : string) :
  keeps_files (fetch_quote symbol api_key).
Proof.
  unfold fetch_quote. apply keeps_try.
  - unfold fetch_quote_body. keeps.
  - intros e k. unfold fetch_quote_handler.
    destruct e; intros [= <-]; keeps.
Qed.

Lemma keeps_fetch_daily_history (symbol api_key size : string) :
  keeps_files (fetch_daily_history symbol api_key size).
Proof.
  unfold fetch_daily_history. apply keeps_try.
  - unfold fetch_daily_history_body. keeps.
  - intros e k. unfold fetch_daily_history_handler.
    destruct e; intros [= <-]; keeps.
Qed.

Lemma keeps_fetch_record (api_key symbol : string) :
  keeps_files (fetch_record api_key symbol).
Proof.
  unfold fetch_record.
  pose proof (keeps_fetch_quote symbol api_key).
  pose proof (keeps_fetch_daily_history symbol api_key "compact").
  keeps.
Qed.

Lemma keeps_live_outcomes (api_key : string) (symbols : list string) :
  keeps_files (live_outcomes api_key symbols).
Proof.
  induction symbols as [|s rest IH]; cbn [live_outcomes]; [keeps|].
  pose proof (keeps_fetch_record api_key s). keeps.
Qed.

Lemma keeps_demo_history_loop (days : Z) (idx : list Z) (st : float * History) :
  keeps_files (demo_history_loop days idx st).
Proof.
  revert st. induction idx as [|i idx IH]; intros st; cbn [demo_history_loop];
    [keeps|].
  apply keeps_bind; [|intros; apply IH].
  unfold demo_history_step. keeps.
Qed.

Lemma keeps_demo_record (symbol : string) : keeps_files (demo_record symbol).
Proof.
  unfold demo_record, generate_demo_history.
  pose proof keeps_demo_history_loop. keeps.
Qed.

Lemma keeps_demo_outcomes (symbols : list string) :
  keeps_files (demo_outcomes symbols).
Proof.
  induction symbols as [|s rest IH]; cbn [demo_outcomes]; [keeps|].
  pose proof (keeps_demo_record s). keeps.
Qed.

(** The branch of [main] writes no file. *)
Lemma keeps_outcomes (api_key : string) (symbols : list string) :
  keeps_files (outcomes api_key symbols).
Proof.
  unfold outcomes.
  pose proof (keeps_demo_outcomes symbols).
  pose proof (keeps_live_outcomes api_key symbols).
  keeps.
Qed.

End FilesOfProgram.

(* ================================================================= *)
(** ** Orchestrator *)

Section Orchestrator.
Context {RT : Runtime}.
Import DictFacts.

(** [configure] returns in every world and leaves the content of the
    output file as it is. *)
Lemma configure_total (w : World) :
  exists api_key symbols w0,
    configure w = (Ok (api_key, symbols), w0)
    /\ output_file (files w0) = output_file (files w)
    /\ fst (get_symbols w) = Ok symbols
    /\ fst (get_api_key w) = Ok api_key.
Proof.
  unfold configure, bind, print, get_api_key, get_symbols, environ_get, bind,
    mkdir_data_dir, ret.
  cbn [environ set_stdout fst snd].
  destruct (environ w "ALPHA_VANTAGE_API_KEY") as [[|c k]|];
    do 3 eexists; repeat split; reflexivity.
Qed.

Lemma main_eq (w : World) :
  main w
  = match configure w with
    | (Ok (api_key, symbols), w0) =>
        match collect_stocks api_key symbols w0 with
        | (Ok stocks, w1) => finish stocks w1
        | (Raise e, w1) => (Raise e, w1)
        end
    | (Raise e, w0) => (Raise e, w0)
    end.
Proof.
  unfold main, configure, finish, bind, print, get_api_key, get_symbols,
    environ_get, bind, mkdir_data_dir, ret.
  cbn [environ set_stdout fst snd].
  destruct (environ w "ALPHA_VANTAGE_API_KEY") as [[|c k]|]; reflexivity.
Qed.

Lemma finish_empty (w : World) :
  finish [] w
  = (Raise (SystemExit 1), set_stdout (stdout w ++ [MsgNoDataFetched]) w).
Proof. reflexivity. Qed.

Lemma finish_written (stocks : Stocks) (w : World) :
  stocks <> [] ->
  exists w', finish stocks w = (Ok 0%Z, w')
             /\ output_file (files w') = Some (snapshot_of stocks w).
Proof.
  intros Hne. unfold finish. destruct stocks as [|kv stocks]; [congruence|].
  cbn [Dict.is_empty]. eexists. split; reflexivity.
Qed.

(** The status of the process and the output file after a run, from
    the mapping its branch leaves. *)
Lemma run_spec (w w0 : World) (api_key : string) (symbols : list string) :
  configure w = (Ok (api_key, symbols), w0) ->
  match collect_stocks api_key symbols w0 with
  | (Ok stocks, w1) =>
      if Dict.is_empty stocks
      then fst (run w) = 1%Z
           /\ output_file (files (snd (run w))) = output_file (files w)
      else fst (run w) = 0%Z
           /\ output_file (files (snd (run w))) = Some (snapshot_of stocks w1)
  | (Raise e, w1) =>
      fst (run w) = exit_status (Raise e)
      /\ output_file (files (snd (run w))) = output_file (files w)
  end.
Proof.
  intros Hconf.
  destruct (configure_total w) as (k & syms & w0' & Hc & Hfiles & _).
  rewrite Hconf in Hc. injection Hc as <- <- <-.
  pose proof (keeps_outcomes api_key symbols w0) as Hkeep.
  pose proof (collect_stocks_outcomes api_key symbols w0) as Hcol.
  unfold run, script, bind. rewrite main_eq, Hconf.
  destruct (outcomes api_key symbols w0) as [[outs|e] w1]; simpl in Hkeep;
    rewrite Hcol.
  - destruct (store outs []) as [|kv stocks] eqn:Es.
    + rewrite finish_empty. cbn. now rewrite Hkeep, Hfiles.
    + destruct (@finish_written (kv :: stocks) w1 ltac:(discriminate))
        as (w' & Hfin & Hout).
      rewrite Hfin. cbn. split; [reflexivity|exact Hout].
  - cbn. split; [reflexivity|now rewrite Hkeep, Hfiles].
Qed.

End Orchestrator.

Section Claims.
Context {RT : Runtime}.
Import DictFacts.

(** One turn in live mode: nothing is recorded exactly when the quote
    fetch returns the absent marker, and a record pairs the quote of
    the fetch with the history fetched next. *)
Lemma fetch_record_spec (api_key symbol : string) (w w' : World)
  (o : option StockRecord) :
  fetch_record api_key symbol w = (Ok o, w') ->
  let w1 := set_stdout (stdout w ++ [MsgFetching symbol]) w in
  match o with
  | None => fst (fetch_quote symbol api_key w1) = Ok None
  | Some r =>
      fst (fetch_quote symbol api_key w1) = Ok (Some (quote r))
      /\ fst (fetch_daily_history symbol api_key "compact"
                (snd (fetch_quote symbol api_key w1))) = Ok (history r)
  end.
Proof.
  unfold fetch_record, bind, print, ret. cbv zeta.
  destruct (fetch_quote symbol api_key _) as [[[q|]|e] w1]; try discriminate.
  - cbn [fst snd].
    destruct (fetch_daily_history symbol api_key "compact" w1) as [[h|e] w2];
      [|discriminate].
    intros [= <- _]. simpl. split; reflexivity.
  - intros [= <- _]. reflexivity.
Qed.

Lemma last_from_none (symbol : string) (outs : Outcomes) :
  (forall o, In (symbol, o) outs -> o = None) ->
  last_from symbol outs None = None.
Proof.
  unfold last_from. induction outs as [|[s o] outs IH]; intros H; simpl;
    [reflexivity|].
  destruct (String.eqb_spec symbol s) as [->|Hne].
  - rewrite (H o (or_introl eq_refl)). apply IH.
    intros o' Ho'. apply H. now right.
  - apply IH. intros o' Ho'. apply H. now right.
Qed.

Lemma live_outcomes_app (api_key : string) (pre post : list string)
  (w w1 : World) (outs : Outcomes) :
  live_outcomes api_key (pre ++ post) w = (Ok outs, w1) ->
  exists outs_pre outs_post w_mid,
    live_outcomes api_key pre w = (Ok outs_pre, w_mid)
    /\ live_outcomes api_key post w_mid = (Ok outs_post, w1)
    /\ outs = outs_pre ++ outs_post.
Proof.
  revert w outs. induction pre as [|s pre IH]; intros w outs H.
  - exists [], outs, w. now repeat split.
  - cbn [app live_outcomes] in *. unfold bind, ret in *.
    destruct (fetch_record api_key s w) as [[o|e] wa]; [|discriminate].
    destruct (live_outcomes api_key (pre ++ post) wa) as [[outs'|e] wb] eqn:E;
      [|discriminate].
    injection H as <- <-.
    destruct (IH wa outs' E) as (outs_pre & outs_post & w_mid & H1 & H2 & ->).
    exists ((s, o) :: outs_pre), outs_post, w_mid. rewrite H1.
    now repeat split.
Qed.

(** The turn of the symbol that stands after [pre] in the configured
    list: the world it starts in, and its outcome there. *)
Lemma live_outcomes_turn (api_key : string) (pre post : list string)
  (symbol : string) (w w1 : World) (outs : Outcomes) :
  live_outcomes api_key (pre ++ symbol :: post) w = (Ok outs, w1) ->
  exists outs_pre o outs_post w_a w_b,
    live_outcomes api_key pre w = (Ok outs_pre, w_a)
    /\ fetch_record api_key symbol w_a = (Ok o, w_b)
    /\ live_outcomes api_key post w_b = (Ok outs_post, w1)
    /\ outs = outs_pre ++ (symbol, o) :: outs_post.
Proof.
  intros H.
  destruct (@live_outcomes_app api_key pre (symbol :: post) w w1 outs H) as (outs_pre & outs_rest & w_a & H1 & H2 & ->).
  cbn [live_outcomes] in H2. unfold bind, ret in H2.
  destruct (fetch_record api_key symbol w_a) as [[o|e] w_b] eqn:E1; [|discriminate].
  destruct (live_outcomes api_key post w_b) as [[outs_post|e] w2] eqn:E2;
    [|discriminate].
  injection H2 as <- <-.
  exists outs_pre, o, outs_post, w_a, w_b. now repeat split.
Qed.

(** C1, as the code has it.  In live mode the mapping written holds
    the symbols that have a turn with a quote, and only them.  The
    turn of a configured symbol records nothing exactly when its quote
    fetch returns the absent marker, and otherwise pairs the quote
    with the history fetched next; a symbol all of whose turns record
    nothing is in neither the mapping nor the list of symbols written,
    and a symbol with a successful fetch is recorded with the quote
    and the history of its last successful turn. *)
Theorem live_mode_records (w w0 w1 : World) (api_key : string)
  (configured : list string) (outs : Outcomes)
  (Hconf : configure w = (Ok (api_key, configured), w0))
  (Hlive : api_key <> "demo")
  (Houts : live_outcomes api_key configured w0 = (Ok outs, w1)) :
  map fst outs = configured
  /\ collect_stocks api_key configured w0 = (Ok (store outs []), w1)
  /\ (forall pre s post, configured = pre ++ s :: post ->
      exists outs_pre o outs_post w_a w_b,
        live_outcomes api_key pre w0 = (Ok outs_pre, w_a)
        /\ fetch_record api_key s w_a = (Ok o, w_b)
        /\ outs = outs_pre ++ (s, o) :: outs_post
        /\ let w_a' := set_stdout (stdout w_a ++ [MsgFetching s]) w_a in
           match o with
           | None => fst (fetch_quote s api_key w_a') = Ok None
           | Some r =>
               fst (fetch_quote s api_key w_a') = Ok (Some (quote r))
               /\ fst (fetch_daily_history s api_key "compact"
                         (snd (fetch_quote s api_key w_a')))
                  = Ok (history r)
           end)
  /\ (forall s, In s (Dict.keys (store outs []))
                <-> exists r, In (s, Some r) outs)
  /\ (forall s, (forall o, In (s, o) outs -> o = None) ->
                ~ In s (Dict.keys (store outs []))
                /\ Dict.get s (store outs []) = None)
  /\ (forall s, Dict.get s (store outs []) = last_record s outs)
  /\ (store outs [] <> [] ->
      exists snap,
        output_file (files (snd (run w))) = Some snap
        /\ stocks snap = store outs []
        /\ symbols snap = Dict.keys (store outs [])).
Proof.
  assert (Hcol : collect_stocks api_key configured w0 = (Ok (store outs []), w1)).
  { rewrite collect_stocks_outcomes. unfold outcomes.
    apply String.eqb_neq in Hlive. now rewrite Hlive, Houts. }
  split; [eapply live_outcomes_symbols; eauto|].
  split; [exact Hcol|].
  split.
  { intros pre s post ->.
    destruct (@live_outcomes_turn api_key pre post s w0 w1 outs Houts)
      as (outs_pre & o & outs_post & w_a & w_b & H1 & H2 & _ & H4).
    exists outs_pre, o, outs_post, w_a, w_b.
    repeat split; try assumption. exact (fetch_record_spec _ _ _ H2). }
  split.
  { intros s. rewrite store_in_keys. simpl. tauto. }
  split.
  { intros s Hs. split.
    - rewrite store_in_keys. simpl. intros [[]|[r Hr]].
      specialize (Hs _ Hr). discriminate.
    - rewrite store_get. simpl. now apply last_from_none. }
  split.
  { intros s. now rewrite store_get. }
  intros Hne. pose proof (run_spec _ Hconf) as Hrun. rewrite Hcol in Hrun.
  destruct (store outs []) as [|kv st] eqn:Es; [congruence|].
  cbn [Dict.is_empty] in Hrun. destruct Hrun as [_ Hout].
  eexists. split; [exact Hout|]. split; reflexivity.
Qed.

(** C2.  When the mapping is empty after the branch of [main], the
    process ends with status 1 and the output file is as it was;
    otherwise the snapshot of the mapping is written and the status
    is 0. *)
Theorem exit_status_and_output (w w0 w1 : World) (api_key : string)
  (configured : list string) (mapping : Stocks)
  (Hconf : configure w = (Ok (api_key, configured), w0))
  (Hmap : collect_stocks api_key configured w0 = (Ok mapping, w1)) :
  (mapping = [] ->
   fst (run w) = 1%Z
   /\ output_file (files (snd (run w))) = output_file (files w))
  /\ (mapping <> [] ->
      fst (run w) = 0%Z
      /\ output_file (files (snd (run w))) = Some (snapshot_of mapping w1)
      /\ stocks (snapshot_of mapping w1) = mapping).
Proof.
  pose proof (run_spec _ Hconf) as Hrun. rewrite Hmap in Hrun. split.
  - intros ->. exact Hrun.
  - intros Hne. destruct mapping as [|kv st]; [congruence|].
    cbn [Dict.is_empty] in Hrun. destruct Hrun as [H1 H2]. now repeat split.
Qed.

(** C9.  In both modes the mapping written has one entry for each
    symbol recorded, however many times the symbol is configured: its
    keys, which are the list of symbols written, have no repetition,
    and the entry of a symbol is the record of its last turn that has
    one; in demo mode every configured symbol has its entry. *)
Theorem snapshot_symbols_unique (w w0 w1 : World) (api_key : string)
  (configured : list string) (outs : Outcomes)
  (Hconf : configure w = (Ok (api_key, configured), w0))
  (Houts : outcomes api_key configured w0 = (Ok outs, w1))
  (Hne : store outs [] <> []) :
  exists snap,
    output_file (files (snd (run w))) = Some snap
    /\ stocks snap = store outs []
    /\ symbols snap = Dict.keys (stocks snap)
    /\ NoDup (symbols snap)
    /\ (forall s, In s (symbols snap) ->
                  count_occ string_dec (Dict.keys (stocks snap)) s = 1)
    /\ map fst outs = configured
    /\ (forall s, In s (symbols snap) <-> exists r, In (s, Some r) outs)
    /\ (forall s, Dict.get s (stocks snap) = last_record s outs)
    /\ (api_key = "demo" ->
        forall s, In s configured <-> In s (symbols snap)).
Proof.
  pose proof (run_spec _ Hconf) as Hrun.
  rewrite collect_stocks_outcomes, Houts in Hrun.
  destruct (store outs []) as [|kv st] eqn:Es; [congruence|].
  cbn [Dict.is_empty] in Hrun. destruct Hrun as [_ Hout].
  assert (Hnd : NoDup (Dict.keys (store outs [])))
    by (apply store_keys_nodup; constructor).
  assert (Hin : forall s, In s (Dict.keys (store outs []))
                          <-> exists r, In (s, Some r) outs).
  { intros s. rewrite store_in_keys. simpl. tauto. }
  assert (Hsym : map fst outs = configured
                 /\ (api_key = "demo" -> Forall (fun so => snd so <> None) outs)).
  { unfold outcomes in Houts. destruct (String.eqb_spec api_key "demo") as [->|Hk].
    - unfold bind, print in Houts.
      destruct (demo_outcomes_symbols _ _ Houts) as [H1 H2]. now split.
    - split; [eapply live_outcomes_symbols; eauto|congruence]. }
  destruct Hsym as [Hsym Hdemo].
  eexists. split; [exact Hout|]. cbn [stocks symbols snapshot_of].
  rewrite <- Es.
  split; [reflexivity|]. split; [reflexivity|]. split; [exact Hnd|].
  split.
  { intros s Hs. apply NoDup_count_occ' with (decA := string_dec) in Hs; assumption. }
  split; [exact Hsym|]. split; [exact Hin|].
  split; [intros s; now rewrite store_get|].
  intros Hk s. specialize (Hdemo Hk). rewrite Hin, <- Hsym. split.
  - intros Hs. apply in_map_iff in Hs as ([s' o] & <- & Hso).
    rewrite Forall_forall in Hdemo. specialize (Hdemo _ Hso). simpl in *.
    destruct o as [r|]; [eauto|congruence].
  - intros [r Hr]. apply in_map_iff. exists (s, Some r). now split.
Qed.

End Claims.

(* ================================================================= *)
(** * Further properties *)

(** ** What the fetchers let through *)

Section Uncaught.
Context {RT : Runtime}.

Lemma py_in_raises (k : string) (x : json) (e : exn) :
  py_in k x = Raise e -> e = TypeError.
Proof. destruct x; simpl; intros [= <-]; reflexivity. Qed.

Lemma py_getitem_raises (x : json) (k : string) (e : exn) :
  py_getitem x k = Raise e -> e = KeyError \/ e = TypeError.
Proof.
  destruct x; simpl; try (intros [= <-]; tauto).
  destruct (Dict.get k d); [discriminate|intros [= <-]; tauto].
Qed.

Lemma py_items_raises (x : json) (e : exn) :
  py_items x = Raise e -> e = AttributeError.
Proof. destruct x; simpl; try (now intros [= <-]); discriminate. Qed.

(** What the body of the [try] of [fetch_quote] can raise. *)
Lemma fetch_quote_body_raises (symbol api_key : string) (w : World) (e : exn) :
  fst (fetch_quote_body symbol api_key w) = Raise e ->
  e = RequestException \/ e = KeyError \/ coercion_error e.
Proof.
  unfold fetch_quote_body, bind at 1, http_get_json.
  destruct (network w (sent w) _) as [|data]; [intros [= <-]; tauto|].
  unfold bind at 1. unfold lift at 1.
  destruct (py_in "Error Message" data) as [[|]|e0] eqn:E1.
  - unfold bind at 1. unfold lift at 1.
    destruct (py_getitem data "Error Message") as [v|e1] eqn:E2;
      [discriminate|].
    intros [= <-]. apply py_getitem_raises in E2.
    unfold coercion_error. tauto.
  - unfold bind at 1. unfold lift at 1.
    destruct (py_in "Note" data) as [[|]|e1] eqn:E2.
    + discriminate.
    + unfold bind at 1. unfold lift at 1.
      destruct (py_get data "Global Quote" (JObj [])) as [q|e2] eqn:E3.
      * destruct (negb (py_truthy q)); [discriminate|].
        unfold bind, lift. destruct (build_quote symbol q) eqn:E4; [discriminate|].
        intros [= <-]. apply build_quote_raises in E4. tauto.
      * intros [= <-]. apply py_get_raises in E3. unfold coercion_error. tauto.
    + intros [= <-]. apply py_in_raises in E2. unfold coercion_error. tauto.
  - intros [= <-]. apply py_in_raises in E1. unfold coercion_error. tauto.
Qed.

Lemma fetch_quote_raises (symbol api_key : string) (w : World) (e : exn) :
  fst (fetch_quote symbol api_key w) = Raise e -> uncaught e.
Proof.
  destruct (fetch_quote_body symbol api_key w) as [rb wb] eqn:Hb.
  rewrite (fetch_quote_of_body _ _ _ Hb).
  destruct rb as [o|e']; [discriminate|].
  pose proof (fetch_quote_body_raises symbol api_key w) as Hr.
  rewrite Hb in Hr. specialize (Hr e' eq_refl).
  unfold uncaught, coercion_error in *.
  destruct Hr as [-> | [-> | [-> | [-> | [-> | ->]]]]]; simpl;
    try discriminate; intros [= <-]; tauto.
Qed.

Lemma history_point_raises (date_str : string) (values : json) (e : exn) :
  history_point date_str values = Raise e -> coercion_error e.
Proof.
  unfold history_point.
  repeat match goal with
  | |- rbind ?r _ = Raise _ -> _ =>
      let E := fresh "E" in
      destruct r eqn:E; cbn [rbind];
      [|intros [= <-];
        first [ apply float_field_raises in E; exact E
              | apply int_field_raises in E; exact E ]]
  end.
  discriminate.
Qed.

Lemma history_loop_raises (items : list (string * json)) (acc : History)
  (e : exn) :
  history_loop items acc = Raise e -> coercion_error e.
Proof.
  revert acc. induction items as [|[k v] items IH]; intros acc; simpl;
    [discriminate|].
  destruct (history_point k v) eqn:E; cbn [rbind].
  - apply IH.
  - intros [= <-]. now apply history_point_raises in E.
Qed.

(** What the body of the [try] of [fetch_daily_history] returns. *)
Lemma fetch_daily_history_body_eq (symbol api_key size : string) (w : World) :
  fetch_daily_history_body symbol api_key size w
  = (match next_response w (history_request symbol api_key size) with
     | Failed => Raise RequestException
     | Body data =>
         (has_error <~ py_in "Error Message" data ;;
          if has_error : bool then Ok []
          else has_note <~ py_in "Note" data ;;
               if has_note : bool then Ok []
               else time_series <~ py_get data "Time Series (Daily)" (JObj []) ;;
                    items <~ py_items time_series ;;
                    history_loop (sorted_items items) [])%result
     end, set_sent (S (sent w)) w).
Proof.
  unfold fetch_daily_history_body, next_response, history_request,
    bind at 1, http_get_json.
  destruct (network w (sent w) _) as [|data]; [reflexivity|].
  unfold bind at 1. unfold lift at 1.
  destruct (py_in "Error Message" data) as [[|]|e0]; try reflexivity.
  unfold bind at 1. unfold lift at 1. cbn [rbind].
  destruct (py_in "Note" data) as [[|]|e1]; try reflexivity.
  unfold bind at 1. unfold lift at 1. cbn [rbind].
  destruct (py_get data "Time Series (Daily)" (JObj [])) as [ts|e2];
    try reflexivity.
  unfold bind at 1. unfold lift at 1. cbn [rbind].
  destruct (py_items ts) as [items|e3]; reflexivity.
Qed.

(** The value of [fetch_daily_history] from the one of its body:
    nothing is printed on either path. *)
Lemma fetch_daily_history_of_body (symbol api_key size : string)
  (w w' : World) (r : result History) :
  fetch_daily_history_body symbol api_key size w = (r, w') ->
  fetch_daily_history symbol api_key size w
  = (match r with
     | Raise RequestException | Raise ValueError | Raise KeyError => Ok []
     | _ => r
     end, w').
Proof.
  intros H. unfold fetch_daily_history, try_except. rewrite H.
  destruct r as [h|[]]; reflexivity.
Qed.

End Uncaught.

Section HistoryFailures.
Context {RT : Runtime}.

(** X1.  [fetch_daily_history] returns the empty history, and prints
    nothing, when the request fails, when the body has an error
    message or a note, when it has no time series and when a number
    of a bar does not convert ([ValueError]); it sends one request in
    every case.  It is not silent on every body: a bar that is not an
    object makes it raise [AttributeError], and what it raises at all
    is [TypeError], [AttributeError] or [OverflowError]. *)
Theorem fetch_daily_history_empty_cases (symbol api_key size : string)
  (w : World) :
  let r := fetch_daily_history symbol api_key size w in
  let resp := next_response w (history_request symbol api_key size) in
  (resp = Failed -> fst r = Ok [])
  /\ (forall d, resp = Body (JObj d) ->
        Dict.mem "Error Message" d = true -> fst r = Ok [])
  /\ (forall d, resp = Body (JObj d) ->
        Dict.mem "Note" d = true -> fst r = Ok [])
  /\ (forall d, resp = Body (JObj d) ->
        Dict.get "Time Series (Daily)" d = None -> fst r = Ok [])
  /\ (forall d ts, resp = Body (JObj d) ->
        Dict.mem "Error Message" d = false ->
        Dict.mem "Note" d = false ->
        Dict.get "Time Series (Daily)" d = Some (JObj ts) ->
        history_loop (sorted_items ts) [] = Raise ValueError ->
        fst r = Ok [])
  /\ (forall d date bar, resp = Body (JObj d) ->
        Dict.mem "Error Message" d = false ->
        Dict.mem "Note" d = false ->
        Dict.get "Time Series (Daily)" d = Some (JObj [(date, bar)]) ->
        (forall fields, bar <> JObj fields) ->
        fst r = Raise AttributeError)
  /\ (forall e, fst r = Raise e -> uncaught e)
  /\ stdout (snd r) = stdout w
  /\ sent (snd r) = S (sent w).
Proof.
  cbv zeta.
  pose proof (fetch_daily_history_body_eq symbol api_key size w) as Hb.
  pose proof (fetch_daily_history_of_body _ _ _ _ Hb) as Hf.
  rewrite Hf. cbn [fst snd]. clear Hb Hf.
  repeat apply conj.
  - intros ->. reflexivity.
  - intros d -> He. simpl. now rewrite He.
  - intros d -> Hn. simpl. rewrite Hn.
    now destruct (Dict.mem "Error Message" d).
  - intros d -> Hts. simpl. rewrite Hts.
    destruct (Dict.mem "Error Message" d); [reflexivity|].
    now destruct (Dict.mem "Note" d).
  - intros d ts -> He Hn Hts Hloop. simpl. rewrite He, Hn, Hts. cbn [rbind].
    simpl py_items. cbn [rbind]. now rewrite Hloop.
  - intros d date bar -> He Hn Hts Hbar. simpl. rewrite He, Hn, Hts.
    cbn [rbind py_items sorted_items fold_left insert_item history_loop].
    unfold history_point, float_field.
    destruct bar; try reflexivity. now elim (Hbar d0).
  - intros e.
    destruct (next_response w (history_request symbol api_key size))
      as [|data]; [discriminate|].
    destruct (py_in "Error Message" data) as [[|]|e0] eqn:E1; cbn [rbind].
    + discriminate.
    + destruct (py_in "Note" data) as [[|]|e1] eqn:E2; cbn [rbind].
      * discriminate.
      * destruct (py_get data "Time Series (Daily)" (JObj [])) as [ts|e2] eqn:E3;
          cbn [rbind].
        -- destruct (py_items ts) as [items|e3] eqn:E4; cbn [rbind].
           ++ destruct (history_loop (sorted_items items) []) as [h|e4] eqn:E5;
                [discriminate|].
              apply history_loop_raises in E5. unfold coercion_error, uncaught in *.
              destruct E5 as [-> | [-> | [-> | ->]]]; try discriminate;
                intros [= <-]; tauto.
           ++ apply py_items_raises in E4. subst e3. intros [= <-].
              unfold uncaught. tauto.
        -- apply py_get_raises in E3. subst e2. intros [= <-].
           unfold uncaught. tauto.
      * apply py_in_raises in E2. subst e1. intros [= <-]. unfold uncaught. tauto.
    + apply py_in_raises in E1. subst e0. intros [= <-]. unfold uncaught. tauto.
  - reflexivity.
  - reflexivity.
Qed.

(** X2.  The point built for a date and a bar that is an object
    carries the date, and for each of its five numbers the conversion
    of the field of the bar, 0.0 (0 for the volume) when the bar omits
    the field; a bar that is not an object gives [AttributeError]. *)
Theorem history_point_fields (date_str : string) (bar : list (string * json))
  (p : HistoryPoint)
  (Hp : history_point date_str (JObj bar) = Ok p) :
  h_date p = date_str
  /\ Ok (h_open p) = match Dict.get "1. open" bar with
                     | Some v => py_float v
                     | None => Ok (float_lit 0 0)
                     end
  /\ Ok (h_high p) = match Dict.get "2. high" bar with
                     | Some v => py_float v
                     | None => Ok (float_lit 0 0)
                     end
  /\ Ok (h_low p) = match Dict.get "3. low" bar with
                    | Some v => py_float v
                    | None => Ok (float_lit 0 0)
                    end
  /\ Ok (h_close p) = match Dict.get "4. close" bar with
                      | Some v => py_float v
                      | None => Ok (float_lit 0 0)
                      end
  /\ Ok (h_volume p) = match Dict.get "5. volume" bar with
                       | Some v => py_int v
                       | None => Ok 0%Z
                       end
  /\ (forall x, (forall fields, x <> JObj fields) ->
                history_point date_str x = Raise AttributeError).
Proof.
  unfold history_point in Hp.
  repeat match type of Hp with
  | rbind _ _ = Ok _ =>
      let a := fresh "a" in let E := fresh "E" in
      apply rbind_ok in Hp as (a & E & Hp)
  end.
  injection Hp as <-. cbn [h_date h_open h_high h_low h_close h_volume].
  rewrite <- !float_field_obj, <- int_field_obj.
  repeat split; try (symmetry; assumption).
  intros x Hx. unfold history_point, float_field.
  destruct x; try reflexivity. now elim (Hx d).
Qed.

End HistoryFailures.

(* ================================================================= *)
(** ** What a computation leaves alone *)

Section Keeps.
Context {RT : Runtime}.
Variable B : Type.
Variable part : World -> B.

Lemma keeps_part_ret A (a : A) : keeps part (ret a).
Proof. intros w. reflexivity. Qed.

Lemma keeps_part_raise A (e : exn) : keeps part (@raise _ A e).
Proof. intros w. reflexivity. Qed.

Lemma keeps_part_lift A (r : result A) : keeps part (lift r).
Proof. intros w. reflexivity. Qed.

Lemma keeps_part_environ_get (name : string) : keeps part (environ_get name).
Proof. intros w. reflexivity. Qed.

Lemma keeps_part_bind A C (m : M A) (k : A -> M C) :
  keeps part m -> (forall a, keeps part (k a)) -> keeps part (bind m k).
Proof.
  intros Hm Hk w. unfold bind. specialize (Hm w).
  destruct (m w) as [[a|e] w1]; simpl in *; [|exact Hm].
  now rewrite Hk.
Qed.

Lemma keeps_part_try A (m : M A) (h : exn -> option (M A)) :
  keeps part m -> (forall e k, h e = Some k -> keeps part k) ->
  keeps part (try_except m h).
Proof.
  intros Hm Hh w. unfold try_except. specialize (Hm w).
  destruct (m w) as [[a|e] w1]; simpl in *; [exact Hm|].
  destruct (h e) as [k|] eqn:E; [|exact Hm].
  now rewrite (Hh _ _ E).
Qed.

End Keeps.

(** A primitive leaves a part alone by computation. *)
Ltac keeps_prim :=
  let w := fresh "w" in
  intros w;
  unfold http_get_json, random_uniform, random_randint, now, print,
    environ_get;
  repeat match goal with
         | |- context [match ?x with _ => _ end] => destruct x
         end;
  reflexivity.

Ltac keeps_part :=
  repeat first
    [ assumption
    | apply keeps_part_bind; [|intros]
    | apply keeps_part_ret
    | apply keeps_part_raise
    | apply keeps_part_lift
    | match goal with
      | |- keeps _ (if ?b then _ else _) => destruct b
      | |- keeps _ (match ?x with _ => _ end) => destruct x
      end
    | solve [keeps_prim] ].

Section KeepsOfProgram.
Context {RT : Runtime}.

(** The fetchers read no clock and draw no random number. *)
Lemma fetch_quote_keeps B (part : World -> B) (symbol api_key : string) :
  (forall n w, part (set_sent n w) = part w) ->
  (forall out w, part (set_stdout out w) = part w) ->
  keeps part (fetch_quote symbol api_key).
Proof.
  intros Hsent Hout.
  assert (Hhttp : forall r, keeps part (http_get_json r)).
  { intros r w. unfold http_get_json.
    destruct (network w (sent w) r); apply Hsent. }
  assert (Hprint : forall msg, keeps part (print msg))
    by (intros msg w; apply Hout).
  unfold fetch_quote. apply keeps_part_try.
  - unfold fetch_quote_body.
    repeat first
      [ apply keeps_part_bind; [|intros]
      | apply keeps_part_ret | apply keeps_part_lift
      | apply Hhttp | apply Hprint
      | match goal with
        | |- keeps _ (if ?b then _ else _) => destruct b
        end ].
  - intros e k. unfold fetch_quote_handler.
    destruct e; intros [= <-];
      (apply keeps_part_bind; [apply Hprint|intros; apply keeps_part_ret]).
Qed.

Lemma fetch_daily_history_keeps B (part : World -> B)
  (symbol api_key size : string) :
  (forall n w, part (set_sent n w) = part w) ->
  keeps part (fetch_daily_history symbol api_key size).
Proof.
  intros Hsent w.
  pose proof (fetch_daily_history_body_eq symbol api_key size w) as Hb.
  rewrite (fetch_daily_history_of_body _ _ _ _ Hb). apply Hsent.
Qed.

Lemma fetch_record_keeps B (part : World -> B) (api_key symbol : string) :
  (forall n w, part (set_sent n w) = part w) ->
  (forall out w, part (set_stdout out w) = part w) ->
  keeps part (fetch_record api_key symbol).
Proof.
  intros Hsent Hout.
  pose proof (fetch_quote_keeps part symbol api_key Hsent Hout).
  pose proof (fetch_daily_history_keeps part symbol api_key "compact" Hsent).
  assert (Hprint : forall msg, keeps part (print msg))
    by (intros msg w; apply Hout).
  unfold fetch_record.
  repeat first
    [ assumption
    | apply keeps_part_bind; [|intros]
    | apply keeps_part_ret | apply Hprint
    | match goal with
      | |- keeps _ (match ?x with _ => _ end) => destruct x
      end ].
Qed.

Lemma live_outcomes_keeps B (part : World -> B) (api_key : string)
  (symbols : list string) :
  (forall n w, part (set_sent n w) = part w) ->
  (forall out w, part (set_stdout out w) = part w) ->
  keeps part (live_outcomes api_key symbols).
Proof.
  intros Hsent Hout.
  induction symbols as [|s rest IH]; cbn [live_outcomes].
  - apply keeps_part_ret.
  - pose proof (fetch_record_keeps part api_key s Hsent Hout).
    keeps_part.
Qed.

(** The synthetic generator sends no request. *)
Lemma demo_history_loop_keeps B (part : World -> B) (days : Z) (idx : list Z)
  (st : float * History) :
  (forall n w, part (set_ticks n w) = part w) ->
  (forall g w, part (set_random g w) = part w) ->
  keeps part (demo_history_loop days idx st).
Proof.
  intros Hticks Hrandom.
  assert (Hnow : keeps part now) by (intros w; apply Hticks).
  assert (Hu : forall a b, keeps part (random_uniform a b)).
  { intros a b w. unfold random_uniform.
    destruct (uniform a b (random w)). apply Hrandom. }
  assert (Hr : forall a b, keeps part (random_randint a b)).
  { intros a b w. unfold random_randint.
    destruct (randint a b (random w)). apply Hrandom. }
  revert st. induction idx as [|i idx IH]; intros st; cbn [demo_history_loop].
  - apply keeps_part_ret.
  - apply keeps_part_bind; [|intros; apply IH].
    unfold demo_history_step. destruct st as [price history].
    repeat first
      [ apply keeps_part_bind; [|intros]
      | apply keeps_part_ret | apply keeps_part_lift
      | apply Hnow | apply Hu | apply Hr
      | match goal with
        | |- keeps _ (if ?b then _ else _) => destruct b
        end ].
Qed.

Lemma demo_record_keeps B (part : World -> B) (symbol : string) :
  (forall n w, part (set_ticks n w) = part w) ->
  (forall g w, part (set_random g w) = part w) ->
  keeps part (demo_record symbol).
Proof.
  intros Hticks Hrandom.
  assert (Hnow : keeps part now) by (intros w; apply Hticks).
  assert (Hu : forall a b, keeps part (random_uniform a b)).
  { intros a b w. unfold random_uniform.
    destruct (uniform a b (random w)). apply Hrandom. }
  assert (Hr : forall a b, keeps part (random_randint a b)).
  { intros a b w. unfold random_randint.
    destruct (randint a b (random w)). apply Hrandom. }
  pose proof (fun days idx st =>
                demo_history_loop_keeps part days idx st Hticks Hrandom) as Hl.
  unfold demo_record, generate_demo_history.
  repeat first
    [ apply Hl | apply Hnow | apply Hu | apply Hr | apply keeps_part_ret
    | apply keeps_part_bind; [|intros] ].
Qed.

Lemma demo_outcomes_keeps B (part : World -> B) (symbols : list string) :
  (forall n w, part (set_ticks n w) = part w) ->
  (forall g w, part (set_random g w) = part w) ->
  keeps part (demo_outcomes symbols).
Proof.
  intros Hticks Hrandom.
  induction symbols as [|s rest IH]; cbn [demo_outcomes].
  - apply keeps_part_ret.
  - pose proof (demo_record_keeps part s Hticks Hrandom).
    keeps_part.
Qed.

End KeepsOfProgram.

(* ================================================================= *)
(** ** Requests *)

Section Requests.
Context {RT : Runtime}.

Lemma fetch_quote_sent (symbol api_key : string) (w : World) :
  sent (snd (fetch_quote symbol api_key w)) = S (sent w).
Proof.
  assert (Hbody : sent (snd (fetch_quote_body symbol api_key w)) = S (sent w)).
  { unfold fetch_quote_body, bind at 1, http_get_json.
    destruct (network w (sent w) _) as [|data]; [reflexivity|].
    match goal with
    | |- sent (snd (?m ?w1)) = _ =>
        assert (Hk : keeps sent m);
        [|rewrite (Hk w1); reflexivity]
    end.
    repeat first
      [ apply keeps_part_ret | apply keeps_part_lift
      | solve [intros w1; reflexivity]
      | apply keeps_part_bind; [|intros]
      | match goal with
        | |- keeps _ (if ?b then _ else _) => destruct b
        end ]. }
  destruct (fetch_quote_body symbol api_key w) as [rb wb] eqn:Hb.
  rewrite (fetch_quote_of_body _ _ _ Hb). simpl in Hbody.
  destruct rb as [o|[]]; simpl; assumption.
Qed.

Lemma fetch_daily_history_sent (symbol api_key size : string) (w : World) :
  sent (snd (fetch_daily_history symbol api_key size w)) = S (sent w).
Proof.
  pose proof (fetch_daily_history_body_eq symbol api_key size w) as Hb.
  now rewrite (fetch_daily_history_of_body _ _ _ _ Hb).
Qed.

(** A turn sends the quote request, and the history request when
    the quote is there. *)
Lemma fetch_record_sent (api_key symbol : string) (w w' : World)
  (o : option StockRecord) :
  fetch_record api_key symbol w = (Ok o, w') ->
  sent w' = sent w + 1 + (if has_record (symbol, o) then 1 else 0).
Proof.
  unfold fetch_record, bind, print, ret.
  pose proof (fetch_quote_sent symbol api_key
                (set_stdout (stdout w ++ [MsgFetching symbol]) w)) as Hq.
  destruct (fetch_quote symbol api_key _) as [[[q|]|e] w1]; try discriminate;
    simpl in Hq.
  - pose proof (fetch_daily_history_sent symbol api_key "compact" w1) as Hh.
    destruct (fetch_daily_history symbol api_key "compact" w1) as [[h|e] w2];
      [|discriminate].
    intros [= <- <-]. simpl in *. lia.
  - intros [= <- <-]. simpl. lia.
Qed.

(** X4.  A live loop that ends sends one request for each configured
    symbol and one more for each turn that has a quote, so at most
    two for each symbol; it reads no clock and draws no random
    number. *)
Theorem live_request_count (api_key : string) (configured : list string)
  (w w' : World) (outs : Outcomes)
  (Houts : live_outcomes api_key configured w = (Ok outs, w')) :
  sent w' = sent w + List.length configured
            + List.length (filter has_record outs)
  /\ sent w' <= sent w + 2 * List.length configured
  /\ random w' = random w
  /\ ticks w' = ticks w.
Proof.
  assert (Hcount : sent w' = sent w + List.length configured
                             + List.length (filter has_record outs)).
  { revert w outs Houts. induction configured as [|s rest IH]; intros w outs.
    - intros [= <- <-]. simpl. lia.
    - cbn [live_outcomes]. unfold bind, ret.
      destruct (fetch_record api_key s w) as [[o|e] w1] eqn:E1; [|discriminate].
      destruct (live_outcomes api_key rest w1) as [[outs'|e] w2] eqn:E2;
        [|discriminate].
      intros [= <- <-]. apply fetch_record_sent in E1.
      rewrite (IH _ _ E2), E1. cbn [filter List.length].
      destruct (has_record (s, o)); simpl; lia. }
  assert (Hlen : List.length (filter has_record outs) <= List.length configured).
  { rewrite <- (live_outcomes_symbols _ _ _ Houts), length_map.
    apply filter_length_le. }
  split; [exact Hcount|]. split; [lia|].
  pose proof (@live_outcomes_keeps _ _ random api_key configured
                ltac:(reflexivity) ltac:(reflexivity) w) as Hr.
  pose proof (@live_outcomes_keeps _ _ ticks api_key configured
                ltac:(reflexivity) ltac:(reflexivity) w) as Ht.
  rewrite Houts in Hr, Ht. now split.
Qed.

(** X3.  A quote whose history cannot be fetched is kept: when the
    history request fails, or its body has an error message, a note
    or no time series, the turn stores the quote with the empty
    history. *)
Theorem quote_kept_without_history (api_key symbol : string)
  (mapping : Stocks) (w w2 : World) (q : Quote)
  (Hquote : fetch_quote symbol api_key
              (set_stdout (stdout w ++ [MsgFetching symbol]) w)
            = (Ok (Some q), w2))
  (Hhistory :
     let resp := next_response w2 (history_request symbol api_key "compact") in
     resp = Failed
     \/ exists d, resp = Body (JObj d)
                  /\ (Dict.mem "Error Message" d = true
                      \/ Dict.mem "Note" d = true
                      \/ Dict.get "Time Series (Daily)" d = None)) :
  exists mapping',
    fst (live_step api_key symbol mapping w) = Ok mapping'
    /\ mapping' = Dict.set symbol (mkRecord q []) mapping
    /\ Dict.get symbol mapping' = Some (mkRecord q [])
    /\ (forall s, s <> symbol -> Dict.get s mapping' = Dict.get s mapping).
Proof.
  assert (Hh : fst (fetch_daily_history symbol api_key "compact" w2) = Ok []).
  { pose proof (fetch_daily_history_body_eq symbol api_key "compact" w2) as Hb.
    rewrite (fetch_daily_history_of_body _ _ _ _ Hb). cbn [fst].
    cbv zeta in Hhistory. destruct Hhistory as [->|(d & -> & [He|[Hn|Hts]])].
    - reflexivity.
    - simpl. now rewrite He.
    - simpl. rewrite Hn. now destruct (Dict.mem "Error Message" d).
    - simpl. rewrite Hts. destruct (Dict.mem "Error Message" d); [reflexivity|].
      now destruct (Dict.mem "Note" d). }
  exists (Dict.set symbol (mkRecord q []) mapping).
  split.
  - unfold live_step, bind, print, ret. rewrite Hquote.
    destruct (fetch_daily_history symbol api_key "compact" w2) as [r w3].
    simpl in Hh. now rewrite Hh.
  - split; [reflexivity|]. split.
    + apply DictFacts.get_set_same.
    + intros s Hs. now apply DictFacts.get_set_other.
Qed.

End Requests.

(* ================================================================= *)
(** ** Exceptions of the loops *)

Section Raises.
Context {RT : Runtime}.
Variable P : exn -> Prop.

Lemma raises_ret A (a : A) : raises_only P (ret a).
Proof. intros w e. discriminate. Qed.

Lemma raises_print (msg : Message) : raises_only P (print msg).
Proof. intros w e. discriminate. Qed.

Lemma raises_now : raises_only P now.
Proof. intros w e. discriminate. Qed.

Lemma raises_uniform (a b : float) : raises_only P (random_uniform a b).
Proof.
  intros w e. unfold random_uniform. destruct (uniform a b (random w)).
  discriminate.
Qed.

Lemma raises_randint (a b : Z) : raises_only P (random_randint a b).
Proof.
  intros w e. unfold random_randint. destruct (randint a b (random w)).
  discriminate.
Qed.

Lemma raises_lift A (r : result A) :
  (forall e, r = Raise e -> P e) -> raises_only P (lift r).
Proof. intros H w e. apply H. Qed.

Lemma raises_bind A B (m : M A) (k : A -> M B) :
  raises_only P m -> (forall a, raises_only P (k a)) ->
  raises_only P (bind m k).
Proof.
  intros Hm Hk w e. unfold bind. specialize (Hm w).
  destruct (m w) as [[a|e'] w1]; simpl in *; [apply Hk|].
  intros [= <-]. now apply Hm.
Qed.

End Raises.

Section RaisesOfProgram.
Context {RT : Runtime}.

Lemma fetch_daily_history_raises (symbol api_key size : string) :
  raises_only uncaught (fetch_daily_history symbol api_key size).
Proof.
  intros w e.
  pose proof (fetch_daily_history_body_eq symbol api_key size w) as Hb.
  rewrite (fetch_daily_history_of_body _ _ _ _ Hb). cbn [fst].
  destruct (next_response w (history_request symbol api_key size))
    as [|data]; [discriminate|].
  destruct (py_in "Error Message" data) as [[|]|e0] eqn:E1; cbn [rbind].
  - discriminate.
  - destruct (py_in "Note" data) as [[|]|e1] eqn:E2; cbn [rbind].
    + discriminate.
    + destruct (py_get data "Time Series (Daily)" (JObj [])) as [ts|e2] eqn:E3;
        cbn [rbind].
      * destruct (py_items ts) as [items|e3] eqn:E4; cbn [rbind].
        -- destruct (history_loop (sorted_items items) []) as [h|e4] eqn:E5;
             [discriminate|].
           apply history_loop_raises in E5. unfold coercion_error, uncaught in *.
           destruct E5 as [-> | [-> | [-> | ->]]]; try discriminate;
             intros [= <-]; tauto.
        -- apply py_items_raises in E4. subst e3. intros [= <-].
           unfold uncaught. tauto.
      * apply py_get_raises in E3. subst e2. intros [= <-].
        unfold uncaught. tauto.
    + apply py_in_raises in E2. subst e1. intros [= <-]. unfold uncaught. tauto.
  - apply py_in_raises in E1. subst e0. intros [= <-]. unfold uncaught. tauto.
Qed.

Lemma fetch_record_raises (api_key symbol : string) :
  raises_only uncaught (fetch_record api_key symbol).
Proof.
  unfold fetch_record.
  apply raises_bind; [apply raises_print|intros _].
  apply raises_bind; [intros w e; apply fetch_quote_raises|intros [q|]].
  - apply raises_bind; [apply fetch_daily_history_raises|intros h].
    apply raises_bind; [apply raises_print|intros _; apply raises_ret].
  - apply raises_bind; [apply raises_print|intros _; apply raises_ret].
Qed.

Lemma live_outcomes_raises (api_key : string) (symbols : list string) :
  raises_only uncaught (live_outcomes api_key symbols).
Proof.
  induction symbols as [|s rest IH]; cbn [live_outcomes].
  - apply raises_ret.
  - apply raises_bind; [apply fetch_record_raises|intros r].
    apply raises_bind; [exact IH|intros outs; apply raises_ret].
Qed.

Lemma sub_timedelta_raises (d : Date.t) (k : Z) (e : exn) :
  sub_timedelta d k = Raise e -> e = OverflowError.
Proof.
  unfold sub_timedelta. destruct (1 <=? _)%Z; [discriminate|now intros [= <-]].
Qed.

Lemma demo_history_loop_raises (days : Z) (idx : list Z) (st : float * History) :
  raises_only (fun e => e = OverflowError) (demo_history_loop days idx st).
Proof.
  revert st. induction idx as [|i idx IH]; intros st; cbn [demo_history_loop].
  - apply raises_ret.
  - apply raises_bind; [|intros; apply IH].
    unfold demo_history_step. destruct st as [price history].
    repeat first
      [ apply raises_ret | apply raises_now | apply raises_uniform
      | apply raises_randint
      | apply raises_lift; apply sub_timedelta_raises
      | apply raises_bind; [|intros]
      | match goal with
        | |- raises_only _ (if ?b then _ else _) => destruct b
        end ].
Qed.

Lemma demo_record_raises (symbol : string) :
  raises_only (fun e => e = OverflowError) (demo_record symbol).
Proof.
  unfold demo_record, generate_demo_history.
  repeat first
    [ apply demo_history_loop_raises
    | apply raises_ret | apply raises_now | apply raises_uniform
    | apply raises_randint
    | apply raises_bind; [|intros] ].
Qed.

Lemma demo_outcomes_raises (symbols : list string) :
  raises_only (fun e => e = OverflowError) (demo_outcomes symbols).
Proof.
  induction symbols as [|s rest IH]; cbn [demo_outcomes].
  - apply raises_ret.
  - apply raises_bind; [apply demo_record_raises|intros r].
    apply raises_bind; [exact IH|intros outs; apply raises_ret].
Qed.

(** What the branch of [main] can raise. *)
Lemma outcomes_raises (api_key : string) (symbols : list string) :
  raises_only uncaught (outcomes api_key symbols).
Proof.
  unfold outcomes. destruct (String.eqb api_key "demo").
  - apply raises_bind; [apply raises_print|intros _].
    intros w e H. apply demo_outcomes_raises in H. subst e.
    unfold uncaught. tauto.
  - apply live_outcomes_raises.
Qed.

End RaisesOfProgram.

(* ================================================================= *)
(** ** The run as a whole *)

Section Run.
Context {RT : Runtime}.

(** [configure] creates the data directory, sends no request and
    keeps the output file. *)
Lemma configure_world (w w0 : World) (api_key : string) (symbols : list string) :
  configure w = (Ok (api_key, symbols), w0) ->
  files w0 = mkFS true (output_file (files w))
  /\ sent w0 = sent w /\ clock w0 = clock w /\ ticks w0 = ticks w
  /\ environ w0 = environ w /\ network w0 = network w /\ random w0 = random w
  /\ fst (get_api_key w) = Ok api_key
  /\ fst (get_symbols w) = Ok symbols.
Proof.
  unfold configure, bind, print, get_api_key, get_symbols, environ_get, bind,
    mkdir_data_dir, ret.
  cbn [environ set_stdout fst snd].
  destruct (environ w "ALPHA_VANTAGE_API_KEY") as [[|c k]|];
    intros [= <- <- <-]; repeat split.
Qed.

(** The files after a run, from the mapping its branch leaves. *)
Lemma run_files (w w0 : World) (api_key : string) (symbols : list string) :
  configure w = (Ok (api_key, symbols), w0) ->
  files (snd (run w))
  = match collect_stocks api_key symbols w0 with
    | (Ok stocks, w1) =>
        if Dict.is_empty stocks then mkFS true (output_file (files w))
        else mkFS true (Some (snapshot_of stocks w1))
    | (Raise e, w1) => mkFS true (output_file (files w))
    end.
Proof.
  intros Hconf.
  destruct (configure_world _ Hconf) as (Hfiles & _).
  pose proof (keeps_outcomes api_key symbols w0) as Hkeep.
  pose proof (collect_stocks_outcomes api_key symbols w0) as Hcol.
  unfold run, script, bind. rewrite main_eq, Hconf.
  destruct (outcomes api_key symbols w0) as [[outs|e] w1]; simpl in Hkeep;
    rewrite Hcol.
  - destruct (store outs []) as [|kv stocks] eqn:Es.
    + rewrite finish_empty. cbn. now rewrite Hkeep.
    + unfold finish. cbn [Dict.is_empty]. cbn. now rewrite Hkeep, Hfiles.
  - cbn. now rewrite Hkeep.
Qed.

(** X9.  Every run ends with status 0 or 1 and with the data
    directory in place.  With status 1 the output file is as it was;
    with status 0 it holds a snapshot whose mapping is not empty,
    whose symbols are the keys of the mapping, each one once, and
    whose time stamp ends in [Z]. *)
Theorem run_status_and_files (w : World) :
  (fst (run w) = 0%Z \/ fst (run w) = 1%Z)
  /\ data_dir (files (snd (run w))) = true
  /\ (fst (run w) = 1%Z ->
      output_file (files (snd (run w))) = output_file (files w))
  /\ (fst (run w) = 0%Z ->
      exists snap t,
        output_file (files (snd (run w))) = Some snap
        /\ stocks snap <> []
        /\ symbols snap = Dict.keys (stocks snap)
        /\ NoDup (symbols snap)
        /\ lastUpdated snap = (t ++ "Z")%string).
Proof.
  destruct (configure_total w) as (k & syms & w0 & Hconf & _).
  pose proof (run_spec _ Hconf) as Hrun.
  pose proof (run_files _ Hconf) as Hfiles.
  pose proof (collect_stocks_outcomes k syms w0) as Hcol.
  pose proof (@outcomes_raises _ k syms w0) as Hraise.
  rewrite Hcol in Hrun, Hfiles.
  destruct (outcomes k syms w0) as [[outs|e] w1].
  - assert (Hnd : NoDup (Dict.keys (store outs [])))
      by (apply store_keys_nodup; constructor).
    destruct (store outs []) as [|kv st] eqn:Es; cbn [Dict.is_empty] in *;
      destruct Hrun as [Hs Ho]; rewrite Hs, Hfiles.
    + repeat split; auto. discriminate.
    + repeat split; auto; try discriminate.
      intros _. exists (snapshot_of (kv :: st) w1), (utc_isoformat (clock w1 (ticks w1))).
      repeat split; auto. discriminate.
  - destruct Hrun as [Hs Ho]. rewrite Hfiles.
    assert (He : exit_status (@Raise unit e) = 1%Z).
    { specialize (Hraise e eq_refl). unfold uncaught in Hraise.
      destruct Hraise as [-> | [-> | ->]]; reflexivity. }
    rewrite He in Hs. rewrite Hs. repeat split; auto. discriminate.
Qed.

(** X8.  An exception that a turn lets through ends the run with
    status 1 and leaves the output file as it was, whatever the turns
    before it fetched. *)
Theorem uncaught_exception_aborts (w w0 w1 : World) (api_key : string)
  (configured : list string) (e : exn)
  (Hconf : configure w = (Ok (api_key, configured), w0))
  (Hraise : outcomes api_key configured w0 = (Raise e, w1)) :
  uncaught e
  /\ fst (run w) = 1%Z
  /\ output_file (files (snd (run w))) = output_file (files w).
Proof.
  pose proof (run_spec _ Hconf) as Hrun.
  rewrite collect_stocks_outcomes, Hraise in Hrun.
  pose proof (@outcomes_raises _ api_key configured w0 e) as He.
  rewrite Hraise in He. specialize (He eq_refl).
  split; [exact He|]. destruct Hrun as [Hs Ho]. split; [|exact Ho].
  rewrite Hs. unfold uncaught in He.
  destruct He as [-> | [-> | ->]]; reflexivity.
Qed.

Lemma demo_key_resolves (w : World) :
  demo_key w -> fst (get_api_key w) = Ok "demo".
Proof.
  unfold demo_key, get_api_key, bind, environ_get.
  intros [-> | [-> | ->]]; reflexivity.
Qed.

(** X5.  When the key resolves to the demo sentinel, which includes a
    variable that holds the word demo itself, the run sends no
    request. *)
Theorem demo_mode_sends_nothing (w : World) (Hdemo : demo_key w) :
  sent (snd (run w)) = sent w.
Proof.
  destruct (configure_total w) as (k & syms & w0 & Hconf & _).
  destruct (configure_world _ Hconf) as (_ & Hsent & _ & _ & _ & _ & _ & Hk & _).
  rewrite (demo_key_resolves Hdemo) in Hk. injection Hk as <-.
  unfold run, script, bind. rewrite main_eq, Hconf.
  unfold collect_stocks, generate_demo_data. cbn [String.eqb Ascii.eqb Bool.eqb].
  unfold bind at 1. unfold print at 1.
  rewrite demo_loop_outcomes.
  pose proof (@demo_outcomes_keeps _ _ sent syms ltac:(reflexivity)
                ltac:(reflexivity)
                (set_stdout (stdout w0 ++ [MsgGeneratingDemo]) w0)) as Hkeep.
  destruct (demo_outcomes syms _) as [[outs|e] w1]; simpl in Hkeep.
  - unfold finish. destruct (Dict.is_empty (store outs [])); cbn; congruence.
  - cbn. congruence.
Qed.

End Run.

(* ================================================================= *)
(** ** The order of the symbols written *)

Section Order.
Context {RT : Runtime}.

Lemma filter_filter A (f g : A -> bool) (l : list A) :
  filter f (filter g l) = filter (fun x => f x && g x) l.
Proof.
  induction l as [|a l IH]; simpl; [reflexivity|].
  destruct (g a); simpl; [destruct (f a); simpl; now rewrite IH|].
  now rewrite andb_false_r.
Qed.

Lemma existsb_snoc (s x : string) (acc : list string) :
  existsb (String.eqb x) (acc ++ [s])
  = existsb (String.eqb x) acc || String.eqb x s.
Proof. rewrite existsb_app. simpl. now rewrite orb_false_r. Qed.

(** The keys after a store: the keys before, then the new symbols
    that have a record, in the order of their first turn. *)
Lemma store_keys_order (outs : Outcomes) (d : Stocks) :
  Dict.keys (store outs d)
  = Dict.keys d
    ++ filter (fun s => negb (existsb (String.eqb s) (Dict.keys d)))
              (first_occurrences (map fst (filter has_record outs))).
Proof.
  rewrite store_keys. generalize (Dict.keys d) as acc. clear d.
  induction outs as [|[s [r|]] outs IH]; intros acc.
  - simpl. now rewrite app_nil_r.
  - cbn [fold_left filter has_record snd fst map first_occurrences].
    rewrite IH. destruct (existsb (String.eqb s) acc) eqn:E.
    + f_equal. cbn [negb].
      rewrite filter_filter. apply filter_ext_in. intros x _.
      destruct (String.eqb_spec x s) as [->|Hne]; [now rewrite E|].
      now rewrite andb_true_r.
    + rewrite <- app_assoc. f_equal. cbn [negb app].
      f_equal. rewrite filter_filter. apply filter_ext. intros x.
      rewrite existsb_snoc, negb_orb. reflexivity.
  - cbn [fold_left filter has_record snd fst map]. apply IH.
Qed.

Lemma first_occurrences_nodup (l : list string) :
  NoDup l -> first_occurrences l = l.
Proof.
  induction 1 as [|s l Hnin Hnd IH]; simpl; [reflexivity|].
  rewrite IH. f_equal. apply forallb_filter_id.
  apply forallb_forall. intros x Hx.
  destruct (String.eqb_spec x s) as [->|Hne]; [contradiction|reflexivity].
Qed.

(** X7.  The symbols written are the symbols of the turns that have
    a record, in the order of the configured list, a repeated symbol
    standing where it first has a record: all the configured symbols
    in demo mode, and in live mode, when no symbol is configured
    twice, the configured list without the symbols whose quote is
    absent. *)
Theorem written_symbols_order (w w0 w1 : World) (api_key : string)
  (configured : list string) (outs : Outcomes)
  (Hconf : configure w = (Ok (api_key, configured), w0))
  (Houts : outcomes api_key configured w0 = (Ok outs, w1))
  (Hne : store outs [] <> []) :
  exists snap,
    output_file (files (snd (run w))) = Some snap
    /\ symbols snap = first_occurrences (map fst (filter has_record outs))
    /\ (api_key = "demo" -> symbols snap = first_occurrences configured)
    /\ (NoDup configured ->
        symbols snap = map fst (filter has_record outs)).
Proof.
  pose proof (run_spec _ Hconf) as Hrun.
  rewrite collect_stocks_outcomes, Houts in Hrun.
  pose proof (store_keys_order outs []) as Hkeys. simpl in Hkeys.
  rewrite (forallb_filter_id _ _) in Hkeys
    by (apply forallb_forall; reflexivity).
  assert (Hsym : map fst outs = configured
                 /\ (api_key = "demo" -> filter has_record outs = outs)).
  { unfold outcomes in Houts. destruct (String.eqb_spec api_key "demo") as [->|Hk].
    - unfold bind, print in Houts.
      destruct (demo_outcomes_symbols _ _ Houts) as [H1 H2]. split; [exact H1|].
      intros _. apply forallb_filter_id. apply forallb_forall. intros so Hso.
      rewrite Forall_forall in H2. specialize (H2 _ Hso).
      unfold has_record. destruct (snd so); congruence.
    - split; [eapply live_outcomes_symbols; eauto|congruence]. }
  destruct Hsym as [Hsym Hdemo].
  destruct (store outs []) as [|kv st] eqn:Es; [congruence|].
  cbn [Dict.is_empty] in Hrun. destruct Hrun as [_ Hout].
  eexists. split; [exact Hout|]. cbn [symbols snapshot_of].
  split; [exact Hkeys|]. split.
  - intros Hk. rewrite Hkeys, (Hdemo Hk), Hsym. reflexivity.
  - intros Hnd. rewrite Hkeys. apply first_occurrences_nodup.
    rewrite <- Hsym in Hnd. clear - Hnd.
    induction outs as [|so outs IH]; simpl in *; [constructor|].
    inversion Hnd as [|? ? Hnin Hnd']; subst.
    destruct (has_record so); simpl; [|now apply IH].
    constructor; [|now apply IH].
    intros Hin. apply Hnin. apply in_map_iff in Hin as (so' & Heq & Hin).
    apply filter_In in Hin as [Hin _]. rewrite <- Heq. now apply in_map.
Qed.

End Order.

(* ================================================================= *)
(** ** Demo mode *)

Section DemoMode.
Context {RT : Runtime}.

Lemma filter_map_length A B (f : B -> bool) (g : A -> B) (l : list A) :
  List.length (filter f (map g l))
  = List.length (filter (fun a => f (g a)) l).
Proof.
  induction l as [|a l IH]; simpl; [reflexivity|].
  destruct (f (g a)); simpl; now rewrite IH.
Qed.

(** A hundred days in a row hold 70 to 72 weekdays. *)
Lemma weekdays_in_hundred (today : Date.t) :
  Date.wf today ->
  70 <= List.length (filter is_weekday (days_before today 100)) <= 72.
Proof.
  intros Hw. unfold days_before. rewrite filter_map_length.
  set (r := (Date.toordinal today mod 7)%Z).
  assert (Hr : (0 <= r < 7)%Z) by (apply Z.mod_pos_bound; lia).
  rewrite (@filter_ext_in _ _
             (fun i => negb (5 <=? (r - (100 - i) + 6) mod 7)%Z)).
  - assert (Hc : (r = 0 \/ r = 1 \/ r = 2 \/ r = 3 \/ r = 4 \/ r = 5 \/ r = 6)%Z)
      by lia.
    clearbody r.
    destruct Hc as [->|[->|[->|[->|[->|[->| ->]]]]]]; vm_compute; lia.
  - intros i Hi. unfold range in Hi.
    apply in_map_iff in Hi as (j & <- & Hj). apply in_seq in Hj.
    unfold is_weekday, Date.weekday.
    rewrite (DateFacts.toordinal_sub_days _ Hw).
    rewrite Z2Nat.id by lia. do 2 f_equal. unfold r.
    replace (Date.toordinal today - (100 - Z.of_nat j) + 6)%Z
      with (Date.toordinal today + (6 - (100 - Z.of_nat j)))%Z by lia.
    replace (Date.toordinal today mod 7 - (100 - Z.of_nat j) + 6)%Z
      with (Date.toordinal today mod 7 + (6 - (100 - Z.of_nat j)))%Z by lia.
    now rewrite Zplus_mod_idemp_l.
Qed.

(** The history that demo mode generates while the date of the clock
    is [today]: its dates are the week days among the [days] days
    before [today], and the clock is the one it started with. *)
Lemma generate_demo_history_constant (price : float) (days : Z)
  (today : Date.t) (w : World) :
  Date.valid today ->
  (forall n, local_date (clock w n) = today) ->
  (days < Date.toordinal today)%Z ->
  exists h w',
    generate_demo_history price days w = (Ok h, w')
    /\ clock w' = clock w
    /\ map h_date h
       = map Date.strftime (filter is_weekday (days_before today days)).
Proof.
  intros Hvalid Hclock Hrange.
  destruct (generate_demo_history_dates price days w) as (h & w' & Hgen & Hdates).
  - rewrite (entry_dates_constant _ _ _ Hclock).
    unfold days_before, range. rewrite map_map.
    apply Forall_forall. intros d Hd.
    apply in_map_iff in Hd as (j & <- & Hj). apply in_seq in Hj.
    destruct (@entry_date_printable today (Z.to_nat (days - Z.of_nat j)) Hvalid)
      as [[_ Hy] _]; lia.
  - exists h, w'. split; [exact Hgen|]. split.
    + pose proof (@demo_history_loop_keeps _ _ clock days (range days)
                    (fmul price (float_lit 9 1), [])
                    ltac:(reflexivity) ltac:(reflexivity) w) as Hk.
      unfold generate_demo_history, bind in Hgen.
      destruct (demo_history_loop days (range days) _ w) as [[st|e] w2];
        [|discriminate].
      injection Hgen as _ <-. exact Hk.
    + rewrite Hdates. now rewrite (entry_dates_constant _ _ _ Hclock).
Qed.

(** The record that demo mode builds for a symbol while the date
    of the clock is [today]. *)
Lemma demo_record_spec (symbol : string) (today : Date.t) (w : World) :
  Date.valid today ->
  (forall n, local_date (clock w n) = today) ->
  (100 < Date.toordinal today)%Z ->
  exists r w',
    demo_record symbol w = (Ok r, w')
    /\ clock w' = clock w
    /\ q_symbol (quote r) = JStr symbol
    /\ q_latestTradingDay (quote r) = JStr (Date.strftime today)
    /\ map h_date (history r)
       = map Date.strftime (filter is_weekday (days_before today 100)).
Proof.
  intros Hvalid Hclock Hrange.
  unfold demo_record, bind, random_uniform, random_randint, now.
  cbn [random set_random].
  repeat match goal with
         | |- context [uniform ?a ?b ?g] => destruct (uniform a b g)
         | |- context [randint ?a ?b ?g] => destruct (randint a b g)
         end.
  match goal with
  | |- context [generate_demo_history ?p 100 ?w1] =>
      destruct (@generate_demo_history_constant p 100 today w1 Hvalid)
        as (h & w' & Hgen & Hc & Hdates); [exact Hclock|exact Hrange|];
      rewrite Hgen
  end.
  unfold ret. do 2 eexists. split; [reflexivity|].
  split; [exact Hc|]. split; [reflexivity|].
  split; [|exact Hdates].
  cbn [q_latestTradingDay quote clock ticks set_ticks set_random].
  now rewrite Hclock.
Qed.

Lemma demo_outcomes_spec (symbols : list string) (today : Date.t) (w : World) :
  Date.valid today ->
  (forall n, local_date (clock w n) = today) ->
  (100 < Date.toordinal today)%Z ->
  exists outs w',
    demo_outcomes symbols w = (Ok outs, w')
    /\ Forall (fun so => exists r, snd so = Some r
                                   /\ demo_shaped today (fst so) r) outs.
Proof.
  intros Hvalid Hclock Hrange. revert w Hclock.
  induction symbols as [|s rest IH]; intros w Hclock.
  - exists [], w. split; [reflexivity|constructor].
  - destruct (demo_record_spec s w Hvalid Hclock Hrange)
      as (r & w1 & Hrec & Hc & Hshape).
    destruct (IH w1) as (outs & w2 & Houts & Hall).
    { intros n. rewrite Hc. apply Hclock. }
    exists ((s, Some r) :: outs), w2. cbn [demo_outcomes]. unfold bind, ret.
    rewrite Hrec, Houts. split; [reflexivity|].
    constructor; [|exact Hall]. exists r. split; [reflexivity|exact Hshape].
Qed.

Lemma last_from_in (symbol : string) (outs : Outcomes)
  (acc : option StockRecord) (r : StockRecord) :
  last_from symbol outs acc = Some r ->
  acc = Some r \/ In (symbol, Some r) outs.
Proof.
  unfold last_from. revert acc. induction outs as [|[s o] outs IH]; intros acc;
    simpl; [auto|].
  intros H. apply IH in H. destruct H as [H|H]; [|auto].
  destruct (String.eqb_spec symbol s) as [->|Hne]; [|auto].
  destruct o as [r'|]; [|auto]. injection H as ->. auto.
Qed.

(** X6.  In demo mode, on a day more than a hundred days after the
    first of the calendar, the run ends with status 0 and writes
    every configured symbol; the record of a symbol carries the symbol
    and the day of the run in its quote, and a history of 70 to 72
    points, one for each weekday among the hundred days before the
    day of the run. *)
Theorem demo_mode_complete (w : World) (today : Date.t)
  (Hdemo : demo_key w)
  (Hvalid : Date.valid today)
  (Hclock : forall n, local_date (clock w n) = today)
  (Hrange : (100 < Date.toordinal today)%Z) :
  fst (run w) = 0%Z
  /\ exists snap configured,
       output_file (files (snd (run w))) = Some snap
       /\ fst (get_symbols w) = Ok configured
       /\ (forall s, In s configured <-> In s (symbols snap))
       /\ (forall s r, Dict.get s (stocks snap) = Some r ->
             demo_shaped today s r
             /\ 70 <= List.length (history r) <= 72).
Proof.
  destruct (configure_total w) as (k & syms & w0 & Hconf & _).
  destruct (configure_world _ Hconf)
    as (_ & _ & Hc0 & _ & _ & _ & _ & Hk & Hsyms).
  rewrite (demo_key_resolves Hdemo) in Hk. injection Hk as <-.
  pose proof (run_spec _ Hconf) as Hrun.
  rewrite collect_stocks_outcomes in Hrun. unfold outcomes in Hrun.
  cbn [String.eqb Ascii.eqb Bool.eqb] in Hrun.
  unfold bind at 1 in Hrun. unfold print at 1 in Hrun.
  destruct (demo_outcomes_spec syms
              (set_stdout (stdout w0 ++ [MsgGeneratingDemo]) w0) Hvalid)
    as (outs & w1 & Houts & Hall);
    [intros n; cbn [clock set_stdout]; rewrite Hc0; apply Hclock|exact Hrange|].
  rewrite Houts in Hrun.
  destruct (demo_outcomes_symbols _ _ Houts) as [Hmap _].
  assert (Hin : forall s, In s syms <-> In s (Dict.keys (store outs []))).
  { intros s. rewrite store_in_keys, <- Hmap. simpl. split.
    - intros Hs. apply in_map_iff in Hs as ([s' o] & <- & Hso). right.
      rewrite Forall_forall in Hall. destruct (Hall _ Hso) as (r & Hr & _).
      simpl in *. subst o. eauto.
    - intros [[]|[r Hr]]. apply in_map_iff. exists (s, Some r). now split. }
  assert (Hne : syms <> []).
  { pose proof (get_symbols_eq w) as He. rewrite He in Hsyms.
    injection Hsyms as <-. intros H. apply map_eq_nil in H.
    now apply PyStrFacts.split_not_nil in H. }
  destruct (store outs []) as [|kv st] eqn:Es.
  { exfalso. destruct syms as [|s syms]; [congruence|].
    apply (proj1 (Hin s)). now left. }
  cbn [Dict.is_empty] in Hrun. destruct Hrun as [Hs Hout].
  split; [exact Hs|].
  exists (snapshot_of (kv :: st) w1), syms.
  split; [exact Hout|]. split; [exact Hsyms|]. split; [exact Hin|].
  intros s r Hget. cbn [stocks snapshot_of] in Hget.
  rewrite <- Es, store_get in Hget. simpl in Hget.
  apply last_from_in in Hget as [Hget|Hget]; [discriminate|].
  rewrite Forall_forall in Hall. destruct (Hall _ Hget) as (r' & Hr' & Hshape).
  simpl in Hr', Hshape. injection Hr' as <-.
  split; [exact Hshape|].
  destruct Hshape as (_ & _ & Hdates).
  rewrite <- (length_map h_date), Hdates, length_map.
  apply weekdays_in_hundred. now apply DateFacts.valid_wf.
Qed.

End DemoMode.


(* ================================================================= *)
(** ** The symbols resolved *)

Section Symbols.
Context {RT : Runtime}.
Import PyStr PyStrSpec PyStrFacts.

Lemma count_char_app (c : ascii) (a b : string) :
  count_char c (a ++ b)%string = count_char c a + count_char c b.
Proof. induction a; simpl; [reflexivity|]. rewrite IHa. lia. Qed.

Lemma upper_char_first (c : ascii) (s : string) :
  starts_with_space (upper_char c ++ s) = is_space c.
Proof. destruct c as [[] [] [] [] [] [] [] []]; reflexivity. Qed.

Lemma upper_char_last (c : ascii) :
  ends_with_space (upper_char c) = is_space c.
Proof. destruct c as [[] [] [] [] [] [] [] []]; reflexivity. Qed.

Lemma upper_char_not_empty (c : ascii) (s : string) :
  (upper_char c ++ s)%string <> "".
Proof. destruct c as [[] [] [] [] [] [] [] []]; discriminate. Qed.

Lemma upper_char_idem (c : ascii) : upper (upper_char c) = upper_char c.
Proof. destruct c as [[] [] [] [] [] [] [] []]; reflexivity. Qed.

Lemma upper_char_comma (c : ascii) :
  count_char "," (upper_char c) = if Ascii.eqb c "," then 1 else 0.
Proof. destruct c as [[] [] [] [] [] [] [] []]; reflexivity. Qed.

Lemma upper_app (a b : string) :
  upper (a ++ b) = (upper a ++ upper b)%string.
Proof.
  induction a as [|c a IH]; simpl; [reflexivity|].
  now rewrite IH, append_assoc.
Qed.

Lemma upper_idem (s : string) : upper (upper s) = upper s.
Proof.
  induction s as [|c s IH]; simpl; [reflexivity|].
  now rewrite upper_app, upper_char_idem, IH.
Qed.

Lemma upper_commas (s : string) : count_char "," (upper s) = count_char "," s.
Proof.
  induction s as [|c s IH]; simpl; [reflexivity|].
  now rewrite count_char_app, upper_char_comma, IH.
Qed.

Lemma upper_starts (s : string) :
  starts_with_space (upper s) = starts_with_space s.
Proof. destruct s; simpl; [reflexivity|apply upper_char_first]. Qed.

Lemma ends_with_space_app (a b : string) :
  b <> "" -> ends_with_space (a ++ b) = ends_with_space b.
Proof.
  intros Hb. induction a as [|c a IH]; [reflexivity|].
  simpl append. destruct (a ++ b)%string as [|c' t] eqn:E.
  - destruct a; simpl in E; [congruence|discriminate].
  - exact IH.
Qed.

Lemma upper_ends (s : string) : ends_with_space (upper s) = ends_with_space s.
Proof.
  induction s as [|c s IH]; [reflexivity|].
  destruct s as [|c' s].
  - simpl upper. rewrite append_nil_r. apply upper_char_last.
  - change (ends_with_space (String c (String c' s)))
      with (ends_with_space (String c' s)).
    rewrite <- IH. simpl upper at 1.
    apply ends_with_space_app. simpl. apply upper_char_not_empty.
Qed.

Lemma strip_commas (t : string) :
  count_char "," t = 0 -> count_char "," (strip t) = 0.
Proof.
  destruct (strip_trimmed t) as (l & r & Ht & _).
  intros H. rewrite Ht, !count_char_app in H. lia.
Qed.

Lemma lstrip_id (s : string) : starts_with_space s = false -> lstrip s = s.
Proof. destruct s; simpl; [reflexivity|]. now intros ->. Qed.

Lemma rstrip_id (s : string) : ends_with_space s = false -> rstrip s = s.
Proof.
  induction s as [|c s IH]; [reflexivity|].
  destruct s as [|c' s].
  - simpl. now intros ->.
  - intros H. change (rstrip (String c (String c' s)))
      with (match rstrip (String c' s) with
            | EmptyString => if is_space c then EmptyString else String c EmptyString
            | t => String c t
            end).
    rewrite IH by exact H. reflexivity.
Qed.

Lemma strip_id (s : string) :
  starts_with_space s = false -> ends_with_space s = false -> strip s = s.
Proof. intros H1 H2. unfold strip. now rewrite lstrip_id, rstrip_id. Qed.

(** A symbol as [get_symbols] returns it. *)
Lemma normal_symbol (t : string) :
  count_char "," t = 0 -> normalized (upper (strip t)).
Proof.
  intros H. destruct (strip_trimmed t) as (l & r & _ & _ & _ & Hs & He).
  unfold normalized, no_lower_case.
  rewrite upper_commas, upper_starts, upper_ends, upper_idem.
  repeat split; try assumption. now apply strip_commas.
Qed.

Lemma get_symbols_normal_form_aux (w : World) :
  exists l,
    get_symbols w = (Ok l, w) /\ l <> [] /\ Forall normalized l.
Proof.
  rewrite get_symbols_eq. eexists. split; [reflexivity|].
  split.
  - intros H. apply map_eq_nil in H. now apply split_not_nil in H.
  - apply Forall_map. eapply Forall_impl; [|apply split_no_sep].
    intros t Ht. now apply normal_symbol.
Qed.

(** X10.  [get_symbols] returns at least one symbol, changes nothing
    in the world, and each symbol it returns has no comma, no white
    space at its ends and no lower-case letter; from a configured
    string it returns one symbol more than the string has commas. *)
Theorem get_symbols_normal_form (w : World) :
  exists l,
    get_symbols w = (Ok l, w)
    /\ l <> []
    /\ Forall normalized l
    /\ (forall s, environ w "SYMBOLS" = Some s ->
                  List.length l = S (count_char "," s)).
Proof.
  destruct (get_symbols_normal_form_aux w) as (l & Heq & Hne & Hall).
  exists l. repeat split; try assumption.
  intros s Hs. rewrite get_symbols_eq, Hs in Heq. injection Heq as <-.
  rewrite length_map. apply split_length.
Qed.

(** X11.  The symbols that [get_symbols] returns, joined by commas
    and configured again, come back unchanged. *)
Theorem get_symbols_idempotent (w w' : World) (l : list string)
  (Hl : fst (get_symbols w) = Ok l)
  (Hagain : environ w' "SYMBOLS" = Some (join "," l)) :
  fst (get_symbols w') = Ok l.
Proof.
  destruct (get_symbols_normal_form_aux w) as (l' & Heq & Hne & Hall).
  rewrite Heq in Hl. injection Hl as ->.
  rewrite get_symbols_eq, Hagain. cbn [fst]. f_equal.
  assert (Hsplit : split "," (join "," l) = l).
  { symmetry. apply comma_tokens_unique. split; [exact Hne|].
    split; [reflexivity|].
    eapply Forall_impl; [|exact Hall]. intros t Ht. apply Ht. }
  rewrite Hsplit. clear Hsplit Hne Heq Hagain.
  induction Hall as [|t l (Hc & Hs & He & Hu) _ IH]; [reflexivity|].
  simpl. rewrite IH, (strip_id _ Hs He). now rewrite Hu.
Qed.

End Symbols.

(* ================================================================= *)
(** ** The files of an earlier run *)

Section Blind.
Context {RT : Runtime}.

Lemma blind_ret A (a : A) : files_blind (ret a).
Proof. intros w fs. reflexivity. Qed.

Lemma blind_raise A (e : exn) : files_blind (@raise _ A e).
Proof. intros w fs. reflexivity. Qed.

Lemma blind_lift A (r : result A) : files_blind (lift r).
Proof. intros w fs. reflexivity. Qed.

Lemma blind_print (msg : Message) : files_blind (print msg).
Proof. intros w fs. reflexivity. Qed.

Lemma blind_now : files_blind now.
Proof. intros w fs. reflexivity. Qed.

Lemma blind_environ_get (name : string) : files_blind (environ_get name).
Proof. intros w fs. reflexivity. Qed.

Lemma blind_http (r : Request) : files_blind (http_get_json r).
Proof.
  intros w fs. unfold http_get_json. cbn [network sent set_files].
  now destruct (network w (sent w) r).
Qed.

Lemma blind_uniform (a b : float) : files_blind (random_uniform a b).
Proof.
  intros w fs. unfold random_uniform. cbn [random set_files].
  now destruct (uniform a b (random w)).
Qed.

Lemma blind_randint (a b : Z) : files_blind (random_randint a b).
Proof.
  intros w fs. unfold random_randint. cbn [random set_files].
  now destruct (randint a b (random w)).
Qed.

Lemma blind_bind A B (m : M A) (k : A -> M B) :
  files_blind m -> (forall a, files_blind (k a)) -> files_blind (bind m k).
Proof.
  intros Hm Hk w fs. unfold bind. rewrite Hm.
  destruct (m w) as [[a|e] w1]; cbn [fst snd]; [apply Hk|reflexivity].
Qed.

Lemma blind_try A (m : M A) (h : exn -> option (M A)) :
  files_blind m -> (forall e k, h e = Some k -> files_blind k) ->
  files_blind (try_except m h).
Proof.
  intros Hm Hh w fs. unfold try_except. rewrite Hm.
  destruct (m w) as [[a|e] w1]; cbn [fst snd]; [reflexivity|].
  destruct (h e) as [k|] eqn:E; [|reflexivity].
  apply (Hh _ _ E).
Qed.

End Blind.

Ltac blind :=
  repeat first
    [ solve [auto 1]
    | apply blind_ret
    | apply blind_raise
    | apply blind_lift
    | apply blind_print
    | apply blind_now
    | apply blind_environ_get
    | apply blind_http
    | apply blind_uniform
    | apply blind_randint
    | match goal with
      | |- files_blind (if ?b then _ else _) => destruct b
      | |- files_blind (match ?x with _ => _ end) => destruct x
      end
    | apply blind_bind; [|intros] ].

Section BlindOfProgram.
Context {RT : Runtime}.

Lemma fetch_quote_blind (symbol api_key : string) :
  files_blind (fetch_quote symbol api_key).
Proof.
  unfold fetch_quote. apply blind_try.
  - unfold fetch_quote_body. blind.
  - intros e k. unfold fetch_quote_handler.
    destruct e; intros [= <-]; blind.
Qed.

Lemma fetch_daily_history_blind (symbol api_key size : string) :
  files_blind (fetch_daily_history symbol api_key size).
Proof.
  unfold fetch_daily_history. apply blind_try.
  - unfold fetch_daily_history_body. blind.
  - intros e k. unfold fetch_daily_history_handler.
    destruct e; intros [= <-]; blind.
Qed.

Lemma fetch_record_blind (api_key symbol : string) :
  files_blind (fetch_record api_key symbol).
Proof.
  unfold fetch_record.
  pose proof (fetch_quote_blind symbol api_key).
  pose proof (fetch_daily_history_blind symbol api_key "compact").
  blind.
Qed.

Lemma live_outcomes_blind (api_key : string) (symbols : list string) :
  files_blind (live_outcomes api_key symbols).
Proof.
  induction symbols as [|s rest IH]; cbn [live_outcomes]; [blind|].
  pose proof (fetch_record_blind api_key s). blind.
Qed.

Lemma demo_history_loop_blind (days : Z) (idx : list Z) (st : float * History) :
  files_blind (demo_history_loop days idx st).
Proof.
  revert st. induction idx as [|i idx IH]; intros st; cbn [demo_history_loop];
    [blind|].
  apply blind_bind; [|intros; apply IH].
  unfold demo_history_step. blind.
Qed.

Lemma demo_record_blind (symbol : string) : files_blind (demo_record symbol).
Proof.
  unfold demo_record, generate_demo_history.
  pose proof demo_history_loop_blind. blind.
Qed.

Lemma demo_outcomes_blind (symbols : list string) :
  files_blind (demo_outcomes symbols).
Proof.
  induction symbols as [|s rest IH]; cbn [demo_outcomes]; [blind|].
  pose proof (demo_record_blind s). blind.
Qed.

(** The branch of [main] reads no file and writes none. *)
Lemma outcomes_blind (api_key : string) (symbols : list string) :
  files_blind (outcomes api_key symbols).
Proof.
  unfold outcomes.
  pose proof (demo_outcomes_blind symbols).
  pose proof (live_outcomes_blind api_key symbols).
  blind.
Qed.

(** [configure] on other files: the same key and symbols, and the
    data directory in place beside the output file of those files. *)
Lemma configure_files (w : World) (fs : FileSystem) :
  configure (set_files fs w)
  = (fst (configure w),
     set_files (mkFS true (output_file fs)) (snd (configure w))).
Proof.
  unfold configure, bind, print, get_api_key, get_symbols, environ_get, bind,
    mkdir_data_dir, ret.
  cbn [environ set_stdout set_files fst snd].
  destruct (environ w "ALPHA_VANTAGE_API_KEY") as [[|c k]|]; reflexivity.
Qed.

(** A run on other files: the same status and the same world but for
    the files, and with status 0 the same files too. *)
Lemma run_on_files (w : World) (fs : FileSystem) :
  exists fs',
    run (set_files fs w) = (fst (run w), set_files fs' (snd (run w)))
    /\ (fst (run w) = 0%Z -> fs' = files (snd (run w))).
Proof.
  destruct (configure_total w) as (k & syms & w0 & Hconf & _).
  destruct (configure_world _ Hconf) as (Hfiles & _).
  pose proof (configure_files w fs) as Hconf'. rewrite Hconf in Hconf'.
  cbn [fst snd] in Hconf'.
  pose proof (keeps_outcomes k syms w0) as Hkeep.
  pose proof (@outcomes_raises _ k syms w0) as Hunc.
  pose proof (outcomes_blind k syms w0 (mkFS true (output_file fs))) as Hblind.
  unfold run, script, bind. rewrite !main_eq, Hconf, Hconf'.
  rewrite !collect_stocks_outcomes, Hblind.
  destruct (outcomes k syms w0) as [[outs|e] w1]; cbn [fst snd] in *.
  - destruct (store outs []) as [|kv stocks].
    + rewrite !finish_empty. cbn [exit_status fst snd].
      eexists. split; [reflexivity|discriminate].
    + unfold finish, bind, now, write_output, print, ret.
      cbn [Dict.is_empty exit_status fst snd files data_dir set_files
           set_ticks set_stdout clock ticks stdout].
      rewrite Hkeep, Hfiles. cbn [data_dir].
      eexists. split; [reflexivity|]. intros _. reflexivity.
  - exists (mkFS true (output_file fs)). split; [reflexivity|].
    destruct (Hunc e eq_refl) as [->|[->| ->]]; discriminate.
Qed.

(** X12.  A run reads nothing of the files an earlier run left: on
    other files it ends with the same status, prints the same
    messages and sends as many requests, and with status 0 it leaves
    the same files, so that nothing of an older snapshot is merged
    into the new one. *)
Theorem run_ignores_old_files (w : World) (fs : FileSystem) :
  fst (run (set_files fs w)) = fst (run w)
  /\ stdout (snd (run (set_files fs w))) = stdout (snd (run w))
  /\ sent (snd (run (set_files fs w))) = sent (snd (run w))
  /\ (fst (run w) = 0%Z ->
      files (snd (run (set_files fs w))) = files (snd (run w))).
Proof.
  destruct (run_on_files w fs) as (fs' & Hrun & Hfs).
  rewrite Hrun. cbn [fst snd set_files stdout sent files].
  repeat split. intros H. now apply Hfs.
Qed.

End BlindOfProgram.
(* ================================================================= *)
(** ** The number of days of a demo history *)

Section DemoEdges.
Context {RT : Runtime}.

Lemma range_nonpos (n : Z) : (n <= 0)%Z -> range n = [].
Proof. intros H. unfold range. destruct n; [reflexivity|lia|reflexivity]. Qed.

Lemma range_pos (n : Z) : (0 < n)%Z -> exists rest, range n = 0%Z :: rest.
Proof.
  intros H. unfold range.
  destruct (Z.to_nat n) as [|k] eqn:E; [lia|].
  eexists. reflexivity.
Qed.

Lemma sub_timedelta_overflow (d : Date.t) (k : Z) :
  Date.wf d -> (0 <= k)%Z -> (Date.toordinal d <= k)%Z ->
  sub_timedelta d k = Raise OverflowError.
Proof.
  intros Hwf Hk Hord. unfold sub_timedelta.
  destruct (1 <=? Date.year (Date.sub_days d (Z.to_nat k)))%Z eqn:E;
    [|reflexivity].
  apply Z.leb_le in E.
  apply (DateFacts.year_of_ordinal (DateFacts.sub_days_wf (Z.to_nat k) Hwf)) in E.
  rewrite (DateFacts.toordinal_sub_days (Z.to_nat k) Hwf) in E. lia.
Qed.

(** X13.  [generate_demo_history] for a number of days that is not
    positive returns the empty history and reads neither the clock
    nor the generator; for a number of days that reaches back to
    the first day of the calendar or beyond, the first turn raises
    [OverflowError], after two readings of the clock and before any
    random draw. *)
Theorem generate_demo_history_edges (price : float) (days : Z) (w : World) :
  ((days <= 0)%Z -> generate_demo_history price days w = (Ok [], w))
  /\ ((0 < days)%Z ->
      Date.valid (local_date (clock w (S (ticks w)))) ->
      (Date.toordinal (local_date (clock w (S (ticks w)))) <= days)%Z ->
      generate_demo_history price days w
      = (Raise OverflowError, set_ticks (S (S (ticks w))) w)).
Proof.
  split.
  - intros H. unfold generate_demo_history. now rewrite (range_nonpos H).
  - intros Hpos Hvalid Hord. unfold generate_demo_history.
    destruct (range_pos Hpos) as (rest & ->).
    cbn [demo_history_loop]. unfold demo_history_step, bind, now, lift.
    cbn [clock ticks set_ticks]. rewrite Z.sub_0_r.
    rewrite (@sub_timedelta_overflow _ days (DateFacts.valid_wf Hvalid));
      [reflexivity|lia|exact Hord].
Qed.

End DemoEdges.
(* ================================================================= *)
(** ** What a run prints *)

Section Appends.
Context {RT : Runtime}.

Lemma appends_nothing A (m : M A) :
  (forall w, stdout (snd (m w)) = stdout w) -> appends m.
Proof. intros H w. exists []. unfold printed. now rewrite H, app_nil_r. Qed.

Lemma appends_print (msg : Message) : appends (print msg).
Proof. intros w. exists [msg]. reflexivity. Qed.

Lemma appends_bind A B (m : M A) (k : A -> M B) :
  appends m -> (forall a, appends (k a)) -> appends (bind m k).
Proof.
  intros Hm Hk w. unfold bind. destruct (Hm w) as (l1 & H1).
  destruct (m w) as [[a|e] w1]; cbn [snd] in *; [|now exists l1].
  destruct (Hk a w1) as (l2 & H2). exists (l1 ++ l2).
  unfold printed in *. now rewrite H2, H1, app_assoc.
Qed.

Lemma appends_try A (m : M A) (h : exn -> option (M A)) :
  appends m -> (forall e k, h e = Some k -> appends k) ->
  appends (try_except m h).
Proof.
  intros Hm Hh w. unfold try_except. destruct (Hm w) as (l1 & H1).
  destruct (m w) as [[a|e] w1]; cbn [snd] in *; [now exists l1|].
  destruct (h e) as [k|] eqn:E; [|now exists l1].
  destruct (Hh _ _ E w1) as (l2 & H2). exists (l1 ++ l2).
  unfold printed in *. now rewrite H2, H1, app_assoc.
Qed.

End Appends.

Ltac appends :=
  repeat first
    [ solve [auto 1]
    | apply appends_print
    | solve [apply appends_nothing; keeps_prim]
    | match goal with
      | |- appends (if ?b then _ else _) => destruct b
      | |- appends (match ?x with _ => _ end) => destruct x
      end
    | apply appends_bind; [|intros] ].

Section AppendsOfProgram.
Context {RT : Runtime}.

Lemma fetch_quote_appends (symbol api_key : string) :
  appends (fetch_quote symbol api_key).
Proof.
  unfold fetch_quote. apply appends_try.
  - unfold fetch_quote_body. appends.
  - intros e k. unfold fetch_quote_handler.
    destruct e; intros [= <-]; appends.
Qed.

Lemma fetch_daily_history_appends (symbol api_key size : string) :
  appends (fetch_daily_history symbol api_key size).
Proof.
  apply appends_nothing. intros w.
  apply (@fetch_daily_history_keeps _ _ stdout); reflexivity.
Qed.

Lemma fetch_record_appends (api_key symbol : string) :
  appends (fetch_record api_key symbol).
Proof.
  unfold fetch_record.
  pose proof (fetch_quote_appends symbol api_key).
  pose proof (fetch_daily_history_appends symbol api_key "compact").
  appends.
Qed.

Lemma live_outcomes_appends (api_key : string) (symbols : list string) :
  appends (live_outcomes api_key symbols).
Proof.
  induction symbols as [|s rest IH]; cbn [live_outcomes]; [appends|].
  pose proof (fetch_record_appends api_key s). appends.
Qed.

Lemma demo_outcomes_appends (symbols : list string) :
  appends (demo_outcomes symbols).
Proof.
  apply appends_nothing. intros w.
  apply (@demo_outcomes_keeps _ _ stdout); reflexivity.
Qed.

Lemma outcomes_appends (api_key : string) (symbols : list string) :
  appends (outcomes api_key symbols).
Proof.
  unfold outcomes.
  pose proof (demo_outcomes_appends symbols).
  pose proof (live_outcomes_appends api_key symbols).
  appends.
Qed.

(** What [configure] prints: the banner, the warning of the key if
    any, the symbols and whether the key is set. *)
Lemma configure_prints (w w0 : World) (api_key : string)
  (symbols : list string) :
  configure w = (Ok (api_key, symbols), w0) ->
  stdout w0
  = stdout w ++ [MsgBanner] ++ key_warning w
    ++ [MsgSymbols symbols; MsgApiKey (negb (String.eqb api_key "demo"))].
Proof.
  unfold configure, bind, print, get_api_key, get_symbols, environ_get, bind,
    mkdir_data_dir, ret, key_warning.
  cbn [environ set_stdout fst snd].
  destruct (environ w "ALPHA_VANTAGE_API_KEY") as [[|c k]|];
    intros [= <- <- <-]; cbn [stdout set_files set_stdout];
    rewrite <- ?app_assoc; reflexivity.
Qed.

(** X14.  A run adds to what was printed and removes nothing: the
    banner first, the warning when the key is absent or empty, the
    symbols resolved and whether a key is set, then the messages of
    its branch.  With status 0 the last message reports the number
    of symbols of the snapshot written and its time stamp. *)
Theorem run_report (w : World) :
  exists api_key configured body,
    fst (get_api_key w) = Ok api_key
    /\ fst (get_symbols w) = Ok configured
    /\ stdout (snd (run w))
       = stdout w ++ [MsgBanner] ++ key_warning w
         ++ [MsgSymbols configured;
             MsgApiKey (negb (String.eqb api_key "demo"))]
         ++ body
    /\ (fst (run w) = 0%Z ->
        exists snap earlier,
          output_file (files (snd (run w))) = Some snap
          /\ body
             = earlier ++ [MsgSaved (List.length (symbols snap))
                                    (lastUpdated snap)]).
Proof.
  destruct (configure_total w) as (k & syms & w0 & Hconf & _ & Hsyms & Hkey).
  pose proof (configure_prints _ Hconf) as Hhead.
  pose proof (@outcomes_raises _ k syms w0) as Hunc.
  destruct (outcomes_appends k syms w0) as (l & Hl). unfold printed in Hl.
  exists k, syms.
  unfold run, script, bind. rewrite main_eq, Hconf, collect_stocks_outcomes.
  destruct (outcomes k syms w0) as [[outs|e] w1]; cbn [fst snd] in *.
  - destruct (store outs []) as [|kv stocks].
    + rewrite finish_empty. cbn [exit_status fst snd stdout set_stdout].
      exists (l ++ [MsgNoDataFetched]). repeat split; try assumption.
      * rewrite Hl, Hhead, <- !app_assoc. reflexivity.
      * discriminate.
    + unfold finish, bind, now, write_output, print, ret.
      cbn [Dict.is_empty exit_status fst snd files data_dir set_files
           set_ticks set_stdout clock ticks stdout output_file].
      eexists. repeat split; try assumption.
      * rewrite Hl, Hhead, <- !app_assoc. cbn [app]. reflexivity.
      * intros _. do 2 eexists. split; [reflexivity|].
        cbn [symbols lastUpdated]. unfold Dict.keys. rewrite length_map.
        reflexivity.
  - exists l. repeat split; try assumption.
    + rewrite Hl, Hhead, <- !app_assoc. reflexivity.
    + destruct (Hunc e eq_refl) as [->|[->| ->]]; discriminate.
Qed.

End AppendsOfProgram.

(* ================================================================= *)
(** ** The statements at concrete inputs *)

Module Checks.
Import Examples.
#[local] Existing Instance DecimalRuntime.

Lemma ok_unwrap A (dflt : A) (r : result A) :
  is_ok r = true -> r = Ok (unwrap dflt r).
Proof. destruct r; [reflexivity|discriminate]. Qed.

Lemma run_ok_unwrap A W (dflt : A) (p : result A * W) :
  is_ok (fst p) = true -> p = (Ok (unwrap dflt (fst p)), snd p).
Proof. destruct p as [[a|e] w]; [reflexivity|discriminate]. Qed.

Lemma some_the A (dflt : A) (o : option A) :
  is_some o = true -> o = Some (the dflt o).
Proof. destruct o; [reflexivity|discriminate]. Qed.

Lemma empty_mapping V (d : Dict.t V) : Dict.is_empty d = true -> d = [].
Proof. destruct d; [reflexivity|discriminate]. Qed.

Lemma not_empty V (d : Dict.t V) : Dict.is_empty d = false -> d <> [].
Proof. destruct d; [discriminate|intros _; discriminate]. Qed.

Lemma get_symbols_normalizes_witness :
  get_symbols (world_of [("SYMBOLS", " aapl, Msft ,googl")] unreachable)
  = (Ok ["AAPL"; "MSFT"; "GOOGL"],
     world_of [("SYMBOLS", " aapl, Msft ,googl")] unreachable)
  /\ get_symbols (world_of [("SYMBOLS", "  ")] unreachable)
     = (Ok [""], world_of [("SYMBOLS", "  ")] unreachable)
  /\ exists result,
       fst (get_symbols (world_of [("SYMBOLS", accented_symbols)] unreachable))
       = Ok result
       /\ result = ["STRASSE"; String "201" ""].
Proof.
  split; [|split].
  - exact (proj1 (proj2 (get_symbols_normalizes
                           (world_of [("SYMBOLS", " aapl, Msft ,googl")] unreachable)
                           eq_refl eq_refl)) eq_refl).
  - exact (proj2 (proj2 (get_symbols_normalizes
                           (world_of [("SYMBOLS", "  ")] unreachable)
                           eq_refl eq_refl)) eq_refl).
  - destruct (proj1 (get_symbols_normalizes
                       (world_of [("SYMBOLS", accented_symbols)] unreachable)
                       eq_refl eq_refl))
      as (tokens & result & _ & _ & Hget & _).
    exists result. rewrite Hget. split; [reflexivity|].
    pose proof (f_equal fst Hget) as H. cbn [fst] in H.
    assert (E : Ok result = Ok ["STRASSE"; String "201" ""])
      by (rewrite <- H; vm_compute; reflexivity).
    now injection E.
Defined.

Lemma config_defaults_witness :
  get_symbols (world_of [] unreachable)
  = (Ok ["AAPL"; "MSFT"; "GOOGL"; "AMZN"; "TSLA"; "NVDA"], world_of [] unreachable)
  /\ fst (get_api_key (world_of [] unreachable)) = Ok "demo"
  /\ fst (get_api_key (world_of [("ALPHA_VANTAGE_API_KEY", "")] unreachable))
     = Ok "demo".
Proof.
  split; [|split].
  - exact (proj1 (config_defaults (world_of [] unreachable)) eq_refl).
  - exact (proj1 (proj1 (proj2 (config_defaults (world_of [] unreachable)))
                        (or_introl eq_refl))).
  - exact (proj1 (proj1 (proj2 (config_defaults
                                  (world_of [("ALPHA_VANTAGE_API_KEY", "")]
                                            unreachable)))
                        (or_intror eq_refl))).
Defined.

Lemma fetch_quote_absent_cases_witness :
  fst (fetch_quote "IBM" "KEY" (world_of [] unreachable)) = Ok None
  /\ fst (fetch_quote "IBM" "KEY" (world_of [] (always error_body))) = Ok None
  /\ fst (fetch_quote "IBM" "KEY" (world_of [] (always note_body))) = Ok None
  /\ fst (fetch_quote "IBM" "KEY" (world_of [] (always empty_quote_body))) = Ok None
  /\ fst (fetch_quote "IBM" "KEY" (world_of [] (always bad_price_body))) = Ok None.
Proof.
  pose proof (fetch_quote_absent_cases "IBM" "KEY" (world_of [] unreachable)) as H1.
  pose proof (fetch_quote_absent_cases "IBM" "KEY" (world_of [] (always error_body))) as H2.
  pose proof (fetch_quote_absent_cases "IBM" "KEY" (world_of [] (always note_body))) as H3.
  pose proof (fetch_quote_absent_cases "IBM" "KEY" (world_of [] (always empty_quote_body))) as H4.
  pose proof (fetch_quote_absent_cases "IBM" "KEY" (world_of [] (always bad_price_body))) as H5.
  cbv zeta in *.
  split; [exact (proj1 (proj1 H1 eq_refl))|].
  split; [exact (proj1 (proj1 (proj2 H2) _ _ eq_refl eq_refl))|].
  split; [exact (proj1 (proj1 (proj2 (proj2 H3)) _ eq_refl eq_refl eq_refl))|].
  split; [exact (proj1 (proj1 (proj2 (proj2 (proj2 H4))) _ eq_refl eq_refl eq_refl
                              (or_intror eq_refl)))|].
  exact (proj1 (proj1 (proj2 (proj2 (proj2 (proj2 H5)))) _ _ eq_refl eq_refl eq_refl
                      eq_refl eq_refl eq_refl)).
Defined.

Lemma fetch_quote_null_price_witness :
  fst (fetch_quote "IBM" "KEY" (world_of [] (always null_price_body)))
  = Raise TypeError
  /\ stdout (snd (fetch_quote "IBM" "KEY" (world_of [] (always null_price_body))))
     = [].
Proof.
  destruct (@fetch_quote_null_price DecimalRuntime "IBM" "KEY"
              (world_of [] (always null_price_body)) _ _
              eq_refl eq_refl eq_refl eq_refl eq_refl) as (Hr & Hout & _).
  split; [exact Hr|exact Hout].
Defined.

Lemma quote_fields_witness :
  exists Q,
    fst (fetch_quote "IBM" "KEY" (world_of [] (always quote_body))) = Ok (Some Q)
    /\ q_price Q = Decimal.mk 12345 2
    /\ q_change Q = Decimal.mk (-120) 2
    /\ q_changePercent Q = Decimal.mk (-95) 2
    /\ q_open Q = Decimal.mk 0 0
    /\ q_volume Q = 0%Z.
Proof.
  pose proof (@quote_fields DecimalRuntime "IBM" "KEY" (world_of [] (always quote_body))
                _ _ eq_refl eq_refl eq_refl eq_refl
                ltac:(discriminate)) as [H1 H2].
  destruct (H1 eq_refl) as [Q HQ].
  destruct (H2 Q HQ) as (Hf & _ & Hpct & Hprice & _ & Hopen & _ & _ & _ & Hvol).
  exists Q. split; [exact Hf|].
  split; [specialize (Hprice _ eq_refl); injection Hprice as <-; reflexivity|].
  split; [injection HQ as <-; reflexivity|].
  split; [specialize (Hpct "-0.95"%string eq_refl eq_refl); injection Hpct as <-; reflexivity|].
  split; [exact (Hopen eq_refl)|exact (Hvol eq_refl)].
Defined.

Lemma fetch_daily_history_sorted_witness :
  exists history,
    fst (fetch_daily_history "IBM" "KEY" "compact"
           (world_of [] (always history_body))) = Ok history
    /\ map h_date history = ["2024-01-01"; "2024-01-02"; "2024-01-03"].
Proof.
  destruct (@fetch_daily_history_sorted DecimalRuntime "IBM" "KEY" "compact"
              (world_of [] (always history_body)) _ _
              eq_refl eq_refl eq_refl eq_refl)
    as (history & Hfetch & _ & _ & _ & _ & Hdates).
  - repeat constructor; simpl; intuition discriminate.
  - intros kv [<-|[<-|[<-|[]]]]; eexists; reflexivity.
  - exists history. split; [exact Hfetch|exact (Hdates eq_refl)].
Defined.

Lemma demo_history_dates_increasing_witness :
  exists h,
    fst (generate_demo_history (Decimal.mk 100 0) 10 (world_of [] unreachable))
    = Ok h
    /\ StronglySorted PyStr.lt (map h_date h)
    /\ NoDup (map h_date h).
Proof.
  apply (@demo_history_dates_increasing DecimalRuntime (Decimal.mk 100 0) 10
           (world_of [] unreachable)).
  - intros n. repeat split; vm_compute; discriminate.
  - intros m n _. apply Z.le_refl.
  - intros n. vm_compute. discriminate.
Defined.

(** The dates of a history are not always increasing.  With a clock
    set back by a day between two turns the same date comes twice;
    and with a history that starts before the year 1000 the text of
    the last day of 999 comes before the text of the first day of
    1000, which is the smaller text. *)
Lemma demo_history_dates_repeat_or_fall :
  (exists h,
      fst (generate_demo_history (Decimal.mk 100 0) 2 set_back_world) = Ok h
      /\ map h_date h = ["2024-01-02"; "2024-01-02"]
      /\ ~ NoDup (map h_date h)
      /\ ~ StronglySorted PyStr.lt (map h_date h))
  /\ (exists h l1 l2,
        fst (generate_demo_history (Decimal.mk 100 0) 400000
               (world_of [] unreachable)) = Ok h
        /\ map h_date h = l1 ++ "999-12-31" :: "1000-01-01" :: l2
        /\ PyStr.ltb "999-12-31" "1000-01-01" = false
        /\ ~ StronglySorted PyStr.lt (map h_date h)).
Proof.
  split.
  - pose (h := unwrap [] (fst (generate_demo_history (Decimal.mk 100 0) 2
                                 set_back_world))).
    assert (Hh : fst (generate_demo_history (Decimal.mk 100 0) 2 set_back_world)
                 = Ok h)
      by (apply ok_unwrap; vm_compute; reflexivity).
    assert (Hd : map h_date h = ["2024-01-02"; "2024-01-02"])
      by (vm_compute; reflexivity).
    exists h. split; [exact Hh|]. split; [exact Hd|]. rewrite Hd. split.
    + intros H. inversion H as [|? ? Hn _]. apply Hn. left. reflexivity.
    + intros H. inversion H as [|? ? _ Hall]. inversion Hall as [|? ? Hlt _].
      discriminate Hlt.
  - destruct (@demo_history_neighbours DecimalRuntime (Decimal.mk 100 0)
                400000 25989 (Date.mk 2024 1 3) (Date.mk 999 12 31)
                (Date.mk 1000 1 1) (world_of [] unreachable))
      as (h & l1 & l2 & Hh & Hd).
    + repeat split; vm_compute; discriminate.
    + intros n. reflexivity.
    + vm_compute. reflexivity.
    + lia.
    + lia.
    + repeat split; vm_compute; discriminate.
    + repeat split; vm_compute; discriminate.
    + vm_compute. reflexivity.
    + vm_compute. reflexivity.
    + vm_compute. reflexivity.
    + vm_compute. reflexivity.
    + change (Date.strftime (Date.mk 999 12 31)) with "999-12-31" in Hd.
      change (Date.strftime (Date.mk 1000 1 1)) with "1000-01-01" in Hd.
      exists h, l1, l2. split; [exact Hh|]. split; [exact Hd|].
      split; [reflexivity|]. rewrite Hd. intros H.
      apply strongly_sorted_app_r in H.
      inversion H as [|? ? _ Hall]. inversion Hall as [|? ? Hlt _].
      discriminate Hlt.
Qed.

Lemma demo_history_weekdays_witness :
  exists h,
    fst (generate_demo_history (Decimal.mk 100 0) 10 (world_of [] unreachable))
    = Ok h
    /\ map h_date h
       = ["2023-12-25"; "2023-12-26"; "2023-12-27"; "2023-12-28"; "2023-12-29";
          "2024-01-01"; "2024-01-02"]
    /\ (Z.of_nat (List.length h) < 10)%Z.
Proof.
  destruct (@demo_history_weekdays DecimalRuntime (Decimal.mk 100 0) 10
              (world_of [] unreachable) (Date.mk 2024 1 3))
    as (h & Hgen & Hdates & _ & _ & _ & Hfew).
  - repeat split; vm_compute; discriminate.
  - intros n. reflexivity.
  - vm_compute. reflexivity.
  - exists h. split; [exact Hgen|]. split; [exact Hdates|].
    apply Hfew. lia.
Defined.

(** Asked for one day on a Wednesday, the generator returns one
    point, not fewer. *)
Lemma demo_history_one_day :
  exists h,
    fst (generate_demo_history (Decimal.mk 100 0) 1 (world_of [] unreachable))
    = Ok h
    /\ map h_date h = ["2024-01-02"]
    /\ ~ (Z.of_nat (List.length h) < 1)%Z.
Proof.
  exists (unwrap [] (fst (@generate_demo_history DecimalRuntime
                            (Decimal.mk 100 0) 1 (world_of [] unreachable)))).
  split; [apply ok_unwrap; vm_compute; reflexivity|].
  split; [vm_compute; reflexivity|]. vm_compute. discriminate.
Qed.

Lemma live_mode_records_witness :
  exists snap,
    output_file (files (snd (run twice_world))) = Some snap
    /\ symbols snap = ["A"].
Proof.
  pose (outs := unwrap [] (fst (live_outcomes "KEY" ["A"; "A"]
                                  (snd (configure twice_world))))).
  destruct (@live_mode_records DecimalRuntime twice_world
              (snd (configure twice_world))
              (snd (live_outcomes "KEY" ["A"; "A"] (snd (configure twice_world))))
              "KEY" ["A"; "A"] outs)
    as (_ & _ & _ & _ & _ & _ & Hwritten).
  - reflexivity.
  - discriminate.
  - apply run_ok_unwrap. vm_compute. reflexivity.
  - destruct Hwritten as (snap & Hout & Hstocks & Hsymbols).
    + apply not_empty. vm_compute. reflexivity.
    + exists snap. split; [exact Hout|].
      rewrite Hsymbols. vm_compute. reflexivity.
Defined.

(** The symbol A is configured twice; the quote fetch of its second
    turn returns the absent marker, and A is written all the same. *)
Lemma repeated_symbol_recorded :
  exists outs snap,
    fst (live_outcomes "KEY" ["A"; "A"] (snd (configure twice_world))) = Ok outs
    /\ map fst outs = ["A"; "A"]
    /\ map (fun so => is_some (snd so)) outs = [true; false]
    /\ output_file (files (snd (run twice_world))) = Some snap
    /\ symbols snap = ["A"]
    /\ Dict.mem "A" (stocks snap) = true.
Proof.
  exists (unwrap [] (fst (@live_outcomes DecimalRuntime "KEY" ["A"; "A"]
                            (snd (configure twice_world))))).
  exists (the no_snapshot (output_file (files (snd (run twice_world))))).
  split; [apply ok_unwrap; vm_compute; reflexivity|].
  split; [vm_compute; reflexivity|].
  split; [vm_compute; reflexivity|].
  split; [apply some_the; vm_compute; reflexivity|].
  split; vm_compute; reflexivity.
Qed.

Lemma exit_status_and_output_witness :
  (fst (run offline_world) = 1%Z
   /\ output_file (files (snd (run offline_world))) = None)
  /\ (fst (run demo_world) = 0%Z
      /\ exists snap, output_file (files (snd (run demo_world))) = Some snap).
Proof.
  split.
  - pose (mapping := unwrap [] (fst (collect_stocks "KEY" ["A"; "B"]
                                       (snd (configure offline_world))))).
    destruct (@exit_status_and_output DecimalRuntime offline_world
                (snd (configure offline_world))
                (snd (collect_stocks "KEY" ["A"; "B"] (snd (configure offline_world))))
                "KEY" ["A"; "B"] mapping) as [Hempty _].
    + reflexivity.
    + apply run_ok_unwrap. vm_compute. reflexivity.
    + apply Hempty. apply empty_mapping. vm_compute. reflexivity.
  - pose (mapping := unwrap [] (fst (collect_stocks "demo" ["A"; "B"; "A"]
                                       (snd (configure demo_world))))).
    destruct (@exit_status_and_output DecimalRuntime demo_world
                (snd (configure demo_world))
                (snd (collect_stocks "demo" ["A"; "B"; "A"] (snd (configure demo_world))))
                "demo" ["A"; "B"; "A"] mapping) as [_ Hwritten].
    + reflexivity.
    + apply run_ok_unwrap. vm_compute. reflexivity.
    + destruct Hwritten as (Hstatus & Hout & _).
      * apply not_empty. vm_compute. reflexivity.
      * split; [exact Hstatus|]. eexists. exact Hout.
Defined.

Lemma snapshot_symbols_unique_witness :
  exists snap,
    output_file (files (snd (run demo_world))) = Some snap
    /\ symbols snap = ["A"; "B"]
    /\ NoDup (symbols snap).
Proof.
  pose (outs := unwrap [] (fst (outcomes "demo" ["A"; "B"; "A"]
                                  (snd (configure demo_world))))).
  destruct (@snapshot_symbols_unique DecimalRuntime demo_world
              (snd (configure demo_world))
              (snd (outcomes "demo" ["A"; "B"; "A"] (snd (configure demo_world))))
              "demo" ["A"; "B"; "A"] outs)
    as (snap & Hout & Hstocks & Hsymbols & Hnodup & _).
  - reflexivity.
  - apply run_ok_unwrap. vm_compute. reflexivity.
  - apply not_empty. vm_compute. reflexivity.
  - exists snap. split; [exact Hout|]. split; [|exact Hnodup].
    rewrite Hsymbols, Hstocks. vm_compute. reflexivity.
Defined.

End Checks.

(* ================================================================= *)
(** ** The further properties at concrete inputs *)

Module Instances.
Import Examples Scenarios.
#[local] Existing Instance DecimalRuntime.

Lemma ok_value A (dflt : A) (r : result A) :
  is_ok r = true -> r = Ok (unwrap dflt r).
Proof. destruct r; [reflexivity|discriminate]. Qed.

Lemma run_ok_value A W (dflt : A) (p : result A * W) :
  is_ok (fst p) = true -> p = (Ok (unwrap dflt (fst p)), snd p).
Proof. destruct p as [[a|e] w]; [reflexivity|discriminate]. Qed.

Lemma run_some_value A W (dflt : A) (p : result (option A) * W) :
  is_some (unwrap None (fst p)) = true ->
  p = (Ok (Some (the dflt (unwrap None (fst p)))), snd p).
Proof. destruct p as [[[a|]|e] w]; [reflexivity|discriminate|discriminate]. Qed.

Lemma run_type_error A W (p : result A * W) :
  is_type_error (fst p) = true -> p = (Raise TypeError, snd p).
Proof. destruct p as [[a|[]] w]; first [reflexivity|discriminate]. Qed.

Lemma failed_response (r : Response) : is_failed r = true -> r = Failed.
Proof. destruct r; [reflexivity|discriminate]. Qed.

Lemma mapping_not_empty V (d : Dict.t V) : Dict.is_empty d = false -> d <> [].
Proof. destruct d; [discriminate|intros _; discriminate]. Qed.

Lemma fetch_daily_history_empty_cases_witness :
  fst (fetch_daily_history "IBM" "KEY" "compact" (world_of [] unreachable)) = Ok []
  /\ fst (fetch_daily_history "IBM" "KEY" "compact" (world_of [] (always note_body)))
     = Ok []
  /\ fst (fetch_daily_history "IBM" "KEY" "compact"
            (world_of [] (always bad_close_body))) = Ok []
  /\ fst (fetch_daily_history "IBM" "KEY" "compact"
            (world_of [] (always bar_not_object_body))) = Raise AttributeError.
Proof.
  pose proof (fetch_daily_history_empty_cases "IBM" "KEY" "compact"
                (world_of [] unreachable)) as H1.
  pose proof (fetch_daily_history_empty_cases "IBM" "KEY" "compact"
                (world_of [] (always note_body))) as H2.
  pose proof (fetch_daily_history_empty_cases "IBM" "KEY" "compact"
                (world_of [] (always bad_close_body))) as H3.
  pose proof (fetch_daily_history_empty_cases "IBM" "KEY" "compact"
                (world_of [] (always bar_not_object_body))) as H4.
  cbv zeta in *.
  split; [exact (proj1 H1 eq_refl)|].
  split; [exact (proj1 (proj2 (proj2 H2)) _ eq_refl eq_refl)|].
  split; [exact (proj1 (proj2 (proj2 (proj2 (proj2 H3)))) _ _ eq_refl eq_refl
                       eq_refl eq_refl eq_refl)|].
  refine (proj1 (proj2 (proj2 (proj2 (proj2 (proj2 H4))))) _ _ _ eq_refl eq_refl
                eq_refl eq_refl _).
  intros fields. discriminate.
Defined.

Lemma history_point_fields_witness :
  exists p,
    history_point "2024-01-02" (JObj [("4. close", JStr "186.20")]) = Ok p
    /\ h_date p = "2024-01-02"
    /\ Ok (h_close p) = py_float (JStr "186.20")
    /\ Ok (h_open p) = Ok (float_lit 0 0)
    /\ Ok (h_volume p) = Ok 0%Z.
Proof.
  pose (p := unwrap no_point
               (history_point "2024-01-02" (JObj [("4. close", JStr "186.20")]))).
  assert (Hp : history_point "2024-01-02" (JObj [("4. close", JStr "186.20")])
               = Ok p)
    by (apply ok_value; vm_compute; reflexivity).
  destruct (@history_point_fields DecimalRuntime _ _ _ Hp) as (Hd & Ho & _ & _ & Hc & Hv & _).
  exists p. repeat split; assumption.
Defined.

Lemma quote_kept_without_history_witness :
  exists mapping,
    fst (live_step "KEY" "IBM" [] (snd (configure history_down_world)))
    = Ok mapping
    /\ Dict.mem "IBM" mapping = true.
Proof.
  pose (w := snd (configure history_down_world)).
  pose (start := set_stdout (stdout w ++ [MsgFetching "IBM"]) w).
  pose (q := the no_quote (unwrap None (fst (fetch_quote "IBM" "KEY" start)))).
  destruct (@quote_kept_without_history DecimalRuntime "KEY" "IBM" [] w
              (snd (fetch_quote "IBM" "KEY" start)) q)
    as (mapping & Hstep & _ & Hget & _).
  - apply run_some_value. vm_compute. reflexivity.
  - left. apply failed_response. vm_compute. reflexivity.
  - exists mapping. split; [exact Hstep|].
    unfold Dict.mem. now rewrite Hget.
Defined.

Lemma live_request_count_witness :
  sent (snd (live_outcomes "KEY" ["A"; "A"] (snd (configure twice_world))))
  <= 4.
Proof.
  pose (w := snd (configure twice_world)).
  pose (outs := unwrap [] (fst (live_outcomes "KEY" ["A"; "A"] w))).
  destruct (@live_request_count DecimalRuntime "KEY" ["A"; "A"] w
              (snd (live_outcomes "KEY" ["A"; "A"] w)) outs)
    as (_ & Hle & _).
  - apply run_ok_value. vm_compute. reflexivity.
  - exact Hle.
Defined.

Lemma demo_mode_sends_nothing_witness :
  sent (snd (run demo_world)) = 0.
Proof.
  exact (@demo_mode_sends_nothing DecimalRuntime demo_world (or_introl eq_refl)).
Defined.

Lemma demo_mode_complete_witness :
  fst (run demo_world) = 0%Z
  /\ exists snap,
       output_file (files (snd (run demo_world))) = Some snap
       /\ (forall s, In s ["A"; "B"; "A"] <-> In s (symbols snap)).
Proof.
  destruct (@demo_mode_complete DecimalRuntime demo_world (Date.mk 2024 1 3))
    as (Hstatus & snap & configured & Hout & Hsyms & Hin & _).
  - left. reflexivity.
  - unfold Date.valid. cbn. lia.
  - intros n. reflexivity.
  - reflexivity.
  - split; [exact Hstatus|]. exists snap. split; [exact Hout|].
    assert (E : configured = ["A"; "B"; "A"]).
    { assert (H : Ok configured = Ok ["A"; "B"; "A"])
        by (rewrite <- Hsyms; vm_compute; reflexivity).
      now injection H. }
    rewrite <- E. exact Hin.
Defined.

Lemma written_symbols_order_witness :
  exists snap,
    output_file (files (snd (run demo_world))) = Some snap
    /\ symbols snap = ["A"; "B"].
Proof.
  pose (outs := unwrap [] (fst (outcomes "demo" ["A"; "B"; "A"]
                                  (snd (configure demo_world))))).
  destruct (@written_symbols_order DecimalRuntime demo_world
              (snd (configure demo_world))
              (snd (outcomes "demo" ["A"; "B"; "A"] (snd (configure demo_world))))
              "demo" ["A"; "B"; "A"] outs)
    as (snap & Hout & _ & Hdemo & _).
  - reflexivity.
  - apply run_ok_value. vm_compute. reflexivity.
  - apply mapping_not_empty. vm_compute. reflexivity.
  - exists snap. split; [exact Hout|]. rewrite (Hdemo eq_refl).
    vm_compute. reflexivity.
Defined.

Lemma uncaught_exception_aborts_witness :
  fst (run null_price_world) = 1%Z
  /\ output_file (files (snd (run null_price_world))) = None.
Proof.
  destruct (@uncaught_exception_aborts DecimalRuntime null_price_world
              (snd (configure null_price_world))
              (snd (outcomes "KEY" ["A"] (snd (configure null_price_world))))
              "KEY" ["A"] TypeError)
    as (_ & Hstatus & Hout).
  - reflexivity.
  - apply run_type_error. vm_compute. reflexivity.
  - split; [exact Hstatus|exact Hout].
Defined.

Lemma get_symbols_idempotent_witness :
  fst (get_symbols (world_of [("SYMBOLS", "AAPL,MSFT,GOOGL")] unreachable))
  = Ok ["AAPL"; "MSFT"; "GOOGL"].
Proof.
  exact (@get_symbols_idempotent DecimalRuntime
           (world_of [("SYMBOLS", " aapl, Msft ,googl")] unreachable)
           (world_of [("SYMBOLS", "AAPL,MSFT,GOOGL")] unreachable)
           ["AAPL"; "MSFT"; "GOOGL"] eq_refl eq_refl).
Defined.

Lemma generate_demo_history_edges_witness :
  generate_demo_history (float_lit 100 0) 0 early_world = (Ok [], early_world)
  /\ fst (generate_demo_history (float_lit 100 0) 5 early_world)
     = Raise OverflowError.
Proof.
  split.
  - apply (proj1 (generate_demo_history_edges (float_lit 100 0) 0 early_world)).
    lia.
  - rewrite (proj2 (generate_demo_history_edges (float_lit 100 0) 5 early_world));
      [reflexivity|lia|unfold Date.valid; cbn; lia|cbn; lia].
Defined.

End Instances.
